(** * Intent router, keyword scorer, responders and dispatcher

    A shallow embedding of the multi-agent core of the customer-support
    backend ([agents/router.ts], [agents/router-llm.ts],
    [agents/order-agent.ts], [agents/billing-agent.ts],
    [agents/support-agent.ts], [agents/coordinator.ts]) and the properties
    its specification states about it.

    Conventions of the embedding:
    - a JavaScript number is an IEEE-754 binary64 value, [spec_float] with
      [prec = 53] and [emax = 1024]; every arithmetic operation of the
      source is the correctly rounded operation of [SpecFloat];
    - a JavaScript string is a sequence of code units below U+0100
      (the Latin-1 range), one [ascii] per code unit;
    - a regular expression is a term of [regex], run by a backtracking
      matcher with the priorities of the ECMAScript semantics;
    - an awaited tool call is an event of the [Agent] monad. *)

From Stdlib Require Import ZArith Bool List String Ascii Lia.
From Stdlib Require Import Floats.SpecFloat.
From stdpp Require Import base gmap strings.
Import ListNotations.

Local Set Warnings "-register-all".

Local Open Scope Z_scope.
Local Open Scope string_scope.

(* ===================================================================== *)
(** * JavaScript numbers *)
(* ===================================================================== *)

Module Number.

Definition number := spec_float.

Definition prec : Z := 53.
Definition emax : Z := 1024.

Definition add : number -> number -> number := SFadd prec emax.
Definition sub : number -> number -> number := SFsub prec emax.
Definition ltb : number -> number -> bool := SFltb.
Definition leb : number -> number -> bool := SFleb.

(** [a > b] and [a >= b] of the source are [b < a] and [b <= a]. *)
Definition gtb (a b : number) : bool := ltb b a.
Definition geb (a b : number) : bool := leb b a.

Definition zero : number := S754_zero false.

Definition of_pos (p : positive) : number :=
  binary_normalize prec emax (Zpos p) 0 false.

(** The decimal literal [n/d]: the binary64 value nearest to the
    rational, as the correctly rounded quotient of two exact integers. *)
Definition decimal (n d : positive) : number :=
  SFdiv prec emax (of_pos n) (of_pos d).

Definition lit_0_1 : number := Eval vm_compute in decimal 1 10.
Definition lit_0_2 : number := Eval vm_compute in decimal 2 10.
Definition lit_0_5 : number := Eval vm_compute in decimal 5 10.
Definition lit_0_9 : number := Eval vm_compute in decimal 9 10.
Definition lit_0_95 : number := Eval vm_compute in decimal 95 100.
Definition lit_1 : number := Eval vm_compute in of_pos 1.

(** [Math.min(x, y)]: NaN if either is NaN, and -0 is below +0. *)
Definition Math_min (x y : number) : number :=
  match SFcompare x y with
  | None => S754_nan
  | Some Lt => x
  | Some Gt => y
  | Some Eq =>
      match x, y with
      | S754_zero sx, S754_zero sy => S754_zero (sx || sy)
      | _, _ => x
      end
  end.

Definition is_nan (x : number) : bool :=
  match x with S754_nan => true | _ => false end.

Definition number_eq_dec (x y : number) : {x = y} + {x <> y}.
Proof.
  decide equality; try apply Z.eq_dec; try apply Pos.eq_dec;
    apply Bool.bool_dec.
Defined.

End Number.
Import Number.

(* ===================================================================== *)
(** * JavaScript strings (code units below U+0100) *)
(* ===================================================================== *)

Module JsString.

Definition code (c : ascii) : N := N_of_ascii c.

Definition in_range (lo hi : N) (c : ascii) : bool :=
  (N.leb lo (code c) && N.leb (code c) hi)%bool.

(** [String.prototype.toLowerCase] on one code unit: A-Z, and the
    Latin-1 capitals U+00C0..U+00DE other than the multiplication sign
    U+00D7, move up by 0x20. *)
Definition lower_char (c : ascii) : ascii :=
  if (in_range 65 90 c
      || (in_range 192 222 c && negb (N.eqb (code c) 215)))%bool
  then ascii_of_N (code c + 32)
  else c.

Fixpoint toLowerCase (s : string) : string :=
  match s with
  | EmptyString => EmptyString
  | String c s' => String (lower_char c) (toLowerCase s')
  end.

(** [Canonicalize] of a case-insensitive, non-unicode pattern: the
    code unit of [toUpperCase] when that is a single code unit (and
    does not turn a non-ASCII unit into an ASCII one). U+00B5 and
    U+00FF leave the Latin-1 range; U+00DF has a two-unit upper case
    and stays. *)
Definition canonicalize (c : ascii) : N :=
  if in_range 97 122 c then code c - 32
  else if (in_range 224 254 c && negb (N.eqb (code c) 247))%bool
       then code c - 32
  else if N.eqb (code c) 181 then 924
  else if N.eqb (code c) 255 then 376
  else code c.

(** A word character of [\b] and [\w]: [A-Za-z0-9_]. *)
Definition is_word_char (c : ascii) : bool :=
  (in_range 97 122 c || in_range 65 90 c || in_range 48 57 c
   || N.eqb (code c) 95)%bool.

Definition is_digit (c : ascii) : bool := in_range 48 57 c.

(** A line terminator, which [.] does not match (the two others,
    U+2028 and U+2029, are outside the range of the model). *)
Definition is_line_terminator (c : ascii) : bool :=
  (N.eqb (code c) 10 || N.eqb (code c) 13)%bool.

(** [s.startsWith(p)], comparing code units. *)
Fixpoint startsWith (s p : string) : bool :=
  match p with
  | EmptyString => true
  | String a p' =>
      match s with
      | EmptyString => false
      | String b s' => (Ascii.eqb a b && startsWith s' p')%bool
      end
  end.

(** [s.includes(p)]: [p] starts at some position of [s]. *)
Fixpoint includes (s p : string) : bool :=
  if startsWith s p then true
  else match s with
       | EmptyString => false
       | String _ s' => includes s' p
       end.

(** White space of [trim]: tab, line feed, vertical tab, form feed,
    carriage return, space and no-break space. *)
Definition is_white_space (c : ascii) : bool :=
  (in_range 9 13 c || N.eqb (code c) 32 || N.eqb (code c) 160)%bool.

Fixpoint trimStart (s : string) : string :=
  match s with
  | String c s' => if is_white_space c then trimStart s' else s
  | EmptyString => EmptyString
  end.

Fixpoint trimEnd (s : string) : string :=
  match s with
  | String c s' =>
      let rest := trimEnd s' in
      if (is_white_space c && String.eqb rest EmptyString)%bool
      then EmptyString
      else String c rest
  | EmptyString => EmptyString
  end.

Definition trim (s : string) : string := trimEnd (trimStart s).

(** The characters the source escapes in its string literals. *)
Definition LF : string := String (ascii_of_N 10) EmptyString.
Definition DQ : string := String (ascii_of_N 34) EmptyString.

End JsString.
Import JsString.

(* ===================================================================== *)
(** * Regular expressions *)
(* ===================================================================== *)

Module Regex.

(** One-character matchers. With the [i] flag a pattern character is
    compared through [canonicalize]. *)
Inductive atom : Type :=
| AChar (c : ascii)   (* a pattern character *)
| ADot                (* .  *)
| ADigit.             (* \d *)

Inductive regex : Type :=
| REmpty                       (* the empty pattern *)
| RAtom (a : atom)
| RStar (a : atom)             (* a*, greedy *)
| RBegin                       (* ^  *)
| RWordB                       (* \b *)
| RSeq (r1 r2 : regex)
| RAlt (r1 r2 : regex).        (* r1|r2, left first *)

Section Flags.
(** The [i] flag of the pattern. *)
Variable ignoreCase : bool.

Definition atom_matches (a : atom) (c : ascii) : bool :=
  match a with
  | AChar p =>
      if ignoreCase then N.eqb (canonicalize p) (canonicalize c)
      else Ascii.eqb p c
  | ADot => negb (is_line_terminator c)
  | ADigit => is_digit c
  end.

Definition is_word (o : option ascii) : bool :=
  match o with Some c => is_word_char c | None => false end.

Definition head (s : string) : option ascii :=
  match s with String c _ => Some c | EmptyString => None end.

(** [a*] at [s], the character before being [prev]: the longest run
    first, giving characters back until the continuation accepts. *)
Fixpoint star_match (a : atom) (prev : option ascii) (s : string)
         (k : option ascii -> string -> option string) : option string :=
  match s with
  | String c s' =>
      if atom_matches a c then
        match star_match a (Some c) s' k with
        | Some rest => Some rest
        | None => k prev s
        end
      else k prev s
  | EmptyString => k prev s
  end.

(** The matcher, in continuation-passing style: [prev] is the
    character before the current position ([None] at the start of
    the input), [s] the input from the current position on, and the
    result is the input left after the whole match. *)
Fixpoint rmatch (r : regex) (prev : option ascii) (s : string)
         (k : option ascii -> string -> option string) : option string :=
  match r with
  | REmpty => k prev s
  | RAtom a =>
      match s with
      | String c s' => if atom_matches a c then k (Some c) s' else None
      | EmptyString => None
      end
  | RStar a => star_match a prev s k
  | RBegin => match prev with None => k prev s | Some _ => None end
  | RWordB =>
      if xorb (is_word prev) (is_word (head s)) then k prev s else None
  | RSeq r1 r2 => rmatch r1 prev s (fun p s' => rmatch r2 p s' k)
  | RAlt r1 r2 =>
      match rmatch r1 prev s k with
      | Some rest => Some rest
      | None => rmatch r2 prev s k
      end
  end.

Definition accept : option ascii -> string -> option string :=
  fun _ rest => Some rest.

(** The first [n] code units of [s]. *)
Fixpoint take (n : nat) (s : string) : string :=
  match n, s with
  | S n', String c s' => String c (take n' s')
  | _, _ => EmptyString
  end.

(** [exec]: the leftmost match, tried at every start position in
    turn; the result is the matched text, [match[0]]. *)
Fixpoint exec_from (r : regex) (prev : option ascii) (s : string)
  : option string :=
  match rmatch r prev s accept with
  | Some rest => Some (take (String.length s - String.length rest) s)
  | None =>
      match s with
      | String c s' => exec_from r (Some c) s'
      | EmptyString => None
      end
  end.

End Flags.

(** A compiled pattern: its term and its [i] flag. *)
Record RegExp : Type := { source : regex; ignoreCaseFlag : bool }.

(** [s.match(re)] for a pattern without the [g] flag: [Some match[0]],
    or [None] for [null]. *)
Definition String_match (s : string) (re : RegExp) : option string :=
  exec_from (ignoreCaseFlag re) (source re) None s.

(** [re.test(s)]. *)
Definition test (re : RegExp) (s : string) : bool :=
  match String_match s re with Some _ => true | None => false end.

(** The last code unit of [taken], or [prev] when it is empty. *)
Fixpoint last_unit (prev : option ascii) (taken : string) : option ascii :=
  match taken with
  | EmptyString => prev
  | String c taken' => last_unit (Some c) taken'
  end.

(** [s.replace(re, replacement)] for a pattern with the [g] flag:
    every match, left to right, is replaced; after an empty match the
    search moves on by one code unit. *)
Fixpoint replace_from (fuel : nat) (re : RegExp) (replacement : string)
         (prev : option ascii) (s : string) : string :=
  match fuel with
  | O => s
  | S fuel' =>
      let skip :=
        match s with
        | String c s' =>
            String c (replace_from fuel' re replacement (Some c) s')
        | EmptyString => EmptyString
        end in
      match rmatch (ignoreCaseFlag re) (source re) prev s accept with
      | Some rest =>
          let n := (String.length s - String.length rest)%nat in
          match n with
          | O => replacement ++ skip
          | S _ =>
              replacement
              ++ replace_from fuel' re replacement
                   (last_unit prev (take n s)) rest
          end
      | None => skip
      end
  end.

Definition String_replace (s : string) (re : RegExp) (replacement : string)
  : string :=
  replace_from (S (String.length s)) re replacement None s.

(** The pattern of a literal text, character by character. *)
Fixpoint literal (s : string) : regex :=
  match s with
  | EmptyString => REmpty
  | String c s' => RSeq (RAtom (AChar c)) (literal s')
  end.

Definition any_star : regex := RStar ADot.   (* .* *)

(** [r?] *)
Definition opt (r : regex) : regex := RAlt r REmpty.

(** [r1 r2 ... rn] and [r1|r2|...|rn]. *)
Fixpoint seq (rs : list regex) : regex :=
  match rs with
  | [] => REmpty
  | [r] => r
  | r :: rs' => RSeq r (seq rs')
  end.

Fixpoint alt (rs : list regex) : regex :=
  match rs with
  | [] => REmpty
  | [r] => r
  | r :: rs' => RAlt r (alt rs')
  end.

(** A character with a meaning of its own in a pattern source. *)
Definition is_syntax_char (c : ascii) : bool :=
  existsb (Ascii.eqb c)
    (list_ascii_of_string "^$\.*+?()[]{}|/").

(** A text that is a pattern for itself: free of syntax characters. *)
Fixpoint plain (s : string) : bool :=
  match s with
  | EmptyString => true
  | String c s' => (negb (is_syntax_char c) && plain s')%bool
  end.

End Regex.
Import Regex.

(* ===================================================================== *)
(** * Data model ([types/index.ts]) *)
(* ===================================================================== *)

(** A value whose static type the source does not check at run time
    (the reply of the text-generation service after [JSON.parse], a
    field of the stored conversation). *)
Inductive js_value : Type :=
| JUndefined
| JNull
| JBool (b : bool)
| JNumber (n : number)
| JString (s : string)
| JArray (items : list js_value)
| JObject (fields : gmap string js_value).

(** Truthiness, as [if (v)], [!v] and [v && ...] test it. *)
Definition truthy (v : js_value) : bool :=
  match v with
  | JUndefined | JNull => false
  | JBool b => b
  | JNumber n =>
      match n with
      | S754_zero _ | S754_nan => false
      | _ => true
      end
  | JString s => negb (String.eqb s EmptyString)
  | JArray _ | JObject _ => true
  end.

(** Truthiness of a [string | undefined]. *)
Definition truthy_string (o : option string) : bool :=
  match o with
  | Some s => negb (String.eqb s EmptyString)
  | None => false
  end.

(** The string enum [AgentType], in the order of its declaration. *)
Inductive AgentType : Type := ROUTER | SUPPORT | ORDER | BILLING.

Definition AgentType_name (t : AgentType) : string :=
  match t with
  | ROUTER => "ROUTER"
  | SUPPORT => "SUPPORT"
  | ORDER => "ORDER"
  | BILLING => "BILLING"
  end.

(** The run-time value of an enum member is its string. *)
Definition enum (t : AgentType) : js_value := JString (AgentType_name t).

(** The member a run-time value is strictly equal to, if any: what
    [!==] and a [switch] over the enum members compare. *)
Definition as_AgentType (v : js_value) : option AgentType :=
  match v with
  | JString s =>
      if String.eqb s "ROUTER" then Some ROUTER
      else if String.eqb s "SUPPORT" then Some SUPPORT
      else if String.eqb s "ORDER" then Some ORDER
      else if String.eqb s "BILLING" then Some BILLING
      else None
  | _ => None
  end.

Inductive MessageRole : Type := USER | ASSISTANT | SYSTEM | TOOL.

Module OrderStatus.
Inductive t : Type :=
  PENDING | CONFIRMED | PROCESSING | SHIPPED | DELIVERED | CANCELLED
| REFUNDED.
End OrderStatus.

Module PaymentStatus.
Inductive t : Type := PENDING | COMPLETED | FAILED | REFUNDED.

Definition eqb (a b : t) : bool :=
  match a, b with
  | PENDING, PENDING | COMPLETED, COMPLETED | FAILED, FAILED
  | REFUNDED, REFUNDED => true
  | _, _ => false
  end.
End PaymentStatus.

Module RefundStatus.
Inductive t : Type := PENDING | APPROVED | PROCESSED | REJECTED.
End RefundStatus.

(** A [Date], as its time value. *)
Definition Date : Type := Z.

Module ChatMessage.
Record t : Type := {
  role : MessageRole;
  content : string;
  agentType : option AgentType;
  metadata : option (gmap string js_value)
}.
End ChatMessage.

(** [agentType] comes from the stored conversation or from a routing
    decision and is not checked at run time; [metadata] is read only as
    [lastOrderNumber as string | undefined] and is kept at that type. *)
Module ConversationContext.
Record t : Type := {
  conversationId : string;
  userId : string;
  previousMessages : list ChatMessage.t;
  agentType : js_value;
  metadata : option (gmap string string)
}.
End ConversationContext.

(** The keyword router fills a decision with an enum member, a number
    and a string; the LLM router with whatever the parsed reply holds. *)
Module RouteDecision.
Record t : Type := {
  agentType : js_value;
  confidence : js_value;
  reasoning : js_value
}.
End RouteDecision.

Module ToolCall.
Record t : Type := {
  name : string;
  arguments : gmap string js_value;
  result : option js_value
}.
End ToolCall.

(* ===================================================================== *)
(** * Tool interfaces ([agents/tools/]) *)
(* ===================================================================== *)

Module OrderItem.
Record t : Type := { name : string; quantity : number; price : number }.
End OrderItem.

Module OrderData.
Record t : Type := {
  orderNumber : string;
  status : OrderStatus.t;
  total : number;
  currency : string;
  items : list OrderItem.t;
  shippingAddress : option (gmap string string);
  createdAt : Date;
  updatedAt : Date
}.
End OrderData.

Module OrderDetailsResult.
Record t : Type := {
  success : bool;
  data : option OrderData.t;
  error : option string
}.
End OrderDetailsResult.

Module OrderSummary.
Record t : Type := {
  orderNumber : string;
  status : OrderStatus.t;
  total : number;
  currency : string;
  itemCount : number;
  createdAt : Date
}.
End OrderSummary.

Module TrackingResult.
Record t : Type := {
  success : bool;
  trackingNumber : option string;
  trackingUrl : option string;
  status : option OrderStatus.t;
  estimatedDelivery : option Date;
  error : option string
}.
End TrackingResult.

Module CancellationResult.
Record t : Type := {
  success : bool;
  orderNumber : string;
  status : OrderStatus.t;
  refundAmount : option number;
  message : string
}.
End CancellationResult.

Module ModificationResult.
Record t : Type := {
  success : bool;
  orderNumber : string;
  message : string;
  updatedFields : option (list string)
}.
End ModificationResult.

Module OrderModification.
Record t : Type := {
  shippingAddress : option (gmap string string);
  addItems : option (list OrderItem.t);
  removeItems : option (list string)
}.

(** [{}] *)
Definition empty : t :=
  {| shippingAddress := None; addItems := None; removeItems := None |}.

(** [Object.keys(m).length] *)
Definition keys_length (m : t) : nat :=
  ((if shippingAddress m is Some _ then 1 else 0)
   + (if addItems m is Some _ then 1 else 0)
   + (if removeItems m is Some _ then 1 else 0))%nat.
End OrderModification.

Module InvoiceData.
Record t : Type := {
  id : string;
  invoiceUrl : option string;
  amount : number;
  currency : string;
  status : string;
  orderNumber : string;
  paymentMethod : string;
  createdAt : Date
}.
End InvoiceData.

Module InvoiceResult.
Record t : Type := {
  success : bool;
  data : option InvoiceData.t;
  error : option string
}.
End InvoiceResult.

Module PaymentSummary.
Record t : Type := {
  id : string;
  orderNumber : string;
  amount : number;
  currency : string;
  status : PaymentStatus.t;
  paymentMethod : string;
  transactionId : option string;
  createdAt : Date
}.
End PaymentSummary.

Module RefundData.
Record t : Type := {
  id : string;
  orderNumber : string;
  amount : number;
  currency : string;
  status : RefundStatus.t;
  reason : option string;
  createdAt : Date;
  updatedAt : Date
}.
End RefundData.

Module RefundResult.
Record t : Type := {
  success : bool;
  data : option RefundData.t;
  error : option string
}.
End RefundResult.

Module SubscriptionResult.
Record t : Type := {
  success : bool;
  hasSubscription : option bool;
  plan : option string;
  status : option string;
  nextBillingDate : option Date;
  error : option string
}.
End SubscriptionResult.

Module ConversationInfo.
Record t : Type := {
  id : string;
  title : string;
  agentType : string;
  createdAt : Date;
  updatedAt : Date;
  lastMessage : option string
}.
End ConversationInfo.

Module ConversationHistoryResult.
Record t : Type := {
  success : bool;
  conversations : option (list ConversationInfo.t);
  error : option string
}.
End ConversationHistoryResult.

Module FAQResult.
Record t : Type := {
  question : string;
  answer : string;
  category : string;
  relevance : number
}.
End FAQResult.

(** The argument of [generateText]. *)
Module GenerateRequest.
Record t : Type := {
  model : string;
  system : string;
  prompt : string;
  temperature : number
}.
End GenerateRequest.

(** How an awaited call that may fail settles. *)
Inductive Settled (A : Type) : Type :=
| Fulfilled (value : A)
| Rejected (error : js_value).
Arguments Fulfilled {A} value.
Arguments Rejected {A} error.

(** The external calls of the core, each with the type of what it
    resolves to. The tool functions catch their own failures and always
    resolve; [generateText] may reject. *)
Inductive tool : Type -> Type :=
| getOrderDetails (orderNumber : string) : tool OrderDetailsResult.t
| getUserOrders (userId : string) : tool (list OrderSummary.t)
| trackOrder (orderNumber : string) : tool TrackingResult.t
| cancelOrder (orderNumber reason : string) : tool CancellationResult.t
| modifyOrder (orderNumber : string) (modifications : OrderModification.t)
  : tool ModificationResult.t
| getInvoiceDetails (invoiceId : string) : tool InvoiceResult.t
| getPaymentHistory (userId : string) : tool (list PaymentSummary.t)
| checkRefundStatus (refundId : string) : tool RefundResult.t
| getSubscriptionInfo (userId : string) : tool SubscriptionResult.t
| queryConversationHistory (userId : string) (limit : number)
  : tool ConversationHistoryResult.t
| searchFAQs (query : string) : tool (list FAQResult.t)
| generateText (request : GenerateRequest.t) : tool (Settled string).

(** A call made, without its result. *)
Inductive call : Type :=
| Called {X : Type} (t : tool X).

(** The data tools: every call but the one to the text-generation
    service. *)
Definition is_data_tool (c : call) : bool :=
  match c with
  | Called (generateText _) => false
  | Called _ => true
  end.

(** A data tool that writes to the store. *)
Definition is_write (c : call) : bool :=
  match c with
  | Called (cancelOrder _ _) | Called (modifyOrder _ _) => true
  | Called _ => false
  end.

(* ===================================================================== *)
(** * Asynchronous computations *)
(* ===================================================================== *)

(** The body of an [async] function: it resolves to a value, or awaits
    an external call and goes on with what the call resolved to. *)
Inductive Promise (A : Type) : Type :=
| Resolve (a : A)
| Await {X : Type} (t : tool X) (k : X -> Promise A).
Arguments Resolve {A} a.
Arguments Await {A X} t k.

Fixpoint bind {A B : Type} (p : Promise A) (f : A -> Promise B) : Promise B :=
  match p with
  | Resolve a => f a
  | Await t k => Await t (fun x => bind (k x) f)
  end.

Notation "'let*' x := 'await' p 'in' q" :=
  (bind p (fun x => q))
  (at level 10, x pattern, p at level 100, q at level 200,
   format "'[v' 'let*'  x  :=  'await'  p  'in' '/' q ']'").

(** [await this.tools.f(args)] *)
Definition invoke {X : Type} (t : tool X) : Promise X := Await t Resolve.

(** The world outside: what each call resolves to. *)
Definition environment : Type := forall X : Type, tool X -> X.

(** Running a computation against an environment: the value it resolves
    to, and the calls it made, in order. *)
Fixpoint run {A : Type} (env : environment) (p : Promise A) : A * list call :=
  match p with
  | Resolve a => (a, [])
  | Await t k =>
      let '(a, calls) := run env (k (env _ t)) in
      (a, Called t :: calls)
  end.

Definition outcome {A : Type} (env : environment) (p : Promise A) : A :=
  fst (run env p).

Definition calls {A : Type} (env : environment) (p : Promise A) : list call :=
  snd (run env p).

(* ===================================================================== *)
(** * Replies *)
(* ===================================================================== *)

(** The text of a reply. A text the source writes out, or takes from a
    tool result, is kept as it is; a template is kept as the values
    spliced into it, and a fixed text with characters outside the range
    of the string model by its name. *)
Inductive Content : Type :=
| Text (s : string)
  (* order-agent.ts *)
| TrackingInfo (orderNumber : string) (tracking : TrackingResult.t)
| OrderDetails (orderNumber : string) (data : OrderData.t)
| OrderList (orders : list OrderSummary.t)
  (* billing-agent.ts *)
| RefundInfo (refundId : string) (data : RefundData.t)
| RefundedPayments (payments : list PaymentSummary.t)
| InvoiceInfo (data : InvoiceData.t)
| RecentPayments (payments : list PaymentSummary.t)
| PaymentIssueHelp
| SubscriptionInfo (subscription : SubscriptionResult.t)
| PaymentHistory (payments : list PaymentSummary.t)
  (* support-agent.ts *)
| Greeting
| FAQAnswer (bestMatch : FAQResult.t)
| ReturnPolicy
| AccountAssistance
| ContactUs
| ProductQuestions
| GeneralAssistance (message : string) (topics : option nat).

Module AgentResponse.
Record t : Type := {
  content : Content;
  agentType : AgentType;
  toolCalls : option (list ToolCall.t);
  reasoning : js_value
}.

(** [response.reasoning = r] *)
Definition set_reasoning (response : t) (r : js_value) : t :=
  {| content := content response;
     agentType := agentType response;
     toolCalls := toolCalls response;
     reasoning := r |}.
End AgentResponse.

(* ===================================================================== *)
(** * The keyword router ([agents/router.ts]) *)
(* ===================================================================== *)

Module RouterAgentImpl.
Import RouteDecision.

Definition orderKeywords : list string := [
  "order"; "tracking"; "shipped"; "delivery"; "cancel"; "modify";
  "order number"; "ord-"; "where is my"; "when will"; "arrival";
  "shipping"; "delivery status"; "track my"
].

Definition billingKeywords : list string := [
  "payment"; "refund"; "invoice"; "charge"; "bill"; "money";
  "subscription"; "credit card"; "pay"; "transaction"; "price";
  "invoice"; "receipt"; "cost"; "fee"
].

Definition supportKeywords : list string := [
  "help"; "question"; "problem"; "issue"; "faq"; "how to";
  "support"; "account"; "login"; "password"; "reset";
  "return"; "exchange"; "warranty"; "product"
].

(** [new RegExp(`\\b${keyword}\\b`, 'i')]. The keyword is spliced into
    the pattern source; for a [plain] keyword (all the configured ones
    are) the pattern is the keyword itself between two word-boundary
    assertions. [RouterAgentObject.wordPattern] compiles the source for
    any keyword. *)
Definition wordPattern (keyword : string) : RegExp :=
  {| source := RSeq RWordB (RSeq (literal keyword) RWordB);
     ignoreCaseFlag := true |}.

(** The body of the [for] loop of [calculateScore], on the running
    [score]. *)
Definition score_step (message : string) (score : number)
           (keyword : string) : number :=
  if includes message keyword then
    let score := add score lit_0_2 in
    if test (wordPattern keyword) message then add score lit_0_1
    else score
  else score.

Definition calculateScore (message : string) (keywords : list string)
  : number :=
  let score := fold_left (score_step message) keywords zero in
  Math_min score lit_1.

Definition isRelatedToAgent (message : string) (agentType : js_value)
  : bool :=
  let messageLower := toLowerCase message in
  match as_AgentType agentType with
  | Some ORDER => gtb (calculateScore messageLower orderKeywords) lit_0_1
  | Some BILLING => gtb (calculateScore messageLower billingKeywords) lit_0_1
  | Some SUPPORT => gtb (calculateScore messageLower supportKeywords) lit_0_1
  | _ => false
  end.

(** An entry of the [scores] array. *)
Record scored : Type := { type : AgentType; score : number }.

(** [Array.prototype.sort(compare)]: a stable sort; [a] is placed
    before [b] exactly when [compare(a, b)] is negative. Elements are
    inserted left to right, each behind the entries it does not
    precede. *)
Section Sort.
Context {A : Type} (compare : A -> A -> number).

Fixpoint sort_insert (x : A) (sorted : list A) : list A :=
  match sorted with
  | [] => [x]
  | y :: rest =>
      if ltb (compare x y) zero then x :: y :: rest
      else y :: sort_insert x rest
  end.

Definition sort (l : list A) : list A :=
  fold_left (fun sorted x => sort_insert x sorted) l [].
End Sort.

(** The guard of the early return: [context?.agentType &&
    context.agentType !== AgentType.ROUTER], then
    [this.isRelatedToAgent(message, context.agentType)]. When it holds
    the result is the agent type the decision continues with. *)
Definition continuity (message : string)
           (context : option ConversationContext.t) : option js_value :=
  match context with
  | Some ctx =>
      if (truthy (ConversationContext.agentType ctx)
          && negb (match as_AgentType (ConversationContext.agentType ctx) with
                   | Some ROUTER => true
                   | _ => false
                   end)
          && isRelatedToAgent message (ConversationContext.agentType ctx))%bool
      then Some (ConversationContext.agentType ctx)
      else None
  | None => None
  end.

Definition route (message : string) (context : option ConversationContext.t)
  : RouteDecision.t :=
  let messageLower := toLowerCase message in
  match continuity message context with
  | Some context_agentType =>
      {| agentType := context_agentType;
         confidence := JNumber lit_0_9;
         reasoning :=
           JString "Continuing with same agent based on conversation context" |}
  | None =>
      let orderScore := calculateScore messageLower orderKeywords in
      let billingScore := calculateScore messageLower billingKeywords in
      let supportScore := calculateScore messageLower supportKeywords in
      let scores := [
        {| type := ORDER; score := orderScore |};
        {| type := BILLING; score := billingScore |};
        {| type := SUPPORT; score := supportScore |}
      ] in
      let scores := sort (fun a b => sub (score b) (score a)) scores in
      match scores with
      | best :: _ =>
          if ltb (score best) lit_0_2 then
            {| agentType := enum SUPPORT;
               confidence := JNumber lit_0_5;
               reasoning :=
                 JString "Low confidence - using support agent as fallback" |}
          else
            {| agentType := enum (type best);
               confidence := JNumber (Math_min (score best) lit_0_95);
               reasoning :=
                 JString ("Matched " ++ AgentType_name (type best)
                          ++ " keywords in message") |}
      | [] => (* [scores[0]] of an empty array; the array has three entries *)
          {| agentType := JUndefined; confidence := JUndefined;
             reasoning := JUndefined |}
      end
  end.

End RouterAgentImpl.

(* ===================================================================== *)
(** * Patterns compiled from their source ([new RegExp(source, flags)]) *)
(* ===================================================================== *)

(** How an evaluation ends: with a value, or with a [SyntaxError]
    thrown. A pattern source is read as far as the syntax below goes;
    [Unmodelled] stands for a source with anything else in it (groups,
    classes, braces, [$], lazy quantifiers, other escapes), of which
    nothing is said. *)
Inductive Completion (A : Type) : Type :=
| Normal (value : A)
| Throws
| Unmodelled.
Arguments Normal {A} value.
Arguments Throws {A}.
Arguments Unmodelled {A}.

Module RegExpSource.

(** The pieces of a pattern source: an atom, an assertion, the
    quantifiers [*], [+] and [?], the bar of a disjunction, and one for
    every piece that is not read. *)
Inductive token : Type :=
| TkAtom (a : atom)
| TkAssert (r : regex)
| TkStar
| TkPlus
| TkOpt
| TkBar
| TkOther.

(** The code unit behind a backslash: [\b], [\d], and a syntax character
    or a slash, which stands for itself. *)
Definition escape (e : ascii) : token :=
  if Ascii.eqb e "b" then TkAssert RWordB
  else if Ascii.eqb e "d" then TkAtom ADigit
  else if is_syntax_char e then TkAtom (AChar e)
  else TkOther.

(** A code unit on its own. Every code unit that is no syntax character
    is a pattern character. *)
Definition token_of (c : ascii) : token :=
  if Ascii.eqb c "*" then TkStar
  else if Ascii.eqb c "+" then TkPlus
  else if Ascii.eqb c "?" then TkOpt
  else if Ascii.eqb c "|" then TkBar
  else if Ascii.eqb c "." then TkAtom ADot
  else if Ascii.eqb c "^" then TkAssert RBegin
  else if Ascii.eqb c "/" then TkAtom (AChar c)
  else if is_syntax_char c then TkOther
  else TkAtom (AChar c).

Fixpoint tokens (s : string) : list token :=
  match s with
  | EmptyString => []
  | String c s' =>
      if Ascii.eqb c "\" then
        match s' with
        | EmptyString => [TkOther]
        | String e s'' => escape e :: tokens s''
        end
      else token_of c :: tokens s'
  end.

(** A [?] behind a quantifier makes it lazy. *)
Definition lazy (ts : list token) : bool :=
  match ts with TkOpt :: _ => true | _ => false end.

(** [r1|r2] when there is a second alternative. *)
Definition join (r : regex) (others : option regex) : regex :=
  match others with Some r' => RAlt r r' | None => r end.

(** A term in front of what follows it in its alternative. *)
Definition before (r : regex) (rest : Completion (regex * option regex))
  : Completion (regex * option regex) :=
  match rest with
  | Normal (alternative, others) => Normal (RSeq r alternative, others)
  | Throws => Throws
  | Unmodelled => Unmodelled
  end.

(** A disjunction, read left to right: the rest of the current
    alternative, and the alternatives after it. A quantifier with no
    atom to repeat (at the start, behind a bar, an assertion or another
    quantifier) is a syntax error. *)
Fixpoint disjunction (ts : list token) : Completion (regex * option regex) :=
  match ts with
  | [] => Normal (REmpty, None)
  | TkOther :: _ => Unmodelled
  | TkStar :: _ | TkPlus :: _ | TkOpt :: _ => Throws
  | TkBar :: rest =>
      match disjunction rest with
      | Normal (alternative, others) =>
          Normal (REmpty, Some (join alternative others))
      | Throws => Throws
      | Unmodelled => Unmodelled
      end
  | TkAssert r :: rest => before r (disjunction rest)
  | TkAtom a :: rest =>
      match rest with
      | TkStar :: rest' =>
          if lazy rest' then Unmodelled
          else before (RStar a) (disjunction rest')
      | TkPlus :: rest' =>
          if lazy rest' then Unmodelled
          else before (RSeq (RAtom a) (RStar a)) (disjunction rest')
      | TkOpt :: rest' =>
          if lazy rest' then Unmodelled
          else before (opt (RAtom a)) (disjunction rest')
      | _ => before (RAtom a) (disjunction rest)
      end
  end.

(** [new RegExp(source, flags)], for no flags or the flag [i]. *)
Definition RegExp_new (source flags : string) : Completion RegExp :=
  if (String.eqb flags "i" || String.eqb flags EmptyString)%bool then
    match disjunction (tokens source) with
    | Normal (alternative, others) =>
        Normal {| Regex.source := join alternative others;
                  ignoreCaseFlag := String.eqb flags "i" |}
    | Throws => Throws
    | Unmodelled => Unmodelled
    end
  else Unmodelled.

End RegExpSource.

(* ===================================================================== *)
(** * The router object: its fields and its methods on any fields *)
(* ===================================================================== *)

(** [RouterAgentImpl] has three fields, which its methods read through
    [this]. The definitions of the module [RouterAgentImpl] above are
    the methods of the object [new RouterAgentImpl()], whose keywords
    hold no pattern syntax; here the methods are given for any value of
    the fields, with the pattern of a keyword compiled from the source
    the keyword is spliced into. *)
Module RouterAgentObject.
Import RouteDecision.

Record t : Type := {
  orderKeywords : list string;
  billingKeywords : list string;
  supportKeywords : list string
}.

(** [new RouterAgentImpl()]: the field initialisers. *)
Definition new : t :=
  {| orderKeywords := RouterAgentImpl.orderKeywords;
     billingKeywords := RouterAgentImpl.billingKeywords;
     supportKeywords := RouterAgentImpl.supportKeywords |}.

(** [export const routerAgent = new RouterAgentImpl()] *)
Definition routerAgent : t := new.

(** [new RegExp(`\\b${keyword}\\b`, 'i')] *)
Definition wordPattern (keyword : string) : Completion RegExp :=
  RegExpSource.RegExp_new ("\b" ++ keyword ++ "\b") "i".

(** The [for] loop of [calculateScore], from the running [score] on. *)
Fixpoint score_loop (message : string) (keywords : list string)
         (score : number) : Completion number :=
  match keywords with
  | [] => Normal score
  | keyword :: keywords' =>
      if includes message keyword then
        let score := add score lit_0_2 in
        (* Bonus for exact word match *)
        match wordPattern keyword with
        | Normal wordPattern =>
            score_loop message keywords'
              (if test wordPattern message then add score lit_0_1
               else score)
        | Throws => Throws
        | Unmodelled => Unmodelled
        end
      else score_loop message keywords' score
  end.

Definition calculateScore (message : string) (keywords : list string)
  : Completion number :=
  match score_loop message keywords zero with
  | Normal score => Normal (Math_min score lit_1)
  | Throws => Throws
  | Unmodelled => Unmodelled
  end.

(** A method: from the object as it is to how the evaluation ends and
    the object as it is left. [route] is [async]: it may also await
    calls to the outside, and a [SyntaxError] thrown in it rejects the
    promise it returns. *)
Definition Method (A : Type) : Type := t -> Completion A * t.
Definition AsyncMethod (A : Type) : Type := t -> Promise (Completion A * t).

(** [this.field] *)
Definition this_ {A : Type} (field : t -> A) : Method A :=
  fun this => (Normal (field this), this).

(** A value, and the result of a call that leaves the object alone. *)
Definition ret {A : Type} (a : A) : Method A :=
  fun this => (Normal a, this).

Definition then_ {A B : Type} (m : Method A) (f : A -> Method B)
  : Method B :=
  fun this =>
    match m this with
    | (Normal a, this') => f a this'
    | (Throws, this') => (Throws, this')
    | (Unmodelled, this') => (Unmodelled, this')
    end.

Definition call {A : Type} (c : Completion A) : Method A :=
  fun this => (c, this).

(** A synchronous step of an [async] method, and the step after it. *)
Definition step {A B : Type} (m : Method A) (f : A -> AsyncMethod B)
  : AsyncMethod B :=
  fun this =>
    match m this with
    | (Normal a, this') => f a this'
    | (Throws, this') => Resolve (Throws, this')
    | (Unmodelled, this') => Resolve (Unmodelled, this')
    end.

Definition resolve {A : Type} (a : A) : AsyncMethod A :=
  fun this => Resolve (Normal a, this).

Definition isRelatedToAgent (message : string) (agentType : js_value)
  : Method bool :=
  let messageLower := toLowerCase message in
  match as_AgentType agentType with
  | Some ORDER =>
      then_ (this_ orderKeywords) (fun orderKeywords =>
      then_ (call (calculateScore messageLower orderKeywords)) (fun score =>
      ret (gtb score lit_0_1)))
  | Some BILLING =>
      then_ (this_ billingKeywords) (fun billingKeywords =>
      then_ (call (calculateScore messageLower billingKeywords)) (fun score =>
      ret (gtb score lit_0_1)))
  | Some SUPPORT =>
      then_ (this_ supportKeywords) (fun supportKeywords =>
      then_ (call (calculateScore messageLower supportKeywords)) (fun score =>
      ret (gtb score lit_0_1)))
  | _ => ret false
  end.

Definition route (message : string) (context : option ConversationContext.t)
  : AsyncMethod RouteDecision.t :=
  let messageLower := toLowerCase message in
  let classify : AsyncMethod RouteDecision.t :=
    (* Calculate scores for each agent type *)
    step (this_ orderKeywords) (fun orderKeywords =>
    step (call (calculateScore messageLower orderKeywords))
      (fun orderScore =>
    step (this_ billingKeywords) (fun billingKeywords =>
    step (call (calculateScore messageLower billingKeywords))
      (fun billingScore =>
    step (this_ supportKeywords) (fun supportKeywords =>
    step (call (calculateScore messageLower supportKeywords))
      (fun supportScore =>
    (* Determine the best match *)
    let scores := [
      {| RouterAgentImpl.type := ORDER;
         RouterAgentImpl.score := orderScore |};
      {| RouterAgentImpl.type := BILLING;
         RouterAgentImpl.score := billingScore |};
      {| RouterAgentImpl.type := SUPPORT;
         RouterAgentImpl.score := supportScore |}
    ] in
    let scores :=
      RouterAgentImpl.sort
        (fun a b => sub (RouterAgentImpl.score b) (RouterAgentImpl.score a))
        scores in
    match scores with
    | best :: _ =>
        (* If the best score is very low, use support as fallback *)
        if ltb (RouterAgentImpl.score best) lit_0_2 then
          resolve
            {| agentType := enum SUPPORT;
               confidence := JNumber lit_0_5;
               reasoning :=
                 JString "Low confidence - using support agent as fallback" |}
        else
          resolve
            {| agentType := enum (RouterAgentImpl.type best);
               confidence :=
                 JNumber (Math_min (RouterAgentImpl.score best) lit_0_95);
               reasoning :=
                 JString ("Matched "
                          ++ AgentType_name (RouterAgentImpl.type best)
                          ++ " keywords in message") |}
    | [] =>
        resolve {| agentType := JUndefined; confidence := JUndefined;
                   reasoning := JUndefined |}
    end)))))) in
  (* Check if there's an existing context with a specific agent type *)
  match context with
  | Some ctx =>
      if (truthy (ConversationContext.agentType ctx)
          && negb (match as_AgentType (ConversationContext.agentType ctx) with
                   | Some ROUTER => true
                   | _ => false
                   end))%bool
      then
        (* Continue with the same agent type if it makes sense *)
        step (isRelatedToAgent message (ConversationContext.agentType ctx))
          (fun related =>
             if related then
               resolve
                 {| agentType := ConversationContext.agentType ctx;
                    confidence := JNumber lit_0_9;
                    reasoning :=
                      JString
                        "Continuing with same agent based on conversation context" |}
             else classify)
      else classify
  | None => classify
  end.

End RouterAgentObject.

(* ===================================================================== *)
(** * The order responder ([agents/order-agent.ts]) *)
(* ===================================================================== *)

Module OrderAgentImpl.
Import AgentResponse.

Definition re (r : regex) : RegExp :=
  {| source := r; ignoreCaseFlag := true |}.

(** [/ORD-\d{3}/i] *)
Definition orderNumberPattern : RegExp :=
  re (seq [literal "ORD-"; RAtom ADigit; RAtom ADigit; RAtom ADigit]).

(** [/track|tracking|where.*is.*my|delivery status|shipped/i] *)
Definition isTrackingRequest (message : string) : bool :=
  test (re (alt [
    literal "track"; literal "tracking";
    seq [literal "where"; any_star; literal "is"; any_star; literal "my"];
    literal "delivery status"; literal "shipped"])) message.

(** [/status|order.*detail|what.*order|check.*order/i] *)
Definition isStatusRequest (message : string) : bool :=
  test (re (alt [
    literal "status";
    seq [literal "order"; any_star; literal "detail"];
    seq [literal "what"; any_star; literal "order"];
    seq [literal "check"; any_star; literal "order"]])) message.

(** [/cancel|stop.*order|don't.*want|changed.*mind/i] *)
Definition isCancellationRequest (message : string) : bool :=
  test (re (alt [
    literal "cancel";
    seq [literal "stop"; any_star; literal "order"];
    seq [literal "don't"; any_star; literal "want"];
    seq [literal "changed"; any_star; literal "mind"]])) message.

(** [/change.*address|modify.*order|update.*order|add.*item|remove.*item/i] *)
Definition isModificationRequest (message : string) : bool :=
  test (re (alt [
    seq [literal "change"; any_star; literal "address"];
    seq [literal "modify"; any_star; literal "order"];
    seq [literal "update"; any_star; literal "order"];
    seq [literal "add"; any_star; literal "item"];
    seq [literal "remove"; any_star; literal "item"]])) message.

Definition extractCancellationReason (message : string) : string :=
  let reasons := [
    (re (seq [literal "changed"; any_star; literal "mind"]),
     "Customer changed their mind");
    (re (seq [literal "found"; any_star; literal "better"; any_star;
              literal "price"]),
     "Found better price elsewhere");
    (re (seq [literal "no"; any_star; literal "longer"; any_star;
              literal "need"]),
     "No longer need the item");
    (re (seq [literal "wrong"; any_star; literal "item"]),
     "Ordered wrong item")
  ] in
  match List.find (fun '(pattern, _) => test pattern message) reasons with
  | Some (_, reason) => reason
  | None => "Customer requested cancellation"
  end.

Definition parseModifications (message : string) : OrderModification.t :=
  let modifications := OrderModification.empty in
  if test (re (alt [
       seq [literal "change"; any_star; literal "address"];
       seq [literal "update"; any_star; literal "address"];
       seq [literal "new"; any_star; literal "address"]])) message
  then
    {| OrderModification.shippingAddress :=
         Some {[ "note" :=
           "Address change requested - user needs to provide new address" ]};
       OrderModification.addItems :=
         OrderModification.addItems modifications;
       OrderModification.removeItems :=
         OrderModification.removeItems modifications |}
  else modifications.

Definition reply (c : Content) (r : string) : AgentResponse.t :=
  {| content := c; agentType := ORDER; toolCalls := None;
     reasoning := JString r |}.

(** The string behind a [string | undefined] the source has narrowed
    to a string. *)
Definition narrowed (o : option string) : string := default EmptyString o.

(** [a || b] on texts. *)
Definition or_else (a : option string) (b : string) : string :=
  if truthy_string a then narrowed a else b.

Definition handle (message : string) (context : ConversationContext.t)
  : Promise AgentResponse.t :=
  let messageLower := toLowerCase message in
  let contextData := default ∅ (ConversationContext.metadata context) in
  (* Check for order number in message *)
  let orderNumberMatch := String_match message orderNumberPattern in
  let orderNumber :=
    match orderNumberMatch with
    | Some m => Some m
    | None => contextData !! "lastOrderNumber"
    end in
  (* Determine what action to take based on message content *)
  if isTrackingRequest messageLower then
    if negb (truthy_string orderNumber) then
      Resolve (reply (Text
        "I'd be happy to help you track your order. Could you please provide your order number (e.g., ORD-001)?")
        "Requesting order number for tracking")
    else
      let orderNumber := narrowed orderNumber in
      let* tracking := await invoke (trackOrder orderNumber) in
      if (TrackingResult.success tracking
          && truthy_string (TrackingResult.trackingNumber tracking))%bool
      then Resolve (reply (TrackingInfo orderNumber tracking)
                      "Provided tracking information")
      else Resolve (reply
             (Text (or_else (TrackingResult.error tracking)
                      "Unable to retrieve tracking information."))
             "Tracking information not available")
  else if isStatusRequest messageLower then
    if negb (truthy_string orderNumber) then
      Resolve (reply (Text
        "I can check your order status. Please provide your order number (e.g., ORD-001).")
        "Requesting order number for status check")
    else
      let orderNumber := narrowed orderNumber in
      let* orderDetails := await invoke (getOrderDetails orderNumber) in
      match OrderDetailsResult.success orderDetails,
            OrderDetailsResult.data orderDetails with
      | true, Some data =>
          Resolve (reply (OrderDetails orderNumber data)
                     "Provided order details")
      | _, _ =>
          Resolve (reply
            (Text (or_else (OrderDetailsResult.error orderDetails)
                     "Unable to retrieve order details."))
            "Order details not found")
      end
  else if isCancellationRequest messageLower then
    if negb (truthy_string orderNumber) then
      Resolve (reply (Text
        "I can help you cancel your order. Please provide your order number.")
        "Requesting order number for cancellation")
    else
      let orderNumber := narrowed orderNumber in
      let reason := extractCancellationReason message in
      let* cancellation := await invoke (cancelOrder orderNumber reason) in
      Resolve (reply (Text (CancellationResult.message cancellation))
        ("Order " ++ (if CancellationResult.success cancellation
                      then "cancelled" else "cancellation failed")))
  else if isModificationRequest messageLower then
    if negb (truthy_string orderNumber) then
      Resolve (reply (Text
        "I can help you modify your order. Please provide your order number first.")
        "Requesting order number for modification")
    else
      let orderNumber := narrowed orderNumber in
      let modifications := parseModifications message in
      if Nat.eqb (OrderModification.keys_length modifications) 0 then
        Resolve (reply (Text
          "What would you like to modify about your order? You can change the shipping address or add/remove items.")
          "Requesting modification details")
      else
        let* result := await invoke (modifyOrder orderNumber modifications) in
        Resolve (reply (Text (ModificationResult.message result))
          ("Modification " ++ (if ModificationResult.success result
                               then "completed" else "failed")))
  else
    (* Default response with user's orders *)
    let* orders :=
      await invoke (getUserOrders (ConversationContext.userId context)) in
    if Nat.eqb (List.length orders) 0 then
      Resolve (reply (Text
        "I don't see any orders associated with your account. Have you placed an order recently?")
        "No orders found for user")
    else
      Resolve (reply (OrderList orders) "Listed user orders").

End OrderAgentImpl.

(* ===================================================================== *)
(** * The billing responder ([agents/billing-agent.ts]) *)
(* ===================================================================== *)

Module BillingAgentImpl.
Import AgentResponse.

Definition re (r : regex) : RegExp :=
  {| source := r; ignoreCaseFlag := true |}.

(** [/REF-\d+/i] and [/INV-\d+/i] *)
Definition refundIdPattern : RegExp :=
  re (seq [literal "REF-"; RAtom ADigit; RStar ADigit]).

Definition invoiceIdPattern : RegExp :=
  re (seq [literal "INV-"; RAtom ADigit; RStar ADigit]).

(** [/refund|money back|get.*money|when.*refund|refund.*status/i] *)
Definition isRefundRequest (message : string) : bool :=
  test (re (alt [
    literal "refund"; literal "money back";
    seq [literal "get"; any_star; literal "money"];
    seq [literal "when"; any_star; literal "refund"];
    seq [literal "refund"; any_star; literal "status"]])) message.

(** [/invoice|bill.*me|receipt|statement|download.*invoice/i] *)
Definition isInvoiceRequest (message : string) : bool :=
  test (re (alt [
    literal "invoice";
    seq [literal "bill"; any_star; literal "me"];
    literal "receipt"; literal "statement";
    seq [literal "download"; any_star; literal "invoice"]])) message.

(** [/payment.*fail|card.*declined|charge.*issue|won't.*charge|payment.*problem/i] *)
Definition isPaymentIssue (message : string) : bool :=
  test (re (alt [
    seq [literal "payment"; any_star; literal "fail"];
    seq [literal "card"; any_star; literal "declined"];
    seq [literal "charge"; any_star; literal "issue"];
    seq [literal "won't"; any_star; literal "charge"];
    seq [literal "payment"; any_star; literal "problem"]])) message.

(** [/subscription|monthly|annual.*plan|cancel.*subscription|change.*plan|upgrade.*plan/i] *)
Definition isSubscriptionQuery (message : string) : bool :=
  test (re (alt [
    literal "subscription"; literal "monthly";
    seq [literal "annual"; any_star; literal "plan"];
    seq [literal "cancel"; any_star; literal "subscription"];
    seq [literal "change"; any_star; literal "plan"];
    seq [literal "upgrade"; any_star; literal "plan"]])) message.

Definition reply (c : Content) (r : string) : AgentResponse.t :=
  {| content := c; agentType := BILLING; toolCalls := None;
     reasoning := JString r |}.

(** [payments.slice(0, n)] *)
Definition slice0 {A} (n : nat) (l : list A) : list A := firstn n l.

Definition handle (message : string) (context : ConversationContext.t)
  : Promise AgentResponse.t :=
  let messageLower := toLowerCase message in
  (* Check for refund-related queries *)
  if isRefundRequest messageLower then
    let refundIdMatch := String_match message refundIdPattern in
    let refundId := refundIdMatch in
    (* Get payment history to show refund info *)
    let listRefunds : Promise AgentResponse.t :=
      let* payments :=
        await invoke (getPaymentHistory (ConversationContext.userId context)) in
      let refundedPayments :=
        List.filter (fun p => PaymentStatus.eqb (PaymentSummary.status p)
                                PaymentStatus.REFUNDED) payments in
      if Nat.eqb (List.length refundedPayments) 0 then
        Resolve (reply (Text
          "I don't see any refunds associated with your account. Would you like to request a refund for an order?")
          "No refunds found")
      else
        Resolve (reply (RefundedPayments refundedPayments)
                   "Listed refunded payments") in
    if truthy_string refundId then
      let refundId := default EmptyString refundId in
      let* refundStatus := await invoke (checkRefundStatus refundId) in
      match RefundResult.success refundStatus,
            RefundResult.data refundStatus with
      | true, Some data =>
          Resolve (reply (RefundInfo refundId data) "Provided refund status")
      | _, _ => listRefunds
      end
    else listRefunds
  (* Check for invoice requests *)
  else if isInvoiceRequest messageLower then
    let invoiceIdMatch := String_match message invoiceIdPattern in
    let invoiceId := invoiceIdMatch in
    (* Show recent invoices *)
    let listPayments : Promise AgentResponse.t :=
      let* payments :=
        await invoke (getPaymentHistory (ConversationContext.userId context)) in
      Resolve (reply (RecentPayments (slice0 5 payments))
                 "Listed payment history") in
    if truthy_string invoiceId then
      let invoiceId := default EmptyString invoiceId in
      (* Search by invoice ID *)
      let* invoice := await invoke (getInvoiceDetails invoiceId) in
      match InvoiceResult.success invoice, InvoiceResult.data invoice with
      | true, Some data =>
          Resolve (reply (InvoiceInfo data) "Provided invoice details")
      | _, _ => listPayments
      end
    else listPayments
  (* Check for payment issues *)
  else if isPaymentIssue messageLower then
    Resolve (reply PaymentIssueHelp "Provided payment issue solutions")
  (* Check for subscription queries *)
  else if isSubscriptionQuery messageLower then
    let* subscription :=
      await invoke (getSubscriptionInfo (ConversationContext.userId context)) in
    if SubscriptionResult.success subscription then
      if default false (SubscriptionResult.hasSubscription subscription) then
        Resolve (reply (SubscriptionInfo subscription)
                   "Provided subscription info")
      else
        Resolve (reply (Text
          "I don't see an active subscription on your account. Would you like to learn about our subscription plans?")
          "No subscription found")
    else
      Resolve (reply (Text
        "I couldn't retrieve your subscription information. Please try again later.")
        "Failed to retrieve subscription")
  else
    (* Default: Show payment history *)
    let* payments :=
      await invoke (getPaymentHistory (ConversationContext.userId context)) in
    if Nat.eqb (List.length payments) 0 then
      Resolve (reply (Text
        "I don't see any payment history for your account. Have you made any purchases?")
        "No payment history found")
    else
      Resolve (reply (PaymentHistory (slice0 10 payments))
                 "Listed payment history").

End BillingAgentImpl.

(* ===================================================================== *)
(** * The support responder ([agents/support-agent.ts]) *)
(* ===================================================================== *)

Module SupportAgentImpl.
Import AgentResponse.

Definition re (r : regex) : RegExp :=
  {| source := r; ignoreCaseFlag := true |}.

(** [/^hi|^hello|^hey|^good morning|^good afternoon|^good evening|^what's up/i] *)
Definition isGreeting (message : string) : bool :=
  test (re (alt [
    seq [RBegin; literal "hi"]; seq [RBegin; literal "hello"];
    seq [RBegin; literal "hey"]; seq [RBegin; literal "good morning"];
    seq [RBegin; literal "good afternoon"];
    seq [RBegin; literal "good evening"];
    seq [RBegin; literal "what's up"]])) message.

(** [/return|exchange|send.*back|get.*money.*back|not.*satisfied/i] *)
Definition isReturnRequest (message : string) : bool :=
  test (re (alt [
    literal "return"; literal "exchange";
    seq [literal "send"; any_star; literal "back"];
    seq [literal "get"; any_star; literal "money"; any_star; literal "back"];
    seq [literal "not"; any_star; literal "satisfied"]])) message.

(** [/password|login|can't.*access|locked.*out|account.*issue|security|2fa/i] *)
Definition isAccountIssue (message : string) : bool :=
  test (re (alt [
    literal "password"; literal "login";
    seq [literal "can't"; any_star; literal "access"];
    seq [literal "locked"; any_star; literal "out"];
    seq [literal "account"; any_star; literal "issue"];
    literal "security"; literal "2fa"])) message.

(** [/talk.*human|speak.*agent|call.*you|email.*support|contact|phone.*number/i] *)
Definition isContactRequest (message : string) : bool :=
  test (re (alt [
    seq [literal "talk"; any_star; literal "human"];
    seq [literal "speak"; any_star; literal "agent"];
    seq [literal "call"; any_star; literal "you"];
    seq [literal "email"; any_star; literal "support"];
    literal "contact";
    seq [literal "phone"; any_star; literal "number"]])) message.

(** [/product|specification|feature|size|color|dimension|weight|compatibility/i] *)
Definition isProductQuestion (message : string) : bool :=
  test (re (alt [
    literal "product"; literal "specification"; literal "feature";
    literal "size"; literal "color"; literal "dimension"; literal "weight";
    literal "compatibility"])) message.

Definition reply (c : Content) (r : string) : AgentResponse.t :=
  {| content := c; agentType := SUPPORT; toolCalls := None;
     reasoning := JString r |}.

Definition handle (message : string) (context : ConversationContext.t)
  : Promise AgentResponse.t :=
  let messageLower := toLowerCase message in
  (* Search for FAQs *)
  let* faqs := await invoke (searchFAQs message) in
  (* Check for greeting *)
  if isGreeting messageLower then
    Resolve (reply Greeting "Provided greeting and help options")
  else
  (* Check for FAQ matches *)
  match faqs with
  | bestMatch :: _ =>
      Resolve (reply (FAQAnswer bestMatch)
                 ("Matched FAQ: " ++ FAQResult.category bestMatch))
  | [] =>
      (* Get conversation history *)
      let* history :=
        await invoke (queryConversationHistory
                        (ConversationContext.userId context) (of_pos 5)) in
      (* Handle common support queries *)
      if isReturnRequest messageLower then
        Resolve (reply ReturnPolicy "Provided return policy information")
      else if isAccountIssue messageLower then
        Resolve (reply AccountAssistance
                   "Provided account assistance options")
      else if isContactRequest messageLower then
        Resolve (reply ContactUs "Provided contact information")
      else if isProductQuestion messageLower then
        Resolve (reply ProductQuestions "Provided product question guidance")
      else
        let contextInfo :=
          match ConversationHistoryResult.success history,
                ConversationHistoryResult.conversations history with
          | true, Some conversations =>
              if Nat.ltb 0 (List.length conversations)
              then Some (List.length conversations)
              else None
          | _, _ => None
          end in
        Resolve (reply (GeneralAssistance message contextInfo)
                   "Provided general assistance options")
  end.

End SupportAgentImpl.

(* ===================================================================== *)
(** * The LLM router ([agents/router-llm.ts]) *)
(* ===================================================================== *)

Module LLMRouterAgentImpl.
Import RouteDecision.

Definition lines (ls : list string) : string := String.concat LF ls.

Definition quoted (s : string) : string := DQ ++ s ++ DQ.

Definition getSystemPrompt : string := lines [
  "You are an intelligent routing agent for a customer support system. Your job is to classify customer messages into one of three categories:";
  EmptyString;
  "1. **ORDER** (AgentType: ORDER) - Messages about:";
  "   - Order status, tracking, or delivery information";
  "   - Order cancellations or modifications";
  "   - Order placement or confirmation";
  "   - Shipping addresses or delivery dates";
  "   - " ++ quoted "Where is my order?" ++ ", "
    ++ quoted "Can I cancel my order?" ++ ", " ++ quoted "Track my package";
  EmptyString;
  "2. **BILLING** (AgentType: BILLING) - Messages about:";
  "   - Payments, charges, or billing issues";
  "   - Refunds or credit";
  "   - Invoices or receipts";
  "   - Subscription management";
  "   - Price inquiries or payment methods";
  "   - " ++ quoted "I was charged twice" ++ ", "
    ++ quoted "Can I get a refund?" ++ ", " ++ quoted "What's the cost?";
  EmptyString;
  "3. **SUPPORT** (AgentType: SUPPORT) - Messages about:";
  "   - General help or questions";
  "   - Account issues (login, password reset)";
  "   - Product information or FAQs";
  "   - Returns or exchanges";
  "   - Warranty or technical support";
  "   - Any inquiry that doesn't fit ORDER or BILLING";
  "   - " ++ quoted "How do I...?" ++ ", " ++ quoted "I have a problem"
    ++ ", " ++ quoted "Can you help?";
  EmptyString;
  "Instructions:";
  "- Analyze the customer message carefully";
  "- Return the BEST matching agent type";
  "- Provide a confidence score between 0 and 1 (higher = more certain)";
  "- If multiple categories fit, choose the PRIMARY intent";
  "- Default to SUPPORT if uncertain"
].

Definition prompt_of (message : string) : string := lines [
  "User message: " ++ quoted message;
  EmptyString;
  "Respond with ONLY valid JSON (no markdown, no explanations):";
  "{" ++ quoted "agentType" ++ ": " ++ quoted "ORDER|BILLING|SUPPORT"
    ++ ", " ++ quoted "confidence" ++ ": 0.0-1.0, "
    ++ quoted "reasoning" ++ ": " ++ quoted "brief explanation" ++ "}"
].

(** The pattern of the code fences the reply is stripped of, with the
    [g] flag and without [i]: a fence opening with its language tag,
    or a closing fence, with the line feed next to it. *)
Definition fences : RegExp :=
  {| source := alt [
       seq [literal "```json"; opt (literal LF)];
       seq [opt (literal LF); literal "```"]];
     ignoreCaseFlag := false |}.

(** [value.key]: [None] when the access throws a [TypeError], on
    [null] and [undefined]. *)
Definition get (value : js_value) (key : string) : option js_value :=
  match value with
  | JUndefined | JNull => None
  | JObject fields => Some (default JUndefined (fields !! key))
  | _ => Some JUndefined
  end.

(** The decision of the [catch] block. *)
Definition fallback : RouteDecision.t :=
  {| agentType := enum SUPPORT;
     confidence := JNumber lit_0_5;
     reasoning := JString "LLM routing failed, using fallback" |}.

Section Builtins.
(** [JSON.parse]: [None] when it throws a [SyntaxError]. *)
Variable JSON_parse : string -> option js_value.

Definition route (message : string) : Promise RouteDecision.t :=
  (* try *)
  let systemPrompt := getSystemPrompt in
  let* generated := await invoke (generateText
    {| GenerateRequest.model := "gemini-2.0-flash";
       GenerateRequest.system := systemPrompt;
       GenerateRequest.prompt := prompt_of message;
       GenerateRequest.temperature := decimal 3 10 |}) in
  match generated with
  | Fulfilled text =>
      (* Parse the JSON response *)
      let cleanedText := String_replace (trim text) fences EmptyString in
      match JSON_parse cleanedText with
      | Some result =>
          match get result "agentType", get result "confidence",
                get result "reasoning" with
          | Some a, Some c, Some r =>
              Resolve {| agentType := a; confidence := c; reasoning := r |}
          | _, _, _ => (* catch *) Resolve fallback
          end
      | None => (* catch *) Resolve fallback
      end
  | Rejected error => (* catch *) Resolve fallback
  end.
End Builtins.

End LLMRouterAgentImpl.

(* ===================================================================== *)
(** * The dispatcher ([agents/coordinator.ts]) *)
(* ===================================================================== *)

Module AgentCoordinator.

Definition Router : Type :=
  string -> ConversationContext.t -> Promise RouteDecision.t.
Definition Responder : Type :=
  string -> ConversationContext.t -> Promise AgentResponse.t.

(** The exported [routerAgent] and [llmRouter], behind the [route] the
    dispatcher calls. *)
Definition routerAgent : Router :=
  fun message context =>
    Resolve (RouterAgentImpl.route message (Some context)).

Definition llmRouter (JSON_parse : string -> option js_value) : Router :=
  fun message _ => LLMRouterAgentImpl.route JSON_parse message.

(** The fields of the class. *)
Record t : Type := {
  router : Router;
  orderAgent : Responder;
  billingAgent : Responder;
  supportAgent : Responder;
  useLLMRouter : bool
}.

(** [constructor(useLLMRouter = true)] *)
Definition new (JSON_parse : string -> option js_value)
           (useLLMRouter : bool) : t :=
  {| useLLMRouter := useLLMRouter;
     router := if useLLMRouter then llmRouter JSON_parse else routerAgent;
     orderAgent := OrderAgentImpl.handle;
     billingAgent := BillingAgentImpl.handle;
     supportAgent := SupportAgentImpl.handle |}.

Definition processMessage (this : t) (message : string)
           (context : ConversationContext.t) : Promise AgentResponse.t :=
  (* Step 1: Route the message to the appropriate agent *)
  let* routingDecision := await router this message context in
  (* Update context with the routed agent type *)
  let updatedContext :=
    {| ConversationContext.conversationId :=
         ConversationContext.conversationId context;
       ConversationContext.userId := ConversationContext.userId context;
       ConversationContext.previousMessages :=
         ConversationContext.previousMessages context;
       ConversationContext.metadata := ConversationContext.metadata context;
       ConversationContext.agentType :=
         RouteDecision.agentType routingDecision |} in
  (* Step 2: Process with the appropriate sub-agent *)
  let* response := await
    match as_AgentType (RouteDecision.agentType routingDecision) with
    | Some ORDER => orderAgent this message updatedContext
    | Some BILLING => billingAgent this message updatedContext
    | Some SUPPORT => supportAgent this message updatedContext
    | _ => (* Fallback to support agent *)
        supportAgent this message updatedContext
    end in
  (* Add reasoning if available *)
  let response :=
    AgentResponse.set_reasoning response
      (RouteDecision.reasoning routingDecision) in
  Resolve response.

End AgentCoordinator.

(* ===================================================================== *)
(** * The agent directory ([agents/coordinator.ts]) *)
(* ===================================================================== *)

Module AgentCapabilities.
Record t : Type := {
  name : string;
  description : string;
  tools : list string
}.
End AgentCapabilities.

Module AgentInfo.
Record t : Type := {
  type : AgentType;
  name : string;
  description : string
}.
End AgentInfo.

Module AgentDirectory.

(** [getAgentCapabilities(agentType)]: a [switch] over the run-time
    value, with a [default] case. *)
Definition getAgentCapabilities (agentType : js_value) : AgentCapabilities.t :=
  match as_AgentType agentType with
  | Some ROUTER =>
      {| AgentCapabilities.name := "Router Agent";
         AgentCapabilities.description :=
           "Analyzes and routes queries to specialized agents";
         AgentCapabilities.tools := ["intentClassification"] |}
  | Some ORDER =>
      {| AgentCapabilities.name := "Order Agent";
         AgentCapabilities.description :=
           "Handles order status, tracking, modifications, and cancellations";
         AgentCapabilities.tools :=
           ["getOrderDetails"; "getUserOrders"; "trackOrder"; "cancelOrder";
            "modifyOrder"] |}
  | Some BILLING =>
      {| AgentCapabilities.name := "Billing Agent";
         AgentCapabilities.description :=
           "Handles payments, refunds, invoices, and subscriptions";
         AgentCapabilities.tools :=
           ["getInvoiceDetails"; "getPaymentHistory"; "checkRefundStatus";
            "getSubscriptionInfo"; "processRefund"] |}
  | Some SUPPORT =>
      {| AgentCapabilities.name := "Support Agent";
         AgentCapabilities.description :=
           "Handles general inquiries, FAQs, and troubleshooting";
         AgentCapabilities.tools :=
           ["queryConversationHistory"; "searchFAQs"; "getUserInfo";
            "getRecentInteractions"] |}
  | None =>
      {| AgentCapabilities.name := "Unknown";
         AgentCapabilities.description := "Unknown agent type";
         AgentCapabilities.tools := [] |}
  end.

Definition listAgents : list AgentInfo.t := [
  {| AgentInfo.type := ROUTER;
     AgentInfo.name := "Router Agent";
     AgentInfo.description :=
       "Analyzes incoming queries and delegates to appropriate sub-agents" |};
  {| AgentInfo.type := ORDER;
     AgentInfo.name := "Order Agent";
     AgentInfo.description :=
       "Handles order status, tracking, modifications, and cancellations" |};
  {| AgentInfo.type := BILLING;
     AgentInfo.name := "Billing Agent";
     AgentInfo.description :=
       "Handles payments, refunds, invoices, and subscriptions" |};
  {| AgentInfo.type := SUPPORT;
     AgentInfo.name := "Support Agent";
     AgentInfo.description :=
       "Handles general inquiries, FAQs, and troubleshooting" |}
].

End AgentDirectory.

(** The name of the function behind a call, as the tool interfaces and
    the [ai] package declare it. *)
Definition call_name (c : call) : string :=
  match c with
  | Called (getOrderDetails _) => "getOrderDetails"
  | Called (getUserOrders _) => "getUserOrders"
  | Called (trackOrder _) => "trackOrder"
  | Called (cancelOrder _ _) => "cancelOrder"
  | Called (modifyOrder _ _) => "modifyOrder"
  | Called (getInvoiceDetails _) => "getInvoiceDetails"
  | Called (getPaymentHistory _) => "getPaymentHistory"
  | Called (checkRefundStatus _) => "checkRefundStatus"
  | Called (getSubscriptionInfo _) => "getSubscriptionInfo"
  | Called (queryConversationHistory _ _) => "queryConversationHistory"
  | Called (searchFAQs _) => "searchFAQs"
  | Called (generateText _) => "generateText"
  end.

(* ===================================================================== *)
(** * The FAQ search ([agents/tools/support-tools.ts]) *)
(* ===================================================================== *)

Module FAQ.
Record t : Type := { category : string; question : string; answer : string }.
End FAQ.

Module supportTools.

(** FAQ data for the support agent. *)
Definition faqData : list FAQ.t := [
  {| FAQ.category := "General";
     FAQ.question := "How do I track my order?";
     FAQ.answer :=
       "You can track your order by logging into your account and visiting the "
       ++ DQ ++ "Orders" ++ DQ
       ++ " section. Each order will show its current status and tracking number if available." |};
  {| FAQ.category := "General";
     FAQ.question := "What is your return policy?";
     FAQ.answer :=
       "We offer a 30-day return policy for most items. Items must be in their original condition with tags attached. Some items like personalized products cannot be returned." |};
  {| FAQ.category := "General";
     FAQ.question := "How can I contact customer support?";
     FAQ.answer :=
       "You can reach our customer support team via email at support@example.com, through live chat on our website, or by calling 1-800-EXAMPLE between 9 AM and 6 PM EST." |};
  {| FAQ.category := "Orders";
     FAQ.question := "How do I cancel my order?";
     FAQ.answer :=
       "Orders can only be cancelled before they are shipped. Go to your order history, find the order you want to cancel, and click the "
       ++ DQ ++ "Cancel Order" ++ DQ
       ++ " button. If the order has already shipped, you'll need to initiate a return instead." |};
  {| FAQ.category := "Orders";
     FAQ.question := "Can I modify my order after placing it?";
     FAQ.answer :=
       "You can modify your order (like shipping address or item quantities) only before it begins processing. Once processing starts, modifications are not possible." |};
  {| FAQ.category := "Billing";
     FAQ.question := "What payment methods do you accept?";
     FAQ.answer :=
       "We accept major credit cards (Visa, MasterCard, American Express), PayPal, Apple Pay, and Google Pay. We also offer buy-now-pay-later options through Klarna and Afterpay." |};
  {| FAQ.category := "Billing";
     FAQ.question := "How do I get a refund?";
     FAQ.answer :=
       "Refunds are processed to the original payment method within 5-7 business days after we receive and inspect the returned item. You'll receive an email confirmation once the refund is processed." |};
  {| FAQ.category := "Billing";
     FAQ.question := "Why was my payment declined?";
     FAQ.answer :=
       "Payment declines can happen for various reasons: incorrect card information, insufficient funds, or your bank's fraud protection. Please check your card details or try a different payment method." |}
].

(** [s.split(/\s+/)]: the pieces between the runs of white space; a run
    at either end leaves an empty piece there, and the empty text is one
    empty piece. [piece] is the piece being read, [in_run] whether the
    last code unit was white space. *)
Fixpoint split_from (s : string) (piece : string) (in_run : bool)
  : list string :=
  match s with
  | EmptyString => [piece]
  | String c s' =>
      if is_white_space c then
        if in_run then split_from s' piece true
        else piece :: split_from s' EmptyString true
      else split_from s' (piece ++ String c EmptyString) false
  end.

Definition split_white_space (s : string) : list string :=
  split_from s EmptyString false.

(** The body of the loop of [calculateRelevance]. *)
Definition relevance_step (textContent : string) (score : number)
           (queryWord : string) : number :=
  if includes textContent queryWord then
    let score := add score lit_1 in
    if startsWith textContent queryWord then add score lit_0_5 else score
  else score.

(** Helper function to calculate relevance score. *)
Definition calculateRelevance (query text : string) : number :=
  let queryWords := split_white_space query in
  let textContent := text in
  fold_left (relevance_step textContent) queryWords zero.

(** The text a query is matched against. *)
Definition faq_text (faq : FAQ.t) : string :=
  toLowerCase (FAQ.question faq) ++ " " ++ toLowerCase (FAQ.answer faq).

Definition searchFAQs (query : string) : list FAQResult.t :=
  let queryLower := toLowerCase query in
  (* Simple keyword-based matching *)
  let results :=
    List.map (fun faq =>
      let relevance := calculateRelevance queryLower (faq_text faq) in
      {| FAQResult.question := FAQ.question faq;
         FAQResult.answer := FAQ.answer faq;
         FAQResult.category := FAQ.category faq;
         FAQResult.relevance := relevance |}) faqData in
  let results :=
    List.filter (fun result => gtb (FAQResult.relevance result) zero) results in
  let results :=
    RouterAgentImpl.sort
      (fun a b => sub (FAQResult.relevance b) (FAQResult.relevance a))
      results in
  firstn 5 results.

End supportTools.

(** An environment whose FAQ search is the one of [supportTools], the
    default of the support responder; the other calls go to [env]. *)
Definition with_faq_search (env : environment) : environment := fun X t =>
  match t in tool X return X with
  | searchFAQs query => supportTools.searchFAQs query
  | t => env _ t
  end.

(* ===================================================================== *)
(** * The order tools and the refund tool ([agents/tools/order-tools.ts]) *)
(* ===================================================================== *)

(** The rows the tools read, with the fields they read. A [Decimal]
    column is kept as the number [Number()] gives for it, a [Json]
    column of items as the array the seed stores; [payments] and
    [refunds] are the relations a query may include. *)
Module PaymentRow.
Record t : Type := {
  id : string;
  amount : number;
  status : PaymentStatus.t
}.
End PaymentRow.

Module RefundRow.
Record t : Type := {
  id : string;
  amount : number
}.
End RefundRow.

Module OrderRow.
Record t : Type := {
  id : string;
  orderNumber : string;
  userId : string;
  status : OrderStatus.t;
  total : number;
  currency : string;
  items : list OrderItem.t;
  shippingAddress : option (gmap string string);
  trackingNumber : option string;
  trackingUrl : option string;
  createdAt : Date;
  updatedAt : Date;
  payments : list PaymentRow.t;
  refunds : list RefundRow.t
}.
End OrderRow.

(** [where: { orderNumber }] and [where: { id }]. *)
Module OrderKey.
Inductive t : Type :=
| orderNumber (value : string)
| id (value : string).
End OrderKey.

(** [include: { payments, refunds }]. *)
Module Include.
Record t : Type := { payments : bool; refunds : bool }.
Definition none : t := {| payments := false; refunds := false |}.
End Include.

(** The [data] of [prisma.order.update]: the columns it sets. *)
Module OrderUpdate.
Record t : Type := {
  status : option OrderStatus.t;
  shippingAddress : option (gmap string string);
  items : option (list OrderItem.t)
}.

(** [{}] *)
Definition empty : t :=
  {| status := None; shippingAddress := None; items := None |}.

(** [Object.keys(data)], in the order the tools set them. *)
Definition keys (d : t) : list string :=
  ((if status d is Some _ then ["status"] else [])
   ++ (if shippingAddress d is Some _ then ["shippingAddress"] else [])
   ++ (if items d is Some _ then ["items"] else []))%list.
End OrderUpdate.

(** The [data] of [prisma.refund.create]. *)
Module RefundCreate.
Record t : Type := {
  orderId : string;
  amount : number;
  currency : string;
  status : RefundStatus.t;
  reason : string
}.
End RefundCreate.

Module RefundProcessingResult.
Record t : Type := {
  success : bool;
  refundId : option string;
  amount : option number;
  message : string
}.
End RefundProcessingResult.

(** The statements the tools send to the database, each with the type
    of what it resolves to. [order_findMany userId] is the query for the
    ten newest orders of a user. *)
Inductive prisma : Type -> Type :=
| order_findUnique (where_ : OrderKey.t) (include : Include.t)
  : prisma (option OrderRow.t)
| order_findMany (userId : string) : prisma (list OrderRow.t)
| order_update (where_ : OrderKey.t) (data : OrderUpdate.t)
  : prisma OrderRow.t
| refund_create (data : RefundCreate.t) : prisma RefundRow.t.

(** A statement sent, without its result. *)
Inductive statement : Type :=
| Sent {X : Type} (q : prisma X).

(** The statements that change the store. *)
Definition is_change (s : statement) : bool :=
  match s with
  | Sent (order_update _ _) | Sent (refund_create _) => true
  | _ => false
  end.

(** The body of a [try] block: it returns a value, or awaits a
    statement and goes on with what the statement resolved to; a
    statement that rejects ends it. *)
Inductive Query (A : Type) : Type :=
| Return (a : A)
| Send {X : Type} (q : prisma X) (k : X -> Query A).
Arguments Return {A} a.
Arguments Send {A X} q k.

(** The database: what each statement settles to. *)
Definition database : Type := forall X : Type, prisma X -> Settled X.

(** Running a [try] block against a database: the value it returns,
    [None] when a statement rejected, and the statements sent, in order. *)
Fixpoint execute {A : Type} (db : database) (p : Query A)
  : option A * list statement :=
  match p with
  | Return a => (Some a, [])
  | Send q k =>
      match db _ q with
      | Fulfilled x =>
          let '(a, sent) := execute db (k x) in (a, Sent q :: sent)
      | Rejected _ => (None, [Sent q])
      end
  end.

(** [try { ... } catch (error) { return fallback; }]. The [catch] blocks
    of the tools also write to the console, which is left out. *)
Definition try_catch {A : Type} (db : database) (p : Query A) (fallback : A)
  : A * list statement :=
  let '(a, sent) := execute db p in (default fallback a, sent).

(** The value of a member of the [OrderStatus] enum. *)
Definition OrderStatus_name (s : OrderStatus.t) : string :=
  match s with
  | OrderStatus.PENDING => "PENDING"
  | OrderStatus.CONFIRMED => "CONFIRMED"
  | OrderStatus.PROCESSING => "PROCESSING"
  | OrderStatus.SHIPPED => "SHIPPED"
  | OrderStatus.DELIVERED => "DELIVERED"
  | OrderStatus.CANCELLED => "CANCELLED"
  | OrderStatus.REFUNDED => "REFUNDED"
  end.

(** [a === b] on members of the [OrderStatus] enum. *)
Definition OrderStatus_eqb (a b : OrderStatus.t) : bool :=
  String.eqb (OrderStatus_name a) (OrderStatus_name b).

(** [a === b] on numbers. *)
Definition strict_equal (a b : number) : bool := SFeqb a b.

(** [array.length] as a number. *)
Definition length_number {A : Type} (l : list A) : number :=
  binary_normalize prec emax (Z.of_nat (List.length l)) 0 false.

Module orderTools.
Section Builtins.
(** The text of a number in a template literal. *)
Variable Number_toString : number -> string.

Definition getOrderDetails (db : database) (orderNumber : string)
  : OrderDetailsResult.t * list statement :=
  try_catch db
    (Send (order_findUnique (OrderKey.orderNumber orderNumber)
             {| Include.payments := true; Include.refunds := true |})
       (fun order =>
          match order with
          | None =>
              Return
                {| OrderDetailsResult.success := false;
                   OrderDetailsResult.data := None;
                   OrderDetailsResult.error :=
                     Some ("Order " ++ orderNumber ++ " not found") |}
          | Some order =>
              Return
                {| OrderDetailsResult.success := true;
                   OrderDetailsResult.data :=
                     Some {| OrderData.orderNumber := OrderRow.orderNumber order;
                             OrderData.status := OrderRow.status order;
                             OrderData.total := OrderRow.total order;
                             OrderData.currency := OrderRow.currency order;
                             OrderData.items := OrderRow.items order;
                             OrderData.shippingAddress :=
                               OrderRow.shippingAddress order;
                             OrderData.createdAt := OrderRow.createdAt order;
                             OrderData.updatedAt := OrderRow.updatedAt order |};
                   OrderDetailsResult.error := None |}
          end))
    {| OrderDetailsResult.success := false;
       OrderDetailsResult.data := None;
       OrderDetailsResult.error := Some "Failed to fetch order details" |}.

Definition getUserOrders (db : database) (userId : string)
  : list OrderSummary.t * list statement :=
  try_catch db
    (Send (order_findMany userId)
       (fun orders =>
          Return
            (List.map (fun order =>
               {| OrderSummary.orderNumber := OrderRow.orderNumber order;
                  OrderSummary.status := OrderRow.status order;
                  OrderSummary.total := OrderRow.total order;
                  OrderSummary.currency := OrderRow.currency order;
                  OrderSummary.itemCount :=
                    length_number (OrderRow.items order);
                  OrderSummary.createdAt := OrderRow.createdAt order |})
               orders)))
    [].

Definition trackOrder (db : database) (orderNumber : string)
  : TrackingResult.t * list statement :=
  let failure (error : string) : TrackingResult.t :=
    {| TrackingResult.success := false;
       TrackingResult.trackingNumber := None;
       TrackingResult.trackingUrl := None;
       TrackingResult.status := None;
       TrackingResult.estimatedDelivery := None;
       TrackingResult.error := Some error |} in
  try_catch db
    (Send (order_findUnique (OrderKey.orderNumber orderNumber) Include.none)
       (fun order =>
          match order with
          | None => Return (failure ("Order " ++ orderNumber ++ " not found"))
          | Some order =>
              if negb (truthy_string (OrderRow.trackingNumber order)) then
                Return (failure "Tracking information not available")
              else
                Return
                  {| TrackingResult.success := true;
                     TrackingResult.trackingNumber :=
                       OrderRow.trackingNumber order;
                     TrackingResult.trackingUrl :=
                       if truthy_string (OrderRow.trackingUrl order)
                       then OrderRow.trackingUrl order else None;
                     TrackingResult.status := Some (OrderRow.status order);
                     TrackingResult.estimatedDelivery := None;
                     TrackingResult.error := None |}
          end))
    (failure "Failed to track order").

Definition cancellableStatuses : list OrderStatus.t :=
  [OrderStatus.PENDING; OrderStatus.CONFIRMED].

(** [cancellableStatuses.includes(status)] *)
Definition cancellable (status : OrderStatus.t) : bool :=
  existsb (OrderStatus_eqb status) cancellableStatuses.

Definition cancelOrder (db : database) (orderNumber _reason : string)
  : CancellationResult.t * list statement :=
  try_catch db
    (Send (order_findUnique (OrderKey.orderNumber orderNumber)
             {| Include.payments := true; Include.refunds := false |})
       (fun order =>
          match order with
          | None =>
              Return
                {| CancellationResult.success := false;
                   CancellationResult.orderNumber := orderNumber;
                   CancellationResult.status := OrderStatus.PENDING;
                   CancellationResult.refundAmount := None;
                   CancellationResult.message :=
                     "Order " ++ orderNumber ++ " not found" |}
          | Some order =>
              if negb (cancellable (OrderRow.status order)) then
                Return
                  {| CancellationResult.success := false;
                     CancellationResult.orderNumber := orderNumber;
                     CancellationResult.status := OrderRow.status order;
                     CancellationResult.refundAmount := None;
                     CancellationResult.message :=
                       "Order cannot be cancelled. Current status: "
                       ++ OrderStatus_name (OrderRow.status order) |}
              else
                Send (order_update (OrderKey.orderNumber orderNumber)
                        {| OrderUpdate.status := Some OrderStatus.CANCELLED;
                           OrderUpdate.shippingAddress := None;
                           OrderUpdate.items := None |})
                  (fun updatedOrder =>
                     (* Calculate refund if payment was made *)
                     let completedPayment :=
                       List.find
                         (fun p =>
                            PaymentStatus.eqb (PaymentRow.status p)
                              PaymentStatus.COMPLETED)
                         (OrderRow.payments order) in
                     let refundAmount :=
                       match completedPayment with
                       | Some p => PaymentRow.amount p
                       | None => zero
                       end in
                     Return
                       {| CancellationResult.success := true;
                          CancellationResult.orderNumber := orderNumber;
                          CancellationResult.status :=
                            OrderRow.status updatedOrder;
                          CancellationResult.refundAmount :=
                            if gtb refundAmount zero then Some refundAmount
                            else None;
                          CancellationResult.message :=
                            if gtb refundAmount zero then
                              "Order cancelled. Refund of $"
                              ++ Number_toString refundAmount
                              ++ " will be processed within 5-7 business days."
                            else "Order cancelled successfully." |})
          end))
    {| CancellationResult.success := false;
       CancellationResult.orderNumber := orderNumber;
       CancellationResult.status := OrderStatus.PENDING;
       CancellationResult.refundAmount := None;
       CancellationResult.message := "Failed to cancel order" |}.

Definition modifyOrder (db : database) (orderNumber : string)
           (modifications : OrderModification.t)
  : ModificationResult.t * list statement :=
  let failure (message : string) : ModificationResult.t :=
    {| ModificationResult.success := false;
       ModificationResult.orderNumber := orderNumber;
       ModificationResult.message := message;
       ModificationResult.updatedFields := None |} in
  try_catch db
    (Send (order_findUnique (OrderKey.orderNumber orderNumber) Include.none)
       (fun order =>
          match order with
          | None => Return (failure ("Order " ++ orderNumber ++ " not found"))
          | Some order =>
              let updateData := OrderUpdate.empty in
              let updateData :=
                match OrderModification.shippingAddress modifications with
                | Some shippingAddress =>
                    {| OrderUpdate.status := OrderUpdate.status updateData;
                       OrderUpdate.shippingAddress := Some shippingAddress;
                       OrderUpdate.items := OrderUpdate.items updateData |}
                | None => updateData
                end in
              (* Note: Adding/removing items would require more complex
                 logic in production *)
              let updateData :=
                match OrderModification.addItems modifications with
                | Some addItems =>
                    if Nat.ltb 0 (List.length addItems) then
                      let currentItems := OrderRow.items order in
                      {| OrderUpdate.status := OrderUpdate.status updateData;
                         OrderUpdate.shippingAddress :=
                           OrderUpdate.shippingAddress updateData;
                         OrderUpdate.items :=
                           Some (currentItems ++ addItems)%list |}
                    else updateData
                | None => updateData
                end in
              if Nat.eqb (List.length (OrderUpdate.keys updateData)) 0 then
                Return (failure "No valid modifications provided")
              else
                Send (order_update (OrderKey.orderNumber orderNumber)
                        updateData)
                  (fun _ =>
                     Return
                       {| ModificationResult.success := true;
                          ModificationResult.orderNumber := orderNumber;
                          ModificationResult.message :=
                            "Order modified successfully";
                          ModificationResult.updatedFields :=
                            Some (OrderUpdate.keys updateData) |})
          end))
    (failure "Failed to modify order").

End Builtins.
End orderTools.

Module billingTools.
Section Builtins.
Variable Number_toString : number -> string.

(** [Number(completedPayment.amount) - order.refunds.reduce(...)] *)
Definition maxRefundAmount (completedPayment : PaymentRow.t)
           (order : OrderRow.t) : number :=
  sub (PaymentRow.amount completedPayment)
    (fold_left (fun sum r => add sum (RefundRow.amount r))
       (OrderRow.refunds order) zero).

Definition processRefund (db : database) (orderId : string) (amount : number)
           (reason : string)
  : RefundProcessingResult.t * list statement :=
  let failure (message : string) : RefundProcessingResult.t :=
    {| RefundProcessingResult.success := false;
       RefundProcessingResult.refundId := None;
       RefundProcessingResult.amount := None;
       RefundProcessingResult.message := message |} in
  try_catch db
    (Send (order_findUnique (OrderKey.id orderId)
             {| Include.payments := true; Include.refunds := true |})
       (fun order =>
          match order with
          | None => Return (failure ("Order " ++ orderId ++ " not found"))
          | Some order =>
              match List.find
                      (fun p =>
                         PaymentStatus.eqb (PaymentRow.status p)
                           PaymentStatus.COMPLETED)
                      (OrderRow.payments order) with
              | None =>
                  Return
                    (failure "No completed payment found for this order")
              | Some completedPayment =>
                  let maxRefundAmount :=
                    maxRefundAmount completedPayment order in
                  if gtb amount maxRefundAmount then
                    Return
                      (failure
                         ("Refund amount exceeds available refund. Maximum refund: $"
                          ++ Number_toString maxRefundAmount))
                  else
                    Send (refund_create
                            {| RefundCreate.orderId := orderId;
                               RefundCreate.amount := amount;
                               RefundCreate.currency :=
                                 OrderRow.currency order;
                               RefundCreate.status := RefundStatus.PENDING;
                               RefundCreate.reason := reason |})
                      (fun refund =>
                         let result :=
                           {| RefundProcessingResult.success := true;
                              RefundProcessingResult.refundId :=
                                Some (RefundRow.id refund);
                              RefundProcessingResult.amount := Some amount;
                              RefundProcessingResult.message :=
                                "Refund of $" ++ Number_toString amount
                                ++ " initiated successfully." |} in
                         (* Update order status *)
                         if strict_equal amount maxRefundAmount then
                           Send (order_update (OrderKey.id orderId)
                                   {| OrderUpdate.status :=
                                        Some OrderStatus.REFUNDED;
                                      OrderUpdate.shippingAddress := None;
                                      OrderUpdate.items := None |})
                             (fun _ => Return result)
                         else Return result)
              end
          end))
    (failure "Failed to process refund").

End Builtins.
End billingTools.

(** An environment whose order tools are those of [orderTools] over a
    database, the default of the order responder; the other calls go to
    [env]. *)
Definition over_database (Number_toString : number -> string)
           (db : database) (env : environment) : environment := fun X t =>
  match t in tool X return X with
  | getOrderDetails n => fst (orderTools.getOrderDetails db n)
  | getUserOrders u => fst (orderTools.getUserOrders db u)
  | trackOrder n => fst (orderTools.trackOrder db n)
  | cancelOrder n r => fst (orderTools.cancelOrder Number_toString db n r)
  | modifyOrder n m => fst (orderTools.modifyOrder db n m)
  | t => env _ t
  end.

(** The statements a call of an order tool sends to the database. *)
Definition statements (Number_toString : number -> string) (db : database)
           (c : call) : list statement :=
  match c with
  | Called (getOrderDetails n) => snd (orderTools.getOrderDetails db n)
  | Called (getUserOrders u) => snd (orderTools.getUserOrders db u)
  | Called (trackOrder n) => snd (orderTools.trackOrder db n)
  | Called (cancelOrder n r) =>
      snd (orderTools.cancelOrder Number_toString db n r)
  | Called (modifyOrder n m) => snd (orderTools.modifyOrder db n m)
  | _ => []
  end.

(* ===================================================================== *)
(** * Vocabulary of the specification *)
(* ===================================================================== *)

Module Spec.
Import RouteDecision RouterAgentImpl.

(** The three categories a message is routed to, in the order the
    router lists them in its [scores] array. *)
Definition categories : list AgentType := [ORDER; BILLING; SUPPORT].

Definition rank (t : AgentType) : nat :=
  match t with
  | ORDER => 0
  | BILLING => 1
  | SUPPORT => 2
  | ROUTER => 3
  end.

(** The keyword set of a category; the meta category has none. *)
Definition keywords_of (t : AgentType) : list string :=
  match t with
  | ORDER => orderKeywords
  | BILLING => billingKeywords
  | SUPPORT => supportKeywords
  | ROUTER => []
  end.

(** The score of a message for a category, as [route] computes it. *)
Abbreviation category_score message t :=
  (calculateScore (toLowerCase message) (keywords_of t)).

(** The decision of the second half of [route], as a function of the
    three scores. *)
Definition classify (orderScore billingScore supportScore : number)
  : RouteDecision.t :=
  let scores := sort (fun a b => sub (score b) (score a)) [
    {| type := ORDER; score := orderScore |};
    {| type := BILLING; score := billingScore |};
    {| type := SUPPORT; score := supportScore |}
  ] in
  match scores with
  | best :: _ =>
      if ltb (score best) lit_0_2 then
        {| agentType := enum SUPPORT;
           confidence := JNumber lit_0_5;
           reasoning :=
             JString "Low confidence - using support agent as fallback" |}
      else
        {| agentType := enum (type best);
           confidence := JNumber (Math_min (score best) lit_0_95);
           reasoning :=
             JString ("Matched " ++ AgentType_name (type best)
                      ++ " keywords in message") |}
  | [] =>
      {| agentType := JUndefined; confidence := JUndefined;
         reasoning := JUndefined |}
  end.

(** ** The values a score can take

    One keyword leaves the running score alone, adds 0.2, or adds 0.2
    and then 0.1. Starting from a set of running scores, [outcomes]
    is the set after one keyword and [reachable] the set after a
    whole keyword list. *)
Definition outcomes (accs : list number) : list number :=
  nodup number_eq_dec
    (accs ++ List.map (fun a => add a lit_0_2) accs
          ++ List.map (fun a => add (add a lit_0_2) lit_0_1) accs).

Definition reachable (keywords : list string) (accs : list number)
  : list number :=
  fold_left (fun accs _ => outcomes accs) keywords accs.

Definition possible_scores (keywords : list string) : list number :=
  nodup number_eq_dec
    (List.map (fun a => Math_min a lit_1) (reachable keywords [zero])).

Definition order_scores : list number :=
  Eval vm_compute in possible_scores orderKeywords.
Definition billing_scores : list number :=
  Eval vm_compute in possible_scores billingKeywords.
Definition support_scores : list number :=
  Eval vm_compute in possible_scores supportKeywords.

Definition number_eqb (x y : number) : bool :=
  if number_eq_dec x y then true else false.

Definition scores_of (so sb ss : number) (t : AgentType) : number :=
  match t with
  | ORDER => so
  | BILLING => sb
  | SUPPORT => ss
  | ROUTER => zero
  end.

(** [w] is the winner among three scores: no score is above its own,
    and every category listed before it scores strictly less. *)
Definition is_winner (f : AgentType -> number) (w : AgentType) : bool :=
  (forallb (fun c => leb (f c) (f w)) categories
   && forallb (fun c => (Nat.leb (rank w) (rank c) || ltb (f c) (f w))%bool)
        categories)%bool.

(** [d] names [w] with the confidence the specification gives it. *)
Definition decides (d : RouteDecision.t) (f : AgentType -> number)
           (w : AgentType) : bool :=
  (match agentType d with
   | JString s => String.eqb s (AgentType_name w)
   | _ => false
   end
   && match confidence d with
      | JNumber n => number_eqb n (Math_min (f w) lit_0_95)
      | _ => false
      end)%bool.

Definition fresh_ok (so sb ss : number) : bool :=
  let f := scores_of so sb ss in
  (negb (existsb (fun c => leb lit_0_2 (f c)) categories)
   || existsb (fun w => (decides (classify so sb ss) f w && is_winner f w)%bool)
        categories)%bool.

(** ** Bounds on the running score

    A running score is either one of finitely many values below 1, or
    at least 1: a normal positive number with exponent -52 or more, or
    infinity. *)
Definition lit_0_3 : number := Eval vm_compute in decimal 3 10.

Definition at_least_one (x : number) : bool :=
  match x with
  | S754_infinity false => true
  | S754_finite false m e =>
      (Z.eqb (Zpos (digits2_pos m)) 53 && Z.leb (-52) e && Z.leb e 971)%bool
  | _ => false
  end.

Definition memb (x : number) (l : list number) : bool :=
  existsb (number_eqb x) l.

(** The running scores below 1: what twelve keywords can add up to,
    short of 1. *)
Definition below_one : list number :=
  Eval vm_compute in
    List.filter (fun x => negb (at_least_one x))
      (reachable (repeat EmptyString 12) [zero]).

(** [x] is a running score that is at least [bound]. *)
Definition from (bound x : number) : bool :=
  (at_least_one x || (memb x below_one && leb bound x))%bool.

(** One keyword keeps the running scores from [bound] on in that set,
    checked on the values below 1. *)
Definition step_closed (bound : number) : bool :=
  forallb (fun s =>
    implb (leb bound s)
      (from bound (add s lit_0_2)
       && from bound (add (add s lit_0_2) lit_0_1)))%bool below_one.

(** A keyword contained lifts any running score to 0.2 or more, one
    contained as a whole word to 0.3 or more. *)
Definition match_lifts : bool :=
  forallb (fun s =>
    (from lit_0_2 (add s lit_0_2)
     && from lit_0_2 (add (add s lit_0_2) lit_0_1)
     && from lit_0_3 (add (add s lit_0_2) lit_0_1))%bool) below_one.

(** The clamp keeps a value below 1 within its bounds. *)
Definition clamp_keeps (bound : number) : bool :=
  forallb (fun s =>
    (leb (Math_min s lit_1) lit_1
     && implb (leb bound s) (leb bound (Math_min s lit_1)))%bool) below_one.

(** The text [message] contains [keyword]. *)
Definition contains (message keyword : string) : Prop :=
  exists before after, message = before ++ keyword ++ after.


(** The values [calculateScore] can return, for any keyword list: the
    clamped running scores below 1, and 1. *)
Definition final_scores : list number :=
  Eval vm_compute in
    nodup number_eq_dec
      (lit_1 :: List.map (fun s => Math_min s lit_1) below_one).

(** On every value a score can take, the two thresholds of the router
    (above 0.1, not below 0.2) say the same as "not zero". *)
Definition thresholds_agree : bool :=
  forallb (fun s =>
    (Bool.eqb (gtb s lit_0_1) (negb (number_eqb s zero))
     && Bool.eqb (negb (ltb s lit_0_2)) (negb (number_eqb s zero))
     && Bool.eqb (leb lit_0_2 s) (negb (number_eqb s zero)))%bool)
    final_scores.

(** The decision of the low-confidence fallback. *)
Definition low_confidence : RouteDecision.t :=
  {| agentType := enum SUPPORT;
     confidence := JNumber lit_0_5;
     reasoning := JString "Low confidence - using support agent as fallback" |}.

Definition is_low_confidence (d : RouteDecision.t) : bool :=
  match reasoning d with
  | JString r =>
      String.eqb r "Low confidence - using support agent as fallback"
  | _ => false
  end.

(** A decision names one of the three categories, with a confidence
    between 0.2 and 0.95. *)
Definition in_range (d : RouteDecision.t) : bool :=
  (match as_AgentType (agentType d) with
   | Some ROUTER | None => false
   | Some _ => true
   end
   && match confidence d with
      | JNumber x => leb lit_0_2 x && leb x lit_0_95
      | _ => false
      end)%bool.

(** What [classify] does on three scores: in range, and the fallback
    exactly when all three are zero. *)
Definition classify_ok (so sb ss : number) : bool :=
  (in_range (classify so sb ss)
   && Bool.eqb (is_low_confidence (classify so sb ss))
        (number_eqb so zero && number_eqb sb zero && number_eqb ss zero))%bool.

(** ** Responders and their calls *)

(** A store in which nothing is found and a text-generation service
    that is down: every lookup reports failure, every list is empty. *)
Definition unavailable : environment := fun X t =>
  match t in tool X return X with
  | getOrderDetails n =>
      {| OrderDetailsResult.success := false;
         OrderDetailsResult.data := None;
         OrderDetailsResult.error := Some ("Order " ++ n ++ " not found") |}
  | getUserOrders u => []
  | trackOrder n =>
      {| TrackingResult.success := false;
         TrackingResult.trackingNumber := None;
         TrackingResult.trackingUrl := None;
         TrackingResult.status := None;
         TrackingResult.estimatedDelivery := None;
         TrackingResult.error := Some ("Order " ++ n ++ " not found") |}
  | cancelOrder n r =>
      {| CancellationResult.success := false;
         CancellationResult.orderNumber := n;
         CancellationResult.status := OrderStatus.PENDING;
         CancellationResult.refundAmount := None;
         CancellationResult.message := "Order " ++ n ++ " not found" |}
  | modifyOrder n m =>
      {| ModificationResult.success := false;
         ModificationResult.orderNumber := n;
         ModificationResult.message := "Order " ++ n ++ " not found";
         ModificationResult.updatedFields := None |}
  | getInvoiceDetails i =>
      {| InvoiceResult.success := false;
         InvoiceResult.data := None;
         InvoiceResult.error := Some "Invoice not found" |}
  | getPaymentHistory u => []
  | checkRefundStatus r =>
      {| RefundResult.success := false;
         RefundResult.data := None;
         RefundResult.error := Some "Refund not found" |}
  | getSubscriptionInfo u =>
      {| SubscriptionResult.success := false;
         SubscriptionResult.hasSubscription := None;
         SubscriptionResult.plan := None;
         SubscriptionResult.status := None;
         SubscriptionResult.nextBillingDate := None;
         SubscriptionResult.error := Some "User not found" |}
  | queryConversationHistory u l =>
      {| ConversationHistoryResult.success := false;
         ConversationHistoryResult.conversations := None;
         ConversationHistoryResult.error :=
           Some "Failed to query conversation history" |}
  | searchFAQs q => []
  | generateText r => Rejected (JString "service unavailable")
  end.

(** A store that knows every refund asked for, and nothing else. *)
Definition refund_known : environment := fun X t =>
  match t in tool X return X with
  | checkRefundStatus r =>
      {| RefundResult.success := true;
         RefundResult.data :=
           Some {| RefundData.id := r;
                   RefundData.orderNumber := "ORD-001";
                   RefundData.amount := lit_1;
                   RefundData.currency := "USD";
                   RefundData.status := RefundStatus.PENDING;
                   RefundData.reason := None;
                   RefundData.createdAt := 0;
                   RefundData.updatedAt := 0 |};
         RefundResult.error := None |}
  | t => unavailable _ t
  end.

(** A text-generation service that answers every request with [text],
    in front of a store in which nothing is found. *)
Definition replies_with (text : string) : environment := fun X t =>
  match t in tool X return X with
  | generateText _ => Fulfilled text
  | t => unavailable _ t
  end.

(** A stand-in for [JSON.parse] that knows the text [null] only. *)
Definition parse_null (s : string) : option js_value :=
  if String.eqb s "null" then Some JNull else None.

(** A context of a conversation just created, with the given metadata. *)
Definition fresh_context (metadata : option (gmap string string))
  : ConversationContext.t :=
  {| ConversationContext.conversationId := "conversation-1";
     ConversationContext.userId := "demo-user";
     ConversationContext.previousMessages := [];
     ConversationContext.agentType := enum ROUTER;
     ConversationContext.metadata := metadata |}.

(** The number of data-tool calls of a run. *)
Definition tool_calls {A : Type} (env : environment) (p : Promise A) : nat :=
  List.length (List.filter is_data_tool (calls env p)).

(** The claim of a single data-tool call per invocation, for one
    responder. *)
Definition single_tool_call (handle : AgentCoordinator.Responder) : Prop :=
  forall env message context,
    (tool_calls env (handle message context) <= 1)%nat.

(** The sub-intents of the order responder that need an order number,
    in the order [handle] tests them. *)
Inductive order_intent : Type := Tracking | Status | Cancellation | Modification.

Definition order_intent_of (messageLower : string) : option order_intent :=
  if OrderAgentImpl.isTrackingRequest messageLower then Some Tracking
  else if OrderAgentImpl.isStatusRequest messageLower then Some Status
  else if OrderAgentImpl.isCancellationRequest messageLower
       then Some Cancellation
  else if OrderAgentImpl.isModificationRequest messageLower
       then Some Modification
  else None.

(** The reply that asks for the order number, per sub-intent. *)
Definition clarification (i : order_intent) : AgentResponse.t :=
  match i with
  | Tracking =>
      OrderAgentImpl.reply (Text
        "I'd be happy to help you track your order. Could you please provide your order number (e.g., ORD-001)?")
        "Requesting order number for tracking"
  | Status =>
      OrderAgentImpl.reply (Text
        "I can check your order status. Please provide your order number (e.g., ORD-001).")
        "Requesting order number for status check"
  | Cancellation =>
      OrderAgentImpl.reply (Text
        "I can help you cancel your order. Please provide your order number.")
        "Requesting order number for cancellation"
  | Modification =>
      OrderAgentImpl.reply (Text
        "I can help you modify your order. Please provide your order number first.")
        "Requesting order number for modification"
  end.

(** The order number the conversation remembers, if any. *)
Definition lastOrderNumber (context : ConversationContext.t) : option string :=
  default ∅ (ConversationContext.metadata context) !! "lastOrderNumber".

(** The claim of a clarification request without any tool call, for the
    order responder: a sub-intent matched and no order number in the
    message. *)
Definition order_clarification_claim : Prop :=
  forall env message context i,
    order_intent_of (toLowerCase message) = Some i ->
    String_match message OrderAgentImpl.orderNumberPattern = None ->
    run env (OrderAgentImpl.handle message context) = (clarification i, []).

(** The same claim for the billing responder: a refund or invoice
    request without the identifier makes no tool call. *)
Definition billing_clarification_claim : Prop :=
  forall env message context,
    (BillingAgentImpl.isRefundRequest (toLowerCase message) = true /\
     String_match message BillingAgentImpl.refundIdPattern = None)
    \/ (BillingAgentImpl.isRefundRequest (toLowerCase message) = false /\
        BillingAgentImpl.isInvoiceRequest (toLowerCase message) = true /\
        String_match message BillingAgentImpl.invoiceIdPattern = None) ->
    calls env (BillingAgentImpl.handle message context) = [].

(** The fallback decision as the specification words it. *)
Definition specified_fallback : RouteDecision.t :=
  {| agentType := enum SUPPORT;
     confidence := JNumber lit_0_5;
     reasoning := JString "classification failed, using fallback" |}.

(** The request the LLM router sends for a message. *)
Definition request_of (message : string) : GenerateRequest.t :=
  {| GenerateRequest.model := "gemini-2.0-flash";
     GenerateRequest.system := LLMRouterAgentImpl.getSystemPrompt;
     GenerateRequest.prompt := LLMRouterAgentImpl.prompt_of message;
     GenerateRequest.temperature := decimal 3 10 |}.

(** The external call or the parse of its reply fails. *)
Definition classification_fails (JSON_parse : string -> option js_value)
           (env : environment) (message : string) : Prop :=
  match env _ (generateText (request_of message)) with
  | Rejected _ => True
  | Fulfilled text =>
      JSON_parse (String_replace (trim text) LLMRouterAgentImpl.fences
                    EmptyString) = None
  end.

(** ** The dispatcher, piece by piece *)

(** [{ ...context, agentType: v }] *)
Definition with_agentType (context : ConversationContext.t) (v : js_value)
  : ConversationContext.t :=
  {| ConversationContext.conversationId :=
       ConversationContext.conversationId context;
     ConversationContext.userId := ConversationContext.userId context;
     ConversationContext.previousMessages :=
       ConversationContext.previousMessages context;
     ConversationContext.metadata := ConversationContext.metadata context;
     ConversationContext.agentType := v |}.

(** The responder the [switch] of [processMessage] picks for a
    decision. *)
Definition target (this : AgentCoordinator.t) (d : RouteDecision.t)
  : AgentCoordinator.Responder :=
  match as_AgentType (RouteDecision.agentType d) with
  | Some ORDER => AgentCoordinator.orderAgent this
  | Some BILLING => AgentCoordinator.billingAgent this
  | _ => AgentCoordinator.supportAgent this
  end.

(** A coordinator with the three responders of the source. *)
Definition standard (this : AgentCoordinator.t) : Prop :=
  AgentCoordinator.orderAgent this = OrderAgentImpl.handle
  /\ AgentCoordinator.billingAgent this = BillingAgentImpl.handle
  /\ AgentCoordinator.supportAgent this = SupportAgentImpl.handle.

(** ** Replies of the text-generation service *)

Definition backtick : ascii := ascii_of_N 96.

Fixpoint no_backtick (s : string) : bool :=
  match s with
  | EmptyString => true
  | String c s' => (negb (Ascii.eqb c backtick) && no_backtick s')%bool
  end.

(** A reply in a code fence: the fence with its language tag, a line
    feed, the body, a line feed and the closing fence. *)
Definition fenced (body : string) : string :=
  "```json" ++ LF ++ body ++ LF ++ "```".

(** The decision [route] builds from a parsed reply: the three fields of
    an object, [undefined] where missing; the fallback when the value
    has no fields to read. *)
Definition decision_of (parsed : option js_value) : RouteDecision.t :=
  match parsed with
  | Some (JObject fields) =>
      {| agentType := default JUndefined (fields !! "agentType");
         confidence := default JUndefined (fields !! "confidence");
         reasoning := default JUndefined (fields !! "reasoning") |}
  | Some JNull | Some JUndefined | None => LLMRouterAgentImpl.fallback
  | Some _ =>
      {| agentType := JUndefined; confidence := JUndefined;
         reasoning := JUndefined |}
  end.

End Spec.

(* ===================================================================== *)
(** * Notions used by the further properties *)
(* ===================================================================== *)

Module Notions.
Import supportTools AgentDirectory.

(** The words of a query, as [searchFAQs] hands them to
    [calculateRelevance]. *)
Definition words (query : string) : list string :=
  split_white_space (toLowerCase query).

(** Some word of the query occurs in the text of the FAQ. *)
Definition faq_matches (query : string) (faq : FAQ.t) : bool :=
  existsb (includes (faq_text faq)) (words query).

(** The entry [searchFAQs] builds for an FAQ. *)
Definition result_of (query : string) (faq : FAQ.t) : FAQResult.t :=
  {| FAQResult.question := FAQ.question faq;
     FAQResult.answer := FAQ.answer faq;
     FAQResult.category := FAQ.category faq;
     FAQResult.relevance :=
       calculateRelevance (toLowerCase query) (faq_text faq) |}.

(** White space at either end of a text. *)
Definition starts_blank (s : string) : Prop :=
  exists c rest, s = String c rest /\ is_white_space c = true.

Definition ends_blank (s : string) : Prop :=
  exists front c, s = front ++ String c EmptyString /\ is_white_space c = true.

(** The directory lists the function behind the call among the tools of
    the agent. *)
Definition advertised (agent : AgentType) (c : call) : bool :=
  existsb (String.eqb (call_name c))
    (AgentCapabilities.tools (getAgentCapabilities (enum agent))).

(** The order number a call carries. *)
Definition order_number_of (c : call) : option string :=
  match c with
  | Called (getOrderDetails n) => Some n
  | Called (trackOrder n) => Some n
  | Called (cancelOrder n _) => Some n
  | Called (modifyOrder n _) => Some n
  | _ => None
  end.

(** [{ shippingAddress: { note: ... } }] and nothing else. *)
Definition address_note : OrderModification.t :=
  {| OrderModification.shippingAddress :=
       Some {[ "note" :=
         "Address change requested - user needs to provide new address" ]};
     OrderModification.addItems := None;
     OrderModification.removeItems := None |}.

(** The modifications a call carries. *)
Definition modifications_of (c : call) : option OrderModification.t :=
  match c with
  | Called (modifyOrder _ m) => Some m
  | _ => None
  end.

(** The refund or invoice identifier a call carries. *)
Definition billing_id_of (c : call) : option string :=
  match c with
  | Called (checkRefundStatus i) => Some i
  | Called (getInvoiceDetails i) => Some i
  | _ => None
  end.

(** The [data] of the update that cancels an order. *)
Definition cancel_data : OrderUpdate.t :=
  {| OrderUpdate.status := Some OrderStatus.CANCELLED;
     OrderUpdate.shippingAddress := None;
     OrderUpdate.items := None |}.

(** The [data] of the update that marks an order as refunded. *)
Definition refunded_data : OrderUpdate.t :=
  {| OrderUpdate.status := Some OrderStatus.REFUNDED;
     OrderUpdate.shippingAddress := None;
     OrderUpdate.items := None |}.

(** The [data] of the update the address note of the order responder
    leads to: the note in place of the shipping address. *)
Definition note_data : OrderUpdate.t :=
  {| OrderUpdate.status := None;
     OrderUpdate.shippingAddress :=
       OrderModification.shippingAddress address_note;
     OrderUpdate.items := None |}.

(** The queries for an order by its number, as [cancelOrder] and as
    [modifyOrder] send them. *)
Definition find_with_payments (orderNumber : string)
  : prisma (option OrderRow.t) :=
  order_findUnique (OrderKey.orderNumber orderNumber)
    {| Include.payments := true; Include.refunds := false |}.

Definition find_plain (orderNumber : string) : prisma (option OrderRow.t) :=
  order_findUnique (OrderKey.orderNumber orderNumber) Include.none.

(** The query of [processRefund] for an order by its id. *)
Definition find_by_id (orderId : string) : prisma (option OrderRow.t) :=
  order_findUnique (OrderKey.id orderId)
    {| Include.payments := true; Include.refunds := true |}.

(** The first completed payment of an order. *)
Definition completed_payment (order : OrderRow.t) : option PaymentRow.t :=
  List.find
    (fun p => PaymentStatus.eqb (PaymentRow.status p) PaymentStatus.COMPLETED)
    (OrderRow.payments order).

(** The refund [processRefund] asks the database to create. *)
Definition refund_of (orderId : string) (amount : number) (reason : string)
           (order : OrderRow.t) : RefundCreate.t :=
  {| RefundCreate.orderId := orderId;
     RefundCreate.amount := amount;
     RefundCreate.currency := OrderRow.currency order;
     RefundCreate.status := RefundStatus.PENDING;
     RefundCreate.reason := reason |}.

(** A database that holds one order, under every key, and accepts every
    statement. *)
Definition holding (order : OrderRow.t) : database := fun X q =>
  match q in prisma X return Settled X with
  | order_findUnique _ _ => Fulfilled (Some order)
  | order_findMany _ => Fulfilled [order]
  | order_update _ _ => Fulfilled order
  | refund_create data =>
      Fulfilled {| RefundRow.id := "refund-1";
                   RefundRow.amount := RefundCreate.amount data |}
  end.

(** An order that was delivered and paid for. *)
Definition delivered_order : OrderRow.t :=
  {| OrderRow.id := "order-3";
     OrderRow.orderNumber := "ORD-003";
     OrderRow.userId := "demo-user";
     OrderRow.status := OrderStatus.DELIVERED;
     OrderRow.total := of_pos 599;
     OrderRow.currency := "USD";
     OrderRow.items := [];
     OrderRow.shippingAddress := None;
     OrderRow.trackingNumber := None;
     OrderRow.trackingUrl := None;
     OrderRow.createdAt := 0;
     OrderRow.updatedAt := 0;
     OrderRow.payments :=
       [{| PaymentRow.id := "payment-3";
           PaymentRow.amount := of_pos 599;
           PaymentRow.status := PaymentStatus.COMPLETED |}];
     OrderRow.refunds := [] |}.

(** A rendering of numbers that gives every number the empty text. *)
Definition no_text (x : number) : string := EmptyString.

(** [rest] is what is left of [s] behind some prefix. *)
Definition suffix_of (rest s : string) : Prop :=
  exists taken, s = taken ++ rest.

(** The number of code units every match of a pattern spans, for a
    pattern that has one. *)
Fixpoint width (r : regex) : option nat :=
  match r with
  | REmpty | RBegin | RWordB => Some O
  | RAtom _ => Some 1%nat
  | RStar _ => None
  | RSeq r1 r2 =>
      match width r1, width r2 with
      | Some w1, Some w2 => Some (w1 + w2)%nat
      | _, _ => None
      end
  | RAlt r1 r2 =>
      match width r1, width r2 with
      | Some w1, Some w2 => if Nat.eqb w1 w2 then Some w1 else None
      | _, _ => None
      end
  end.

End Notions.

(* ===================================================================== *)
(** * The contract of the keyword scorer *)
(* ===================================================================== *)

Module ScorerSpec.
Import Spec.

(** Two texts of the same code units up to letter case, as a pattern
    with the [i] flag compares a text with a keyword. *)
Fixpoint same_letters (found keyword : string) : bool :=
  match found, keyword with
  | EmptyString, EmptyString => true
  | String f found', String k keyword' =>
      (N.eqb (canonicalize k) (canonicalize f)
       && same_letters found' keyword')%bool
  | _, _ => false
  end.

(** The keyword matches at a word boundary: the message holds it, in
    any letter case, with a word boundary on both sides. *)
Definition matches_word (message keyword : string) : Prop :=
  exists before found after,
    message = before ++ found ++ after
    /\ same_letters found keyword = true
    /\ xorb (is_word (last_unit None before))
            (is_word (Regex.head (found ++ after))) = true
    /\ xorb (is_word (last_unit None (before ++ found)))
            (is_word (Regex.head after)) = true.

(** The sum of the contract, keyword by keyword from a running score:
    nothing for a keyword the message does not contain, 0.2 for one it
    contains, and a further 0.1 when that keyword also matches at a word
    boundary. *)
Inductive tally (message : string)
  : list string -> number -> number -> Prop :=
| tally_done score : tally message [] score score
| tally_absent keyword keywords score total :
    ~ contains message keyword ->
    tally message keywords score total ->
    tally message (keyword :: keywords) score total
| tally_inside keyword keywords score total :
    contains message keyword ->
    ~ matches_word message keyword ->
    tally message keywords (add score lit_0_2) total ->
    tally message (keyword :: keywords) score total
| tally_word keyword keywords score total :
    contains message keyword ->
    matches_word message keyword ->
    tally message keywords (add (add score lit_0_2) lit_0_1) total ->
    tally message (keyword :: keywords) score total.


(** The keyword, one pattern character after the other, in front of
    [tail]. *)
Fixpoint chain (kw : list ascii) (tail : regex) : regex :=
  match kw with
  | [] => tail
  | c :: kw' => RSeq (RAtom (AChar c)) (chain kw' tail)
  end.

(** A synchronous method that leaves the object as it was. *)
Definition still {A : Type} (m : RouterAgentObject.Method A) : Prop :=
  forall this, snd (m this) = this.

(** A method that calls nothing outside and leaves the object as it
    was: in every environment it ends the same way. *)
Definition quiet {A : Type} (m : RouterAgentObject.AsyncMethod A) : Prop :=
  forall this, exists completion,
    forall env, run env (m this) = ((completion, this), []).

End ScorerSpec.

(* ===================================================================== *)
(** * The keyword router: properties *)
(* ===================================================================== *)

Module RouterProperties.
Import RouteDecision RouterAgentImpl Spec.

(** ** Scores range over a finite set *)

Lemma score_step_outcomes message kw a accs :
  In a accs -> In (score_step message a kw) (outcomes accs).
Proof.
  intros Ha. unfold outcomes, score_step. apply nodup_In.
  rewrite !in_app_iff.
  destruct (includes message kw); [| now left].
  destruct (test (wordPattern kw) message); right.
  - right. apply in_map_iff. now exists a.
  - left. apply in_map_iff. now exists a.
Qed.

Lemma fold_reachable message kws : forall a accs,
  In a accs ->
  In (fold_left (score_step message) kws a) (reachable kws accs).
Proof.
  induction kws as [| kw kws IH]; intros a accs Ha; simpl; [assumption |].
  apply IH. now apply score_step_outcomes.
Qed.

Lemma calculateScore_possible message kws :
  In (calculateScore message kws) (possible_scores kws).
Proof.
  unfold calculateScore, possible_scores. apply nodup_In.
  apply in_map_iff. eexists. split; [reflexivity |].
  apply fold_reachable. now left.
Qed.

Lemma order_scores_eq : order_scores = possible_scores orderKeywords.
Proof. vm_compute. reflexivity. Qed.

Lemma billing_scores_eq : billing_scores = possible_scores billingKeywords.
Proof. vm_compute. reflexivity. Qed.

Lemma support_scores_eq : support_scores = possible_scores supportKeywords.
Proof. vm_compute. reflexivity. Qed.

Lemma order_score_possible message :
  In (category_score message ORDER) order_scores.
Proof. rewrite order_scores_eq. apply calculateScore_possible. Qed.

Lemma billing_score_possible message :
  In (category_score message BILLING) billing_scores.
Proof. rewrite billing_scores_eq. apply calculateScore_possible. Qed.

Lemma support_score_possible message :
  In (category_score message SUPPORT) support_scores.
Proof. rewrite support_scores_eq. apply calculateScore_possible. Qed.

(** ** The two halves of [route] *)

Lemma route_continues message context t :
  continuity message context = Some t ->
  route message context =
    {| agentType := t;
       confidence := JNumber lit_0_9;
       reasoning :=
         JString "Continuing with same agent based on conversation context" |}.
Proof. intros H. unfold route. rewrite H. reflexivity. Qed.

Lemma route_classifies message context :
  continuity message context = None ->
  route message context =
    classify (category_score message ORDER) (category_score message BILLING)
             (category_score message SUPPORT).
Proof.
  intros H. unfold route. rewrite H.
  unfold classify, keywords_of. reflexivity.
Qed.

Lemma as_AgentType_enum c : as_AgentType (enum c) = Some c.
Proof. destruct c; vm_compute; reflexivity. Qed.

Lemma truthy_enum c : truthy (enum c) = true.
Proof. destruct c; vm_compute; reflexivity. Qed.

Lemma isRelatedToAgent_enum message c :
  c <> ROUTER ->
  isRelatedToAgent message (enum c) =
    gtb (category_score message c) lit_0_1.
Proof.
  intros Hc. unfold isRelatedToAgent. rewrite as_AgentType_enum.
  destruct c; [congruence | reflexivity ..].
Qed.

Lemma continuity_enum message ctx c :
  c <> ROUTER ->
  ConversationContext.agentType ctx = enum c ->
  continuity message (Some ctx) =
    if gtb (category_score message c) lit_0_1 then Some (enum c) else None.
Proof.
  intros Hc Hctx. unfold continuity. rewrite Hctx.
  rewrite isRelatedToAgent_enum by assumption.
  rewrite as_AgentType_enum, truthy_enum.
  destruct c; [congruence | reflexivity ..].
Qed.

(** ** Every triple of possible scores is classified as specified *)

Lemma fresh_ok_all :
  forallb (fun so =>
    forallb (fun sb =>
      forallb (fun ss => fresh_ok so sb ss) support_scores)
      billing_scores)
    order_scores = true.
Proof. vm_compute. reflexivity. Qed.

Lemma fresh_ok_scores message :
  fresh_ok (category_score message ORDER) (category_score message BILLING)
           (category_score message SUPPORT) = true.
Proof.
  pose proof fresh_ok_all as H.
  rewrite forallb_forall in H.
  specialize (H _ (order_score_possible message)).
  rewrite forallb_forall in H.
  specialize (H _ (billing_score_possible message)).
  rewrite forallb_forall in H.
  exact (H _ (support_score_possible message)).
Qed.

Lemma scores_of_category message c :
  In c categories ->
  scores_of (category_score message ORDER) (category_score message BILLING)
            (category_score message SUPPORT) c = category_score message c.
Proof. intros [<- | [<- | [<- | []]]]; reflexivity. Qed.

Lemma number_eqb_eq x y : number_eqb x y = true -> x = y.
Proof. unfold number_eqb. destruct (number_eq_dec x y); congruence. Qed.

(** What [fresh_ok] checks, as a proposition. *)
Lemma fresh_ok_sound so sb ss :
  fresh_ok so sb ss = true ->
  (exists c, In c categories /\
             leb lit_0_2 (scores_of so sb ss c) = true) ->
  exists w,
    In w categories
    /\ agentType (classify so sb ss) = enum w
    /\ confidence (classify so sb ss) =
         JNumber (Math_min (scores_of so sb ss w) lit_0_95)
    /\ (forall c, In c categories ->
          leb (scores_of so sb ss c) (scores_of so sb ss w) = true)
    /\ (forall c, In c categories -> (rank c < rank w)%nat ->
          ltb (scores_of so sb ss c) (scores_of so sb ss w) = true).
Proof.
  intros Hok [c [Hc Hge]]. unfold fresh_ok in Hok.
  apply orb_true_iff in Hok. destruct Hok as [Hno | Hex].
  - exfalso. apply negb_true_iff in Hno.
    assert (existsb (fun c => leb lit_0_2 (scores_of so sb ss c)) categories
            = true) as Hyes
      by (apply existsb_exists; exists c; split; assumption).
    congruence.
  - apply existsb_exists in Hex. destruct Hex as [w [Hw Hdw]].
    apply andb_true_iff in Hdw. destruct Hdw as [Hdec Hwin].
    exists w. split; [assumption |].
    unfold decides in Hdec. apply andb_true_iff in Hdec.
    destruct Hdec as [Hty Hconf].
    unfold is_winner in Hwin. apply andb_true_iff in Hwin.
    destruct Hwin as [Hmax Hfirst].
    rewrite forallb_forall in Hmax. rewrite forallb_forall in Hfirst.
    generalize dependent (classify so sb ss). intros d Hty Hconf.
    repeat split.
    + destruct (agentType d); try discriminate.
      apply String.eqb_eq in Hty. unfold enum. now rewrite Hty.
    + destruct (confidence d); try discriminate.
      apply number_eqb_eq in Hconf. now rewrite Hconf.
    + intros c' Hc'. now apply Hmax.
    + intros c' Hc' Hlt.
      specialize (Hfirst c' Hc'). apply orb_true_iff in Hfirst.
      destruct Hfirst as [Hle | Hlt']; [| assumption].
      apply Nat.leb_le in Hle. lia.
Qed.

(** ** A message without any keyword scores zero *)

Lemma fold_no_keyword message kws : forall a,
  (forall kw, In kw kws -> includes message kw = false) ->
  fold_left (score_step message) kws a = a.
Proof.
  induction kws as [| kw kws IH]; intros a H; simpl; [reflexivity |].
  unfold score_step at 2. rewrite (H kw) by now left.
  apply IH. intros kw' Hin. apply H. now right.
Qed.

Lemma calculateScore_no_keyword message kws :
  (forall kw, In kw kws -> includes message kw = false) ->
  calculateScore message kws = zero.
Proof.
  intros H. unfold calculateScore. now rewrite fold_no_keyword.
Qed.

(** ** The head of a sorted array is one of its entries *)

Lemma sort3_head {A} (compare : A -> A -> number) (x y z : A) :
  exists b rest,
    sort compare [x; y; z] = b :: rest /\ (b = x \/ b = y \/ b = z).
Proof.
  unfold sort; simpl.
  destruct (ltb (compare y x) zero); simpl;
    repeat match goal with
           | |- context [if ?c then _ else _] => destruct c; simpl
           end;
    eauto 7.
Qed.

(** C1. Continuity short-circuit: with a context whose agent type is
    one of ORDER, BILLING, SUPPORT, and a message whose score for that
    category's keywords is above 0.1, [route] returns that category
    with confidence 0.9. The decision is this fixed record: the scores
    of the other two categories play no part in it. *)
Theorem continuity_short_circuit message ctx c :
  c <> ROUTER ->
  ConversationContext.agentType ctx = enum c ->
  gtb (category_score message c) lit_0_1 = true ->
  route message (Some ctx) =
    {| agentType := enum c;
       confidence := JNumber lit_0_9;
       reasoning :=
         JString "Continuing with same agent based on conversation context" |}.
Proof.
  intros Hc Hctx Hscore. apply route_continues.
  rewrite (continuity_enum message ctx c Hc Hctx). now rewrite Hscore.
Qed.

(** C2. Fresh classification: when the early return does not apply and
    some category scores at least 0.2, [route] returns a category [w]
    whose score no other exceeds, with confidence [min(score, 0.95)];
    every category listed before [w] in ORDER, BILLING, SUPPORT scores
    strictly less, so the first of several maxima wins. *)
Theorem fresh_classification message context :
  continuity message context = None ->
  (exists c, In c categories /\
             leb lit_0_2 (category_score message c) = true) ->
  exists w,
    In w categories
    /\ agentType (route message context) = enum w
    /\ confidence (route message context) =
         JNumber (Math_min (category_score message w) lit_0_95)
    /\ (forall c, In c categories ->
          leb (category_score message c) (category_score message w) = true)
    /\ (forall c, In c categories -> (rank c < rank w)%nat ->
          ltb (category_score message c) (category_score message w) = true).
Proof.
  intros Hcont [c [Hc Hge]].
  rewrite (route_classifies _ _ Hcont).
  rewrite <- (scores_of_category message c Hc) in Hge.
  destruct (fresh_ok_sound _ _ _ (fresh_ok_scores message)
              (ex_intro _ c (conj Hc Hge)))
    as [w [Hw [Hty [Hconf [Hmax Hfirst]]]]].
  exists w. split; [assumption |].
  split; [assumption |].
  split; [rewrite Hconf; now rewrite scores_of_category |].
  split.
  - intros c' Hc'. rewrite <- (scores_of_category message c' Hc').
    rewrite <- (scores_of_category message w Hw). now apply Hmax.
  - intros c' Hc' Hlt. rewrite <- (scores_of_category message c' Hc').
    rewrite <- (scores_of_category message w Hw). now apply Hfirst.
Qed.

(** C3. Low-confidence fallback: when the early return does not apply
    and every category scores below 0.2, and in particular when the
    lower-cased message contains no keyword of any category, [route]
    returns SUPPORT with confidence 0.5, whichever category scored
    highest. *)
Theorem low_confidence_fallback message context :
  (continuity message context = None /\
   forall c, In c categories ->
     ltb (category_score message c) lit_0_2 = true)
  \/ (forall c kw, In c categories -> In kw (keywords_of c) ->
        includes (toLowerCase message) kw = false) ->
  route message context =
    {| agentType := enum SUPPORT;
       confidence := JNumber lit_0_5;
       reasoning :=
         JString "Low confidence - using support agent as fallback" |}.
Proof.
  intros [[Hcont Hlow] | Hnone].
  - rewrite (route_classifies _ _ Hcont). unfold classify.
    destruct (sort3_head (fun a b => sub (score b) (score a))
                {| type := ORDER; score := category_score message ORDER |}
                {| type := BILLING; score := category_score message BILLING |}
                {| type := SUPPORT; score := category_score message SUPPORT |})
      as [b [rest [Hsort Hb]]].
    rewrite Hsort.
    assert (ltb (score b) lit_0_2 = true) as Hlt.
    { destruct Hb as [-> | [-> | ->]]; cbn [score].
      - apply (Hlow ORDER). simpl; auto.
      - apply (Hlow BILLING). simpl; auto.
      - apply (Hlow SUPPORT). simpl; auto. }
    now rewrite Hlt.
  - assert (forall c, In c categories -> category_score message c = zero)
      as Hzero.
    { intros c Hc. apply calculateScore_no_keyword.
      intros kw Hkw. now apply (Hnone c kw). }
    assert (continuity message context = None) as Hcont.
    { destruct context as [ctx |]; [| reflexivity].
      pose proof (Hzero ORDER (or_introl eq_refl)) as Ho.
      pose proof (Hzero BILLING (or_intror (or_introl eq_refl))) as Hb.
      pose proof (Hzero SUPPORT (or_intror (or_intror (or_introl eq_refl))))
        as Hs.
      cbn [keywords_of] in Ho, Hb, Hs.
      unfold continuity, isRelatedToAgent.
      destruct (as_AgentType (ConversationContext.agentType ctx))
        as [[| | |] |];
        rewrite ?Ho, ?Hb, ?Hs, ?andb_false_r; reflexivity. }
    rewrite (route_classifies _ _ Hcont).
    rewrite !Hzero by (simpl; auto). vm_compute. reflexivity.
Qed.

Lemma continuity_short_circuit_witness :
  route "where is my order"
        (Some {| ConversationContext.conversationId := "conversation-1";
                 ConversationContext.userId := "demo-user";
                 ConversationContext.previousMessages := [];
                 ConversationContext.agentType := enum ORDER;
                 ConversationContext.metadata := None |}) =
    {| agentType := enum ORDER;
       confidence := JNumber lit_0_9;
       reasoning :=
         JString "Continuing with same agent based on conversation context" |}.
Proof.
  apply (continuity_short_circuit "where is my order" _ ORDER);
    [discriminate | reflexivity | vm_compute; reflexivity].
Defined.

Lemma fresh_classification_witness :
  exists w,
    In w categories
    /\ agentType (route "order refund" None) = enum w
    /\ confidence (route "order refund" None) =
         JNumber (Math_min (category_score "order refund" w) lit_0_95)
    /\ (forall c, In c categories ->
          leb (category_score "order refund" c)
              (category_score "order refund" w) = true)
    /\ (forall c, In c categories -> (rank c < rank w)%nat ->
          ltb (category_score "order refund" c)
              (category_score "order refund" w) = true).
Proof.
  apply (fresh_classification "order refund" None); [reflexivity |].
  exists ORDER. split; [simpl; auto | vm_compute; reflexivity].
Defined.

Lemma low_confidence_fallback_witness :
  route "hello" None =
    {| agentType := enum SUPPORT;
       confidence := JNumber lit_0_5;
       reasoning :=
         JString "Low confidence - using support agent as fallback" |}.
Proof.
  apply (low_confidence_fallback "hello" None). left.
  split; [reflexivity |].
  intros c [<- | [<- | [<- | []]]]; vm_compute; reflexivity.
Defined.

End RouterProperties.

(* ===================================================================== *)
(** * The keyword scorer: properties *)
(* ===================================================================== *)

Module NumberFacts.
Import Spec.
Local Open Scope Z_scope.

(** ** Shifts and bit lengths of [SpecFloat], in terms of [Z] *)

Lemma digits2_log2 m : Zpos (digits2_pos m) = Z.log2 (Zpos m) + 1.
Proof.
  induction m as [m IH | m IH |]; simpl; try reflexivity.
  - rewrite Pos2Z.inj_succ, IH. destruct m; simpl; lia.
  - rewrite Pos2Z.inj_succ, IH. destruct m; simpl; lia.
Qed.

Lemma iter_pos_iter {A} (f : A -> A) p : forall x, SpecFloat.iter_pos f p x = Pos.iter f x p.
Proof.
  induction p as [p IH | p IH |]; intros x; simpl; try reflexivity.
  - rewrite !IH. rewrite <- Pos.iter_swap. rewrite <- Pos.iter_swap. reflexivity.
  - rewrite !IH. reflexivity.
Qed.

Lemma shr_1_m mrs : 0 <= shr_m mrs -> shr_m (shr_1 mrs) = Z.div2 (shr_m mrs).
Proof.
  destruct mrs as [m r s]; simpl. intros H.
  destruct m as [| [p | p |] | p]; simpl; try reflexivity; lia.
Qed.

Lemma shr_iter_m p : forall mrs, 0 <= shr_m mrs ->
  shr_m (SpecFloat.iter_pos shr_1 p mrs) = Z.shiftr (shr_m mrs) (Zpos p).
Proof.
  intros mrs H. rewrite iter_pos_iter.
  change (Z.shiftr (shr_m mrs) (Zpos p)) with (Pos.iter Z.div2 (shr_m mrs) p).
  revert mrs H. 
  induction p using Pos.peano_ind; intros mrs H.
  - simpl. now apply shr_1_m.
  - rewrite !Pos.iter_succ. rewrite shr_1_m.
    + now rewrite IHp.
    + rewrite IHp by assumption.
      change (Pos.iter Z.div2 (shr_m mrs) p) with (Z.shiftr (shr_m mrs) (Zpos p)).
      apply Z.shiftr_nonneg. assumption.
Qed.

Lemma fexp_normal e : -1074 <= e - 53 -> fexp prec emax e = e - 53.
Proof. unfold fexp, emin, prec, emax. lia. Qed.

(** The last step of [binary_round_aux], for a mantissa of 53 bits, or
    of 54 after rounding up. *)
Lemma round_finish (m2 : positive) (e : Z) :
  -52 <= e ->
  (Z.log2 (Zpos m2) = 52 \/ m2 = 9007199254740992%positive) ->
  at_least_one (let '(mrs, e'') := shr_fexp prec emax (Zpos m2) e loc_Exact in
        match shr_m mrs with
        | Z0 => S754_zero false
        | Zpos m => if e'' <=? emax - prec then S754_finite false m e''
                    else S754_infinity false
        | Zneg _ => S754_nan
        end) = true.
Proof.
  intros He [Hlog | Hpow].
  - unfold shr_fexp. cbn [Zdigits2]. rewrite digits2_log2, Hlog.
    rewrite fexp_normal by lia.
    replace (52 + 1 + e - 53 - e) with 0 by lia. cbn [shr shr_record_of_loc shr_m].
    unfold emax, prec. destruct (e <=? 1024 - 53) eqn:Hle; [| reflexivity].
    cbn [at_least_one]. rewrite digits2_log2, Hlog.
    apply Z.leb_le in Hle.
    replace (52 + 1 =? 53) with true by reflexivity.
    replace (-52 <=? e) with true by (symmetry; apply Z.leb_le; lia).
    replace (e <=? 971) with true by (symmetry; apply Z.leb_le; lia).
    reflexivity.
  - subst m2. unfold shr_fexp.
    change (Zdigits2 (Zpos 9007199254740992)) with 54.
    rewrite fexp_normal by lia.
    replace (54 + e - 53 - e) with 1 by lia.
    change (shr (shr_record_of_loc (Zpos 9007199254740992) loc_Exact) e 1)
      with ({| shr_m := 4503599627370496; shr_r := false; shr_s := false |},
            e + 1).
    cbn [shr_m].
    unfold emax, prec. destruct (e + 1 <=? 1024 - 53) eqn:Hle; [| reflexivity].
    apply Z.leb_le in Hle. unfold at_least_one.
    change (Zpos (digits2_pos 4503599627370496) =? 53) with true.
    replace (-52 <=? e + 1) with true by (symmetry; apply Z.leb_le; lia).
    replace (e + 1 <=? 971) with true by (symmetry; apply Z.leb_le; lia).
    reflexivity.
Qed.

Lemma round_nearest_even_cases m l :
  round_nearest_even m l = m \/ round_nearest_even m l = m + 1.
Proof.
  destruct l as [| [| |]]; simpl; auto. destruct (Z.even m); auto.
Qed.

Lemma binary_round_aux_big (M : positive) (ez : Z) :
  53 <= Zpos (digits2_pos M) ->
  -52 <= Zpos (digits2_pos M) + ez - 53 ->
  at_least_one (binary_round_aux prec emax false (Zpos M) ez loc_Exact) = true.
Proof.
  intros Hd He. unfold binary_round_aux.
  unfold shr_fexp at 1. cbn [Zdigits2]. rewrite fexp_normal by lia.
  rewrite digits2_log2 in *.
  set (n := Z.log2 (Zpos M) + 1 + ez - 53 - ez).
  assert (n = Z.log2 (Zpos M) - 52) as Hn by (unfold n; lia).
  destruct n as [| p | p] eqn:Hp; [| | lia].
  - cbn [shr shr_record_of_loc shr_m loc_of_shr_record round_nearest_even].
    apply round_finish; [lia | left; lia].
  - cbn [shr shr_record_of_loc].
    set (mrs := SpecFloat.iter_pos shr_1 p _).
    assert (shr_m mrs = Z.shiftr (Zpos M) (Zpos p)) as Hm
      by (unfold mrs; rewrite shr_iter_m; [reflexivity | simpl; lia]).
    assert (Z.log2 (Z.shiftr (Zpos M) (Zpos p)) = 52) as Hlog.
    { rewrite Z.log2_shiftr by lia. lia. }
    assert (0 < Z.shiftr (Zpos M) (Zpos p)) as Hpos.
    { destruct (Z.lt_ge_cases 0 (Z.shiftr (Zpos M) (Zpos p))) as [H | H];
        [assumption |]. apply Z.log2_nonpos in H. lia. }
    pose proof (Z.log2_spec _ Hpos) as Hspec. rewrite Hlog in Hspec.
    change (Z.succ 52) with 53 in Hspec.
    destruct (round_nearest_even_cases (shr_m mrs) (loc_of_shr_record mrs))
      as [Hr | Hr]; rewrite Hr, Hm.
    + destruct (Z.shiftr (Zpos M) (Zpos p)) as [| m1 | m1] eqn:Hm1; try lia.
      apply round_finish; [lia | left; assumption].
    + destruct (Z.shiftr (Zpos M) (Zpos p) + 1) as [| m2 | m2] eqn:Hm2; try lia.
      apply round_finish; [lia |].
      destruct (Pos.eq_dec m2 9007199254740992%positive) as [Heq | Hne];
        [now right | left].
      assert (Zpos m2 <> 9007199254740992) by congruence.
      change (2 ^ 53) with 9007199254740992 in Hspec.
      change (2 ^ 52) with 4503599627370496 in Hspec.
      apply Z.log2_unique; [lia |].
      change (2 ^ (52 + 1)) with 9007199254740992.
      change (2 ^ 52) with 4503599627370496. lia.
Qed.

Lemma iter_xO_shiftl m d : Zpos (Pos.iter xO m d) = Z.shiftl (Zpos m) (Zpos d).
Proof.
  change (Z.shiftl (Zpos m) (Zpos d)) with (Pos.iter (Z.mul 2) (Zpos m) d).
  induction d using Pos.peano_ind.
  - reflexivity.
  - rewrite !Pos.iter_succ. rewrite <- IHd. reflexivity.
Qed.

Lemma shl_align_log2 m e e' :
  e' <= e ->
  Z.log2 (Zpos (fst (shl_align m e e'))) = Z.log2 (Zpos m) + (e - e').
Proof.
  intros H. unfold shl_align.
  destruct (e' - e) as [| d | d] eqn:Hd; cbn [fst]; try lia.
  rewrite iter_xO_shiftl. rewrite Z.log2_shiftl by lia. lia.
Qed.

Lemma add_big (x c : spec_float) mc ec :
  at_least_one x = true ->
  c = S754_finite false mc ec ->
  Zpos (digits2_pos mc) = 53 ->
  -1021 <= ec <= 971 ->
  at_least_one (SFadd prec emax x c) = true.
Proof.
  intros Hx -> Hmc Hec.
  destruct x as [sx | [|] | | [|] mx ex]; try discriminate Hx.
  - reflexivity.
  - cbn [at_least_one] in Hx.
    apply andb_true_iff in Hx. destruct Hx as [Hx Hhi].
    apply andb_true_iff in Hx. destruct Hx as [Hdig Hlo].
    apply Z.eqb_eq in Hdig. apply Z.leb_le in Hlo. apply Z.leb_le in Hhi.
    cbn [SFadd cond_Zopp].
    set (ez := Z.min ex ec).
    set (mx' := fst (shl_align mx ex ez)).
    set (mc' := fst (shl_align mc ec ez)).
    change (Zpos mx' + Zpos mc') with (Zpos (mx' + mc')).
    cbn [binary_normalize]. unfold binary_round.
    assert (Z.log2 (Zpos mx') = 52 + (ex - ez)) as Hlx.
    { unfold mx'. rewrite shl_align_log2 by (unfold ez; lia).
      rewrite digits2_log2 in Hdig. lia. }
    assert (52 + (ex - ez) <= Z.log2 (Zpos (mx' + mc'))) as Hl.
    { rewrite <- Hlx. apply Z.log2_le_mono. lia. }
    assert (ez <= ex) as Hez by (unfold ez; lia).
    assert (-1021 <= ez) as Hez' by (unfold ez; lia).
    set (M := (mx' + mc')%positive) in *.
    pose proof (digits2_log2 M) as HdM.
    unfold shl_align. rewrite fexp_normal by lia.
    destruct (Zpos (digits2_pos M) + ez - 53 - ez) as [| d | d] eqn:Hd; try lia;
      apply binary_round_aux_big; lia.
Qed.

End NumberFacts.

Module ScorerProperties.
Import RouterAgentImpl Spec NumberFacts.

(** ** Running scores stay in range *)

Lemma number_eqb_true x y : number_eqb x y = true -> x = y.
Proof. unfold number_eqb. destruct (number_eq_dec x y); congruence. Qed.

Lemma memb_In x l : memb x l = true -> In x l.
Proof.
  unfold memb. intros H. apply existsb_exists in H.
  destruct H as [y [Hy Heq]]. apply number_eqb_true in Heq. now subst.
Qed.

Lemma add_at_least_one x :
  at_least_one x = true ->
  at_least_one (add x lit_0_2) = true /\ at_least_one (add x lit_0_1) = true.
Proof.
  intros H. split.
  - apply (add_big x lit_0_2 7205759403792794 (-55)%Z); try reflexivity;
      [assumption | lia].
  - apply (add_big x lit_0_1 7205759403792794 (-56)%Z); try reflexivity;
      [assumption | lia].
Qed.

Lemma from_at_least_one bound x : at_least_one x = true -> from bound x = true.
Proof. intros H. unfold from. now rewrite H. Qed.

Lemma from_cases bound x :
  from bound x = true ->
  at_least_one x = true \/ (In x below_one /\ leb bound x = true).
Proof.
  unfold from. intros H. apply orb_true_iff in H. destruct H as [H | H].
  - now left.
  - apply andb_true_iff in H. destruct H as [Hm Hb]. right.
    split; [now apply memb_In | assumption].
Qed.

Lemma from_step bound x :
  step_closed bound = true ->
  from bound x = true ->
  from bound (add x lit_0_2) = true
  /\ from bound (add (add x lit_0_2) lit_0_1) = true.
Proof.
  intros Hclosed Hx. destruct (from_cases _ _ Hx) as [Hbig | [Hin Hb]].
  - destruct (add_at_least_one x Hbig) as [H2 _].
    destruct (add_at_least_one _ H2) as [_ H21].
    split; now apply from_at_least_one.
  - unfold step_closed in Hclosed. rewrite forallb_forall in Hclosed.
    specialize (Hclosed x Hin). rewrite Hb in Hclosed. cbn [implb] in Hclosed.
    now apply andb_true_iff in Hclosed.
Qed.

Lemma score_step_from bound message x kw :
  step_closed bound = true ->
  from bound x = true ->
  from bound (score_step message x kw) = true.
Proof.
  intros Hclosed Hx. destruct (from_step bound x Hclosed Hx) as [H2 H21].
  unfold score_step.
  destruct (includes message kw); [| assumption].
  now destruct (test (wordPattern kw) message).
Qed.

Lemma fold_from bound message kws : forall x,
  step_closed bound = true ->
  from bound x = true ->
  from bound (fold_left (score_step message) kws x) = true.
Proof.
  induction kws as [| kw kws IH]; intros x Hclosed Hx; [assumption |].
  cbn [fold_left]. apply IH; [assumption |]. now apply score_step_from.
Qed.

Lemma step_closed_zero : step_closed zero = true.
Proof. vm_compute. reflexivity. Qed.

Lemma step_closed_0_2 : step_closed lit_0_2 = true.
Proof. vm_compute. reflexivity. Qed.

Lemma step_closed_0_3 : step_closed lit_0_3 = true.
Proof. vm_compute. reflexivity. Qed.

Lemma match_lifts_true : match_lifts = true.
Proof. vm_compute. reflexivity. Qed.

Lemma match_lifts_step x :
  from zero x = true ->
  from lit_0_2 (add x lit_0_2) = true
  /\ from lit_0_2 (add (add x lit_0_2) lit_0_1) = true
  /\ from lit_0_3 (add (add x lit_0_2) lit_0_1) = true.
Proof.
  intros Hx. destruct (from_cases _ _ Hx) as [Hbig | [Hin _]].
  - destruct (add_at_least_one x Hbig) as [H2 _].
    destruct (add_at_least_one _ H2) as [_ H21].
    repeat split; now apply from_at_least_one.
  - pose proof match_lifts_true as H. unfold match_lifts in H.
    rewrite forallb_forall in H. specialize (H x Hin).
    apply andb_true_iff in H. destruct H as [H H3].
    apply andb_true_iff in H. destruct H as [H1 H2]. auto.
Qed.

(** ** The clamp *)

Lemma min_at_least_one x : at_least_one x = true -> Math_min x lit_1 = lit_1.
Proof.
  destruct x as [s | [|] | | [|] m e]; try discriminate; [reflexivity |].
  cbn [at_least_one]. intros H.
  apply andb_true_iff in H. destruct H as [H _].
  apply andb_true_iff in H. destruct H as [Hd He].
  apply Z.eqb_eq in Hd. apply Z.leb_le in He.
  rewrite digits2_log2 in Hd.
  assert (Z.log2 (Zpos m) = 52%Z) as Hlog by lia.
  pose proof (Z.log2_spec (Zpos m) (Pos2Z.is_pos m)) as Hspec.
  rewrite Hlog in Hspec. change (2 ^ 52)%Z with 4503599627370496%Z in Hspec.
  unfold Math_min, lit_1. cbn [SFcompare].
  destruct (Z.compare_spec e (-52)) as [-> | Hlt | Hgt]; [| lia | reflexivity].
  rewrite Pos.compare_cont_spec. unfold Pos.switch_Eq.
  clear Hd Hlog He.
  destruct (Pos.compare_spec m 4503599627370496) as [Heq | Hlt | Hgt].
  - subst m. reflexivity.
  - exfalso. apply Pos2Z.pos_lt_pos in Hlt. destruct Hspec as [Hspec _].
    apply Z.le_ngt in Hspec. exact (Hspec Hlt).
  - reflexivity.
Qed.

Lemma clamp_from bound x :
  clamp_keeps bound = true ->
  leb bound lit_1 = true ->
  from bound x = true ->
  leb (Math_min x lit_1) lit_1 = true
  /\ leb bound (Math_min x lit_1) = true.
Proof.
  intros Hkeeps Hone Hx. destruct (from_cases _ _ Hx) as [Hbig | [Hin Hb]].
  - rewrite (min_at_least_one x Hbig). split; [reflexivity | assumption].
  - unfold clamp_keeps in Hkeeps. rewrite forallb_forall in Hkeeps.
    specialize (Hkeeps x Hin). apply andb_true_iff in Hkeeps.
    destruct Hkeeps as [H1 H2]. rewrite Hb in H2. now split.
Qed.


Lemma clamp_keeps_0_2 : clamp_keeps lit_0_2 = true.
Proof. vm_compute. reflexivity. Qed.


(** ** Containment and the matcher *)








Lemma exec_from_eq ignoreCase r prev s :
  exec_from ignoreCase r prev s =
    match rmatch ignoreCase r prev s accept with
    | Some rest => Some (take (String.length s - String.length rest) s)
    | None =>
        match s with
        | String c s' => exec_from ignoreCase r (Some c) s'
        | EmptyString => None
        end
    end.
Proof. destruct s; reflexivity. Qed.



Lemma configured_keywords_plain :
  Forall (fun kw => plain kw = true)
    (orderKeywords ++ billingKeywords ++ supportKeywords)%list.
Proof. repeat constructor. Qed.

(** ** The contract *)

Lemma calculateScore_from message keywords :
  from zero (fold_left (score_step message) keywords zero) = true.
Proof. apply fold_from; [apply step_closed_zero | reflexivity]. Qed.

Lemma calculateScore_lifted message keywords kw :
  In kw keywords ->
  includes message kw = true ->
  from lit_0_2 (fold_left (score_step message) keywords zero) = true
  /\ (test (wordPattern kw) message = true ->
      from lit_0_3 (fold_left (score_step message) keywords zero) = true).
Proof.
  intros Hin Hinc. apply in_split in Hin. destruct Hin as [l1 [l2 ->]].
  rewrite fold_left_app. cbn [fold_left].
  pose proof (calculateScore_from message l1) as H1.
  destruct (match_lifts_step _ H1) as [H2 [H21 H3]].
  set (acc := fold_left (score_step message) l1 zero) in *.
  assert (score_step message acc kw =
            if test (wordPattern kw) message
            then add (add acc lit_0_2) lit_0_1 else add acc lit_0_2) as ->
    by (unfold score_step; now rewrite Hinc).
  destruct (test (wordPattern kw) message).
  - split; [| intros _].
    + apply fold_from; [apply step_closed_0_2 | exact H21].
    + apply fold_from; [apply step_closed_0_3 | exact H3].
  - split; [| discriminate].
    apply fold_from; [apply step_closed_0_2 | exact H2].
Qed.

End ScorerProperties.

(* ===================================================================== *)
(** * The keyword scorer on any keyword list *)
(* ===================================================================== *)

Module KeywordScorer.
Import RegExpSource RouterAgentObject Spec ScorerSpec ScorerProperties.

(** ** The pattern of a keyword without pattern syntax *)

Lemma token_of_plain c :
  is_syntax_char c = false -> token_of c = TkAtom (AChar c).
Proof.
  destruct c as [[] [] [] [] [] [] [] []]; vm_compute;
    intros H; try discriminate H; reflexivity.
Qed.

Lemma not_backslash c :
  is_syntax_char c = false -> Ascii.eqb c "\" = false.
Proof.
  destruct c as [[] [] [] [] [] [] [] []]; vm_compute;
    intros H; try discriminate H; reflexivity.
Qed.

Lemma tokens_plain kw rest :
  plain kw = true ->
  tokens (kw ++ rest) =
    (List.map (fun c => TkAtom (AChar c)) (list_ascii_of_string kw)
     ++ tokens rest)%list.
Proof.
  induction kw as [| c kw IH]; intros Hp; [reflexivity |].
  cbn [plain] in Hp. apply andb_true_iff in Hp. destruct Hp as [Hc Hp].
  apply negb_true_iff in Hc.
  change (String c kw ++ rest) with (String c (kw ++ rest)).
  cbn [tokens list_ascii_of_string List.map app].
  rewrite (not_backslash c Hc), (token_of_plain c Hc), (IH Hp).
  reflexivity.
Qed.

Lemma disjunction_chain kw :
  disjunction
    (List.map (fun c => TkAtom (AChar c)) kw ++ [TkAssert RWordB])%list =
  Normal (chain kw (RSeq RWordB REmpty), None).
Proof.
  induction kw as [| c kw IH]; [reflexivity |].
  cbn [List.map app]. cbn [disjunction].
  destruct kw as [| d kw]; cbn [List.map app] in *; rewrite IH;
    reflexivity.
Qed.

Lemma wordPattern_plain kw :
  plain kw = true ->
  wordPattern kw =
    Normal {| source :=
                RSeq RWordB
                  (chain (list_ascii_of_string kw) (RSeq RWordB REmpty));
              ignoreCaseFlag := true |}.
Proof.
  intros Hp. unfold wordPattern, RegExp_new.
  change (String.eqb "i" "i") with true. cbn [orb].
  change ("\b" ++ kw ++ "\b")
    with (String "\" (String "b" (kw ++ "\b"))).
  cbn [tokens]. change (Ascii.eqb "\" "\") with true. cbv iota.
  change (escape "b") with (TkAssert RWordB).
  rewrite (tokens_plain kw "\b" Hp).
  change (tokens "\b") with [TkAssert RWordB].
  cbn [disjunction]. rewrite disjunction_chain. reflexivity.
Qed.

Lemma rmatch_chain ic kw tail k : forall prev s,
  rmatch ic (chain (list_ascii_of_string kw) tail) prev s k =
  rmatch ic (literal kw) prev s (fun p s' => rmatch ic tail p s' k).
Proof.
  induction kw as [| c kw IH]; intros prev s; [reflexivity |].
  cbn [list_ascii_of_string chain literal rmatch].
  destruct s as [| d s]; [reflexivity |].
  destruct (atom_matches ic (AChar c) d); [apply IH | reflexivity].
Qed.

Lemma exec_from_ext ic r1 r2 :
  (forall prev s, rmatch ic r1 prev s accept = rmatch ic r2 prev s accept) ->
  forall s prev, exec_from ic r1 prev s = exec_from ic r2 prev s.
Proof.
  intros H. induction s as [| c s IH]; intros prev;
    rewrite (exec_from_eq ic r1), (exec_from_eq ic r2), H;
    destruct (rmatch ic r2 prev _ accept); try reflexivity.
  apply IH.
Qed.

(** For a keyword without pattern syntax the compiled pattern tests as
    the keyword between two word boundaries. *)
Lemma wordPattern_test kw message :
  plain kw = true ->
  exists re,
    wordPattern kw = Normal re
    /\ test re message = test (RouterAgentImpl.wordPattern kw) message.
Proof.
  intros Hp. eexists. split; [apply (wordPattern_plain kw Hp) |].
  unfold test, String_match, RouterAgentImpl.wordPattern.
  cbn [source ignoreCaseFlag].
  rewrite (exec_from_ext true _
             (RSeq RWordB (RSeq (literal kw) RWordB))); [reflexivity |].
  intros prev s. cbn [rmatch].
  destruct (xorb (is_word prev) (is_word (Regex.head s))); [| reflexivity].
  apply rmatch_chain.
Qed.

Lemma score_loop_plain message keywords : forall score,
  Forall (fun kw => plain kw = true) keywords ->
  score_loop message keywords score =
    Normal (fold_left (RouterAgentImpl.score_step message) keywords score).
Proof.
  induction keywords as [| kw keywords IH]; intros score Hp;
    [reflexivity |].
  inversion Hp as [| ? ? Hkw Hrest]; subst.
  cbn [score_loop fold_left]. unfold RouterAgentImpl.score_step at 2.
  destruct (includes message kw); [| now apply IH].
  destruct (wordPattern_test kw message Hkw) as [re [-> ->]].
  now apply IH.
Qed.

(** On keywords without pattern syntax the scorer never throws, and is
    the scorer of the configured router. *)
Lemma calculateScore_plain message keywords :
  Forall (fun kw => plain kw = true) keywords ->
  calculateScore message keywords =
    Normal (RouterAgentImpl.calculateScore message keywords).
Proof.
  intros Hp. unfold calculateScore.
  now rewrite (score_loop_plain message keywords zero Hp).
Qed.

(** ** Containment *)




(** ** The match at a word boundary *)





(** ** The sum *)


(** The sum is a function of the message and the keywords. *)
Lemma tally_unique message keywords : forall score total total',
  tally message keywords score total ->
  tally message keywords score total' ->
  total = total'.
Proof.
  induction keywords as [| kw keywords IH]; intros score total total' H H';
    inversion H; subst; inversion H'; subst;
    try reflexivity; try contradiction; eauto.
Qed.

(** ** The loop on any keywords *)

Lemma score_loop_from bound message :
  step_closed bound = true ->
  forall keywords score total,
    from bound score = true ->
    score_loop message keywords score = Normal total ->
    from bound total = true.
Proof.
  intros Hclosed. induction keywords as [| kw keywords IH];
    intros score total Hs H; cbn [score_loop] in H.
  - now injection H as <-.
  - destruct (from_step bound score Hclosed Hs) as [H2 H21].
    destruct (includes message kw); [| now apply (IH score)].
    destruct (wordPattern kw) as [re | |]; try discriminate H.
    destruct (test re message); eauto.
Qed.

Lemma score_loop_lifted message : forall keywords score total kw,
  In kw keywords ->
  includes message kw = true ->
  from zero score = true ->
  score_loop message keywords score = Normal total ->
  from lit_0_2 total = true.
Proof.
  induction keywords as [| kw' keywords IH];
    intros score total kw Hin Hinc Hs H; [destruct Hin |].
  cbn [score_loop] in H.
  destruct (match_lifts_step _ Hs) as [H2 [H21 _]].
  destruct (from_step zero score step_closed_zero Hs) as [Hz2 Hz21].
  destruct Hin as [-> | Hin].
  - rewrite Hinc in H.
    destruct (wordPattern kw) as [re | |]; try discriminate H.
    destruct (test re message);
      [exact (score_loop_from lit_0_2 message step_closed_0_2 _ _ _ H21 H)
      |exact (score_loop_from lit_0_2 message step_closed_0_2 _ _ _ H2 H)].
  - destruct (includes message kw'); [| now apply (IH score total kw)].
    destruct (wordPattern kw') as [re | |]; try discriminate H.
    destruct (test re message); now apply (IH _ total kw Hin Hinc) in H.
Qed.

Lemma score_loop_absent message : forall keywords score,
  (forall kw, In kw keywords -> includes message kw = false) ->
  score_loop message keywords score = Normal score.
Proof.
  induction keywords as [| kw keywords IH]; intros score H; [reflexivity |].
  cbn [score_loop]. rewrite (H kw (or_introl eq_refl)).
  apply IH. intros kw' Hin. apply H. now right.
Qed.

(** ** The contract *)




End KeywordScorer.

(* ===================================================================== *)
(** * The router object: what its methods leave behind *)
(* ===================================================================== *)

Module RouterObjectFacts.
Import RouterAgentObject Spec ScorerSpec ScorerProperties.

Lemma still_this_ {A : Type} (field : t -> A) : still (this_ field).
Proof. intros this. reflexivity. Qed.

Lemma still_ret {A : Type} (a : A) : still (ret a).
Proof. intros this. reflexivity. Qed.

Lemma still_call {A : Type} (c : Completion A) : still (call c).
Proof. intros this. reflexivity. Qed.

Lemma still_then {A B : Type} (m : Method A) (f : A -> Method B) :
  still m -> (forall a, still (f a)) -> still (then_ m f).
Proof.
  intros Hm Hf this. unfold then_. specialize (Hm this).
  destruct (m this) as [[a | |] this']; cbn [snd] in *; subst this';
    [apply Hf | reflexivity | reflexivity].
Qed.

Lemma still_isRelatedToAgent message agentType :
  still (isRelatedToAgent message agentType).
Proof.
  unfold isRelatedToAgent.
  destruct (as_AgentType agentType) as [[| | |] |];
    repeat first [apply still_then | apply still_this_ | apply still_call
                 | apply still_ret | intros ?].
Qed.

Lemma quiet_resolve {A : Type} (a : A) : quiet (resolve a).
Proof. intros this. exists (Normal a). reflexivity. Qed.

Lemma quiet_step {A B : Type} (m : Method A) (f : A -> AsyncMethod B) :
  still m -> (forall a, quiet (f a)) -> quiet (step m f).
Proof.
  intros Hm Hf this. unfold step. specialize (Hm this).
  destruct (m this) as [[a | |] this']; cbn [snd] in Hm; subst this'.
  - apply Hf.
  - exists Throws. reflexivity.
  - exists Unmodelled. reflexivity.
Qed.

(** [route] reads the fields and the scorer only: it awaits nothing and
    assigns to no field. *)
Lemma quiet_route message context : quiet (route message context).
Proof.
  unfold route. cbv zeta.
  assert (forall A (c : Completion A) (f : A -> AsyncMethod RouteDecision.t),
            (forall a, quiet (f a)) -> quiet (step (call c) f)) as Hcall
    by (intros; apply quiet_step; [apply still_call | assumption]).
  assert (forall A (g : t -> A) (f : A -> AsyncMethod RouteDecision.t),
            (forall a, quiet (f a)) -> quiet (step (this_ g) f)) as Hthis
    by (intros; apply quiet_step; [apply still_this_ | assumption]).
  match goal with
  | |- quiet match context with Some _ => _ | None => ?c end =>
      assert (quiet c) as Hclassify
  end.
  { apply Hthis; intros orderKeywords. apply Hcall; intros orderScore.
    apply Hthis; intros billingKeywords. apply Hcall; intros billingScore.
    apply Hthis; intros supportKeywords. apply Hcall; intros supportScore.
    destruct (RouterAgentImpl.sort _ _) as [| best rest];
      [apply quiet_resolve |].
    destruct (ltb _ _); apply quiet_resolve. }
  destruct context as [ctx |]; [| exact Hclassify].
  destruct (_ && _)%bool; [| exact Hclassify].
  apply quiet_step; [apply still_isRelatedToAgent |].
  intros [|]; [apply quiet_resolve | exact Hclassify].
Qed.

(** ** The object the module exports *)

Lemma configured_plain :
  Forall (fun kw => plain kw = true) RouterAgentImpl.orderKeywords
  /\ Forall (fun kw => plain kw = true) RouterAgentImpl.billingKeywords
  /\ Forall (fun kw => plain kw = true) RouterAgentImpl.supportKeywords.
Proof. repeat split; repeat constructor. Qed.

Lemma step_this_ {A B : Type} (field : t -> A) (f : A -> AsyncMethod B)
      this :
  step (this_ field) f this = f (field this) this.
Proof. reflexivity. Qed.

Lemma step_call {A B : Type} (a : A) (f : A -> AsyncMethod B) this :
  step (call (Normal a)) f this = f a this.
Proof. reflexivity. Qed.

Lemma step_normal {A B : Type} (m : Method A) (f : A -> AsyncMethod B)
      this a :
  m this = (Normal a, this) -> step m f this = f a this.
Proof. intros H. unfold step. now rewrite H. Qed.

(** On the fields the constructor sets, the methods are those of the
    module [RouterAgentImpl]. *)
Lemma isRelatedToAgent_new message agentType :
  isRelatedToAgent message agentType new =
    (Normal (RouterAgentImpl.isRelatedToAgent message agentType), new).
Proof.
  destruct configured_plain as [Ho [Hb Hs]].
  unfold isRelatedToAgent, RouterAgentImpl.isRelatedToAgent.
  destruct (as_AgentType agentType) as [[| | |] |]; try reflexivity;
    unfold then_, this_, call, ret; cbv beta iota;
    change (orderKeywords new) with RouterAgentImpl.orderKeywords;
    change (billingKeywords new) with RouterAgentImpl.billingKeywords;
    change (supportKeywords new) with RouterAgentImpl.supportKeywords;
    rewrite ?(KeywordScorer.calculateScore_plain _ _ Ho),
            ?(KeywordScorer.calculateScore_plain _ _ Hb),
            ?(KeywordScorer.calculateScore_plain _ _ Hs);
    reflexivity.
Qed.

Lemma route_new env message context :
  run env (route message context new) =
    ((Normal (RouterAgentImpl.route message context), new), []).
Proof.
  destruct configured_plain as [Ho [Hb Hs]].
  unfold route, RouterAgentImpl.route. cbv zeta.
  match goal with
  | |- context [match context with Some _ => _ | None => ?c end] =>
      set (classify := c)
  end.
  match goal with
  | |- context [match RouterAgentImpl.continuity _ _ with
                | Some _ => _ | None => ?d end] =>
      set (decision := d)
  end.
  assert (run env (classify new) = ((Normal decision, new), []))
    as Hclassify.
  { subst classify decision.
    rewrite step_this_.
    change (orderKeywords new) with RouterAgentImpl.orderKeywords.
    rewrite (KeywordScorer.calculateScore_plain _ _ Ho), step_call.
    rewrite step_this_.
    change (billingKeywords new) with RouterAgentImpl.billingKeywords.
    rewrite (KeywordScorer.calculateScore_plain _ _ Hb), step_call.
    rewrite step_this_.
    change (supportKeywords new) with RouterAgentImpl.supportKeywords.
    rewrite (KeywordScorer.calculateScore_plain _ _ Hs), step_call.
    destruct (RouterAgentImpl.sort _ _) as [| best rest]; [reflexivity |].
    destruct (ltb _ _); reflexivity. }
  clearbody classify decision.
  unfold RouterAgentImpl.continuity.
  destruct context as [ctx |]; [| exact Hclassify].
  destruct (truthy (ConversationContext.agentType ctx) && _)%bool;
    cbn [andb]; [| exact Hclassify].
  rewrite (step_normal _ _ _ _
             (isRelatedToAgent_new message
                (ConversationContext.agentType ctx))).
  destruct (RouterAgentImpl.isRelatedToAgent message
              (ConversationContext.agentType ctx));
    [reflexivity | exact Hclassify].
Qed.

(** C10. Two calls of the keyword router with the same message and the
    same context, on the same fields, end the same way, with the same
    decision when they return one: the first call leaves the fields of
    the object as they were, and neither call awaits anything outside,
    so the second call finds what the first found whatever the
    environment does in between. For the exported object both calls
    return the decision of [RouterAgentImpl.route], which is what the
    dispatcher gets from its router, without a call. *)
Theorem route_deterministic this message context env1 env2 :
  let first := run env1 (route message context this) in
  let second := run env2 (route message context (snd (fst first))) in
  fst (fst second) = fst (fst first)
  /\ snd (fst first) = this
  /\ snd (fst second) = this
  /\ snd first = []
  /\ snd second = []
  /\ (this = routerAgent ->
      fst (fst first) = Normal (RouterAgentImpl.route message context)
      /\ fst (fst second) = Normal (RouterAgentImpl.route message context)
      /\ forall ctx,
           context = Some ctx ->
           Normal (outcome env1 (AgentCoordinator.routerAgent message ctx)) =
             fst (fst first)
           /\ calls env1 (AgentCoordinator.routerAgent message ctx) =
                snd first).
Proof.
  cbv zeta.
  destruct (quiet_route message context this) as [completion Hrun].
  rewrite (Hrun env1). cbn [fst snd]. rewrite (Hrun env2). cbn [fst snd].
  do 5 (split; [reflexivity |]).
  intros ->. unfold routerAgent in Hrun.
  pose proof (route_new env1 message context) as Hnew.
  rewrite (Hrun env1) in Hnew. injection Hnew as ->.
  split; [reflexivity |]. split; [reflexivity |].
  intros ctx ->. split; reflexivity.
Qed.

End RouterObjectFacts.

(* ===================================================================== *)
(** * Responders, LLM router and dispatcher: properties *)
(* ===================================================================== *)

Module AgentProperties.
Import Spec.

(** ** Running a sequence of awaits *)

Lemma run_bind {A B : Type} (env : environment) (p : Promise A)
      (f : A -> Promise B) :
  run env (bind p f) =
    (fst (run env (f (fst (run env p)))),
     (snd (run env p) ++ snd (run env (f (fst (run env p)))))%list).
Proof.
  induction p as [a | X t k IH]; simpl.
  - now destruct (run env (f a)).
  - rewrite IH. destruct (run env (k (env X t))) as [a cs]. reflexivity.
Qed.

Lemma outcome_bind {A B : Type} (env : environment) (p : Promise A)
      (f : A -> Promise B) :
  outcome env (bind p f) = outcome env (f (outcome env p)).
Proof. unfold outcome. now rewrite run_bind. Qed.

Lemma calls_bind {A B : Type} (env : environment) (p : Promise A)
      (f : A -> Promise B) :
  calls env (bind p f) =
    (calls env p ++ calls env (f (outcome env p)))%list.
Proof. unfold calls, outcome. now rewrite run_bind. Qed.

Lemma run_invoke {A X : Type} (env : environment) (t : tool X)
      (f : X -> Promise A) :
  run env (bind (invoke t) f) =
    (fst (run env (f (env X t))), Called t :: snd (run env (f (env X t)))).
Proof. simpl. now destruct (run env (f (env X t))). Qed.

(** Case analysis on the tests a responder makes, one at a time. *)
Ltac branch :=
  match goal with
  | |- context [if ?b then _ else _] => destruct b eqn:?
  | |- context [match ?x with _ => _ end] => destruct x eqn:?
  end.

Ltac run_step := rewrite ?run_invoke; cbn [run fst snd].

(** ** What each responder returns and calls *)

Lemma order_handle_run env message context :
  AgentResponse.agentType (fst (run env (OrderAgentImpl.handle message context)))
    = ORDER
  /\ (List.length (snd (run env (OrderAgentImpl.handle message context))) <= 1)%nat
  /\ forallb is_data_tool
       (snd (run env (OrderAgentImpl.handle message context))) = true.
Proof.
  unfold OrderAgentImpl.handle. cbv zeta.
  repeat (branch; run_step); repeat split; auto.
Qed.

Lemma billing_handle_run env message context :
  AgentResponse.agentType
    (fst (run env (BillingAgentImpl.handle message context))) = BILLING
  /\ (List.length (snd (run env (BillingAgentImpl.handle message context))) <= 2)%nat
  /\ forallb (fun c => is_data_tool c && negb (is_write c))%bool
       (snd (run env (BillingAgentImpl.handle message context))) = true.
Proof.
  unfold BillingAgentImpl.handle. cbv zeta.
  repeat (branch; run_step); repeat split; auto.
Qed.

Lemma support_handle_run env message context :
  AgentResponse.agentType
    (fst (run env (SupportAgentImpl.handle message context))) = SUPPORT
  /\ (List.length (snd (run env (SupportAgentImpl.handle message context))) <= 2)%nat
  /\ forallb (fun c => is_data_tool c && negb (is_write c))%bool
       (snd (run env (SupportAgentImpl.handle message context))) = true.
Proof.
  unfold SupportAgentImpl.handle. cbv zeta.
  repeat (branch; run_step); repeat split; auto.
Qed.

Lemma tool_calls_le {A : Type} (env : environment) (p : Promise A) :
  (tool_calls env p <= List.length (calls env p))%nat.
Proof. unfold tool_calls. apply filter_length_le. Qed.

(** ** The dispatcher *)

Lemma processMessage_outcome this env message context :
  exists handle,
    (handle = AgentCoordinator.orderAgent this
     \/ handle = AgentCoordinator.billingAgent this
     \/ handle = AgentCoordinator.supportAgent this)
    /\ exists updatedContext,
      outcome env (AgentCoordinator.processMessage this message context) =
        AgentResponse.set_reasoning
          (outcome env (handle message updatedContext))
          (RouteDecision.reasoning
             (outcome env (AgentCoordinator.router this message context))).
Proof.
  unfold AgentCoordinator.processMessage.
  rewrite outcome_bind. cbv zeta.
  set (d := outcome env (AgentCoordinator.router this message context)).
  rewrite outcome_bind.
  destruct (as_AgentType (RouteDecision.agentType d)) as [[| | |] |];
    eexists; (split; [| eexists; reflexivity]); auto.
Qed.

(** C5. Reasoning precedence: the response of [processMessage] carries
    the reasoning of the routing decision, whatever reasoning the
    responder it dispatched to had set, for any router and any
    responders. *)
Theorem reasoning_precedence this env message context :
  AgentResponse.reasoning
    (outcome env (AgentCoordinator.processMessage this message context)) =
  RouteDecision.reasoning
    (outcome env (AgentCoordinator.router this message context)).
Proof.
  destruct (processMessage_outcome this env message context)
    as [handle [_ [updatedContext ->]]].
  reflexivity.
Qed.

(** C6, as stated, fails: a refund request that names a refund the
    store does not know makes the billing responder call
    [checkRefundStatus] and then [getPaymentHistory]. *)
Lemma single_tool_call_refuted :
  ~ (single_tool_call OrderAgentImpl.handle
     /\ single_tool_call BillingAgentImpl.handle
     /\ single_tool_call SupportAgentImpl.handle).
Proof.
  intros [_ [Hbilling _]].
  specialize (Hbilling unavailable "refund status REF-12" (fresh_context None)).
  vm_compute in Hbilling. lia.
Qed.

(** C6, amended. One invocation of the order responder makes at most one
    data-tool call; one of the billing or the support responder makes at
    most two, none of them a write. *)
Theorem tool_calls_per_invocation env message context :
  (tool_calls env (OrderAgentImpl.handle message context) <= 1)%nat
  /\ (tool_calls env (BillingAgentImpl.handle message context) <= 2)%nat
  /\ (tool_calls env (SupportAgentImpl.handle message context) <= 2)%nat
  /\ forallb (fun c => negb (is_write c))
       (calls env (BillingAgentImpl.handle message context)) = true
  /\ forallb (fun c => negb (is_write c))
       (calls env (SupportAgentImpl.handle message context)) = true.
Proof.
  destruct (order_handle_run env message context) as [_ [Ho _]].
  destruct (billing_handle_run env message context) as [_ [Hb Hbr]].
  destruct (support_handle_run env message context) as [_ [Hs Hsr]].
  pose proof (tool_calls_le env (OrderAgentImpl.handle message context)).
  pose proof (tool_calls_le env (BillingAgentImpl.handle message context)).
  pose proof (tool_calls_le env (SupportAgentImpl.handle message context)).
  unfold calls in *.
  repeat split; try lia.
  - rewrite forallb_forall in Hbr |- *. intros c Hc.
    specialize (Hbr c Hc). now apply andb_true_iff in Hbr.
  - rewrite forallb_forall in Hsr |- *. intros c Hc.
    specialize (Hsr c Hc). now apply andb_true_iff in Hsr.
Qed.

(** C7. Non-meta response: with the three responders of the source
    behind the dispatcher, and any router, the response of
    [processMessage] carries ORDER, BILLING or SUPPORT, also when the
    decision names ROUTER or no agent type at all. *)
Theorem non_meta_response this env message context :
  AgentCoordinator.orderAgent this = OrderAgentImpl.handle ->
  AgentCoordinator.billingAgent this = BillingAgentImpl.handle ->
  AgentCoordinator.supportAgent this = SupportAgentImpl.handle ->
  In (AgentResponse.agentType
        (outcome env (AgentCoordinator.processMessage this message context)))
     categories.
Proof.
  intros Ho Hb Hs.
  destruct (processMessage_outcome this env message context)
    as [handle [Hh [updatedContext ->]]].
  unfold AgentResponse.set_reasoning, outcome, categories.
  cbn [AgentResponse.agentType].
  destruct Hh as [-> | [-> | ->]].
  - rewrite Ho.
    destruct (order_handle_run env message updatedContext) as [-> _].
    simpl; auto.
  - rewrite Hb.
    destruct (billing_handle_run env message updatedContext) as [-> _].
    simpl; auto.
  - rewrite Hs.
    destruct (support_handle_run env message updatedContext) as [-> _].
    simpl; auto.
Qed.

Lemma non_meta_response_witness :
  In (AgentResponse.agentType
        (outcome unavailable
           (AgentCoordinator.processMessage
              (AgentCoordinator.new (fun _ => None) true) "hello"
              (fresh_context None))))
     categories.
Proof.
  apply (non_meta_response (AgentCoordinator.new (fun _ => None) true)
           unavailable "hello" (fresh_context None)); reflexivity.
Defined.

(** ** Missing identifiers *)

(** C8, as stated, fails. The order responder falls back on the order
    number the conversation remembers and calls the tool with it; the
    billing responder lists the payment history when the message names
    no refund. *)
Lemma clarification_refuted :
  ~ order_clarification_claim /\ ~ billing_clarification_claim.
Proof.
  split.
  - intros H.
    specialize (H unavailable "track my order"
                  (fresh_context (Some {[ "lastOrderNumber" := "ORD-007" ]}))
                  Tracking eq_refl eq_refl).
    vm_compute in H. discriminate H.
  - intros H.
    specialize (H unavailable "I want a refund" (fresh_context None)
                  (or_introl (conj eq_refl eq_refl))).
    vm_compute in H. discriminate H.
Qed.

(** C8, amended. In the order responder, when the first sub-intent that
    matches is tracking, status, cancellation or modification, the
    message holds no [ORD-ddd] and the conversation remembers no order
    number, the reply is the request for the order number of that
    sub-intent and no tool is called. The billing responder asks for no
    identifier: a refund or invoice request without one makes the single
    call [getPaymentHistory] and replies with what it lists. *)
Theorem missing_identifier_replies env message context :
  (forall i,
     order_intent_of (toLowerCase message) = Some i ->
     String_match message OrderAgentImpl.orderNumberPattern = None ->
     truthy_string (lastOrderNumber context) = false ->
     run env (OrderAgentImpl.handle message context) = (clarification i, []))
  /\ ((BillingAgentImpl.isRefundRequest (toLowerCase message) = true /\
       String_match message BillingAgentImpl.refundIdPattern = None)
      \/ (BillingAgentImpl.isRefundRequest (toLowerCase message) = false /\
          BillingAgentImpl.isInvoiceRequest (toLowerCase message) = true /\
          String_match message BillingAgentImpl.invoiceIdPattern = None) ->
      calls env (BillingAgentImpl.handle message context) =
        [Called (getPaymentHistory (ConversationContext.userId context))]).
Proof.
  split.
  - intros i Hi Hmatch Hlast.
    unfold order_intent_of in Hi. unfold lastOrderNumber in Hlast.
    unfold OrderAgentImpl.handle. cbv zeta. rewrite Hmatch, Hlast.
    cbn [negb].
    destruct (OrderAgentImpl.isTrackingRequest (toLowerCase message));
      [injection Hi as <-; reflexivity |].
    destruct (OrderAgentImpl.isStatusRequest (toLowerCase message));
      [injection Hi as <-; reflexivity |].
    destruct (OrderAgentImpl.isCancellationRequest (toLowerCase message));
      [injection Hi as <-; reflexivity |].
    destruct (OrderAgentImpl.isModificationRequest (toLowerCase message));
      [injection Hi as <-; reflexivity | discriminate Hi].
  - unfold calls, BillingAgentImpl.handle. cbv zeta.
    intros [[Hrefund Hmatch] | [Hrefund [Hinvoice Hmatch]]];
      rewrite Hrefund, ?Hinvoice, Hmatch; cbn [truthy_string];
      run_step; repeat (branch; run_step); reflexivity.
Qed.

Lemma missing_identifier_replies_witness :
  run unavailable (OrderAgentImpl.handle "track my order" (fresh_context None))
    = (clarification Tracking, [])
  /\ calls unavailable
       (BillingAgentImpl.handle "I want a refund" (fresh_context None)) =
     [Called (getPaymentHistory "demo-user")].
Proof.
  split.
  - apply (proj1 (missing_identifier_replies unavailable "track my order"
                    (fresh_context None)) Tracking); reflexivity.
  - apply (proj2 (missing_identifier_replies unavailable "I want a refund"
                    (fresh_context None))).
    left. split; reflexivity.
Defined.

(** ** The LLM router *)

(** C9, as stated, fails: the reasoning of the fallback decision is not
    the text the specification quotes. *)
Lemma specified_fallback_refuted :
  outcome unavailable (LLMRouterAgentImpl.route (fun _ => None) "hello")
    <> specified_fallback.
Proof. vm_compute. intros H. discriminate H. Qed.

(** C9, amended. When the call to the text-generation service rejects,
    or its reply does not parse, [route] resolves to SUPPORT with
    confidence 0.5 and the reasoning "LLM routing failed, using
    fallback"; it made the one call, and nothing is thrown. *)
Theorem llm_router_fails_open JSON_parse env message :
  classification_fails JSON_parse env message ->
  run env (LLMRouterAgentImpl.route JSON_parse message) =
    ({| RouteDecision.agentType := enum SUPPORT;
        RouteDecision.confidence := JNumber lit_0_5;
        RouteDecision.reasoning :=
          JString "LLM routing failed, using fallback" |},
     [Called (generateText (request_of message))]).
Proof.
  unfold classification_fails, LLMRouterAgentImpl.route. cbv zeta.
  rewrite run_invoke. fold (request_of message).
  destruct (env _ (generateText (request_of message))) as [text | error];
    intros H; [rewrite H |]; reflexivity.
Qed.

Lemma llm_router_fails_open_witness :
  run unavailable (LLMRouterAgentImpl.route (fun _ => None) "hello") =
    ({| RouteDecision.agentType := enum SUPPORT;
        RouteDecision.confidence := JNumber lit_0_5;
        RouteDecision.reasoning :=
          JString "LLM routing failed, using fallback" |},
     [Called (generateText (request_of "hello"))]).
Proof.
  apply (llm_router_fails_open (fun _ => None) unavailable "hello").
  exact I.
Defined.

End AgentProperties.

(* ===================================================================== *)
(** * Further properties of the router *)
(* ===================================================================== *)

Module RouterFacts.
Import RouteDecision RouterAgentImpl Spec RouterProperties ScorerProperties.

(** ** Letter case *)

Lemma lower_char_idempotent c : lower_char (lower_char c) = lower_char c.
Proof. destruct c as [[] [] [] [] [] [] [] []]; vm_compute; reflexivity. Qed.

Lemma toLowerCase_idempotent s : toLowerCase (toLowerCase s) = toLowerCase s.
Proof.
  induction s as [| c s IH]; [reflexivity |].
  cbn [toLowerCase]. now rewrite lower_char_idempotent, IH.
Qed.

(** The keyword router ignores letter case: a message and its
    lower-cased form get the same decision in every context. *)
Theorem route_ignores_case message context :
  route (toLowerCase message) context = route message context.
Proof.
  unfold route, continuity, isRelatedToAgent.
  rewrite toLowerCase_idempotent. reflexivity.
Qed.

(** ** Scores and thresholds *)

Lemma calculateScore_final message keywords :
  In (calculateScore message keywords) final_scores.
Proof.
  assert (final_scores =
            nodup number_eq_dec
              (lit_1 :: List.map (fun s => Math_min s lit_1) below_one)) as ->
    by (vm_compute; reflexivity).
  apply nodup_In. unfold calculateScore.
  destruct (from_cases _ _ (calculateScore_from message keywords))
    as [Hbig | [Hin _]].
  - left. symmetry. now apply min_at_least_one.
  - right. apply in_map_iff. eexists. split; [reflexivity | assumption].
Qed.

Lemma thresholds_agree_true : thresholds_agree = true.
Proof. vm_compute. reflexivity. Qed.

Lemma score_thresholds message keywords :
  let s := calculateScore message keywords in
  gtb s lit_0_1 = negb (number_eqb s zero)
  /\ negb (ltb s lit_0_2) = negb (number_eqb s zero)
  /\ leb lit_0_2 s = negb (number_eqb s zero).
Proof.
  cbv zeta. pose proof thresholds_agree_true as H. unfold thresholds_agree in H.
  rewrite forallb_forall in H.
  specialize (H _ (calculateScore_final message keywords)).
  apply andb_true_iff in H. destruct H as [H H3].
  apply andb_true_iff in H. destruct H as [H1 H2].
  apply Bool.eqb_prop in H1, H2, H3. auto.
Qed.

Lemma number_eqb_zero x : number_eqb x zero = true <-> x = zero.
Proof.
  unfold number_eqb. destruct (number_eq_dec x zero); split; congruence.
Qed.

Lemma score_zero_spec message keywords :
  calculateScore message keywords = zero <->
  forall kw, In kw keywords -> includes message kw = false.
Proof.
  split.
  - intros Hzero kw Hin. destruct (includes message kw) eqn:Hinc; [| reflexivity].
    exfalso.
    destruct (calculateScore_lifted message keywords kw Hin Hinc) as [H2 _].
    destruct (clamp_from lit_0_2 _ clamp_keeps_0_2 eq_refl H2) as [_ Hge].
    fold (calculateScore message keywords) in Hge.
    rewrite Hzero in Hge. discriminate Hge.
  - apply calculateScore_no_keyword.
Qed.

(** For any keyword list, the scorer returns 0 exactly when the message
    contains none of the keywords. A keyword the message does not
    contain is not compiled to a pattern, so such a keyword cannot make
    the scorer throw. *)
Theorem score_zero_iff message keywords :
  RouterAgentObject.calculateScore message keywords = Normal zero <->
  forall kw, In kw keywords -> includes message kw = false.
Proof.
  unfold RouterAgentObject.calculateScore. split.
  - intros H kw Hin.
    destruct (includes message kw) eqn:Hinc; [| reflexivity]. exfalso.
    destruct (RouterAgentObject.score_loop message keywords zero)
      as [total | |] eqn:Hloop; try discriminate H.
    injection H as H.
    pose proof (KeywordScorer.score_loop_lifted message keywords zero total
                  kw Hin Hinc eq_refl Hloop) as Hfrom.
    destruct (clamp_from lit_0_2 _ clamp_keeps_0_2 eq_refl Hfrom)
      as [_ Hge].
    rewrite H in Hge. discriminate Hge.
  - intros H.
    now rewrite (KeywordScorer.score_loop_absent message keywords zero H).
Qed.

(** ** When a conversation stays with its agent *)

Lemma as_AgentType_Some v c : as_AgentType v = Some c -> v = enum c.
Proof.
  destruct v as [| | b | n | s | items | fields]; try discriminate.
  cbn [as_AgentType].
  destruct (String.eqb_spec s "ROUTER") as [-> | _];
    [intros [= <-]; reflexivity |].
  destruct (String.eqb_spec s "SUPPORT") as [-> | _];
    [intros [= <-]; reflexivity |].
  destruct (String.eqb_spec s "ORDER") as [-> | _];
    [intros [= <-]; reflexivity |].
  destruct (String.eqb_spec s "BILLING") as [-> | _];
    [intros [= <-]; reflexivity | discriminate].
Qed.

Lemma related_iff_score message c :
  c <> ROUTER ->
  isRelatedToAgent message (enum c) = true <->
  exists kw, In kw (keywords_of c) /\ includes (toLowerCase message) kw = true.
Proof.
  intros Hc. rewrite (isRelatedToAgent_enum message c Hc).
  destruct (score_thresholds (toLowerCase message) (keywords_of c))
    as [-> _].
  rewrite negb_true_iff. split.
  - intros Hnz.
    destruct (existsb (includes (toLowerCase message)) (keywords_of c))
      eqn:Hex.
    + apply existsb_exists in Hex. exact Hex.
    + exfalso.
      assert (calculateScore (toLowerCase message) (keywords_of c) = zero)
        as Hz.
      { apply score_zero_spec. intros kw Hin.
        destruct (includes (toLowerCase message) kw) eqn:Hinc;
          [| reflexivity].
        assert (existsb (includes (toLowerCase message)) (keywords_of c)
                = true) by (apply existsb_exists; eauto).
        congruence. }
      apply number_eqb_zero in Hz. congruence.
  - intros [kw [Hin Hinc]].
    destruct (number_eqb _ zero) eqn:Hz; [| reflexivity].
    apply number_eqb_zero in Hz.
    rewrite (proj1 (score_zero_spec _ _) Hz kw Hin) in Hinc. discriminate.
Qed.

Lemma continuity_spec message ctx :
  continuity message (Some ctx) <> None <->
  exists c,
    In c categories
    /\ ConversationContext.agentType ctx = enum c
    /\ exists kw, In kw (keywords_of c)
                  /\ includes (toLowerCase message) kw = true.
Proof.
  unfold continuity. split.
  - destruct (as_AgentType (ConversationContext.agentType ctx)) as [c |] eqn:Ht.
    + apply as_AgentType_Some in Ht. rewrite Ht.
      destruct c.
      * rewrite andb_false_r. cbn [andb]. congruence.
      * destruct (isRelatedToAgent message (enum SUPPORT)) eqn:Hr;
          [| rewrite andb_false_r; congruence].
        intros _. exists SUPPORT. split; [simpl; auto |]. split; [reflexivity |].
        apply related_iff_score; [discriminate | assumption].
      * destruct (isRelatedToAgent message (enum ORDER)) eqn:Hr;
          [| rewrite andb_false_r; congruence].
        intros _. exists ORDER. split; [simpl; auto |]. split; [reflexivity |].
        apply related_iff_score; [discriminate | assumption].
      * destruct (isRelatedToAgent message (enum BILLING)) eqn:Hr;
          [| rewrite andb_false_r; congruence].
        intros _. exists BILLING. split; [simpl; auto |]. split; [reflexivity |].
        apply related_iff_score; [discriminate | assumption].
    + unfold isRelatedToAgent. rewrite Ht. rewrite andb_false_r. congruence.
  - intros [c [Hc [Ht Hkw]]]. rewrite Ht.
    assert (c <> ROUTER) as Hne
      by (destruct Hc as [<- | [<- | [<- | []]]]; discriminate).
    rewrite as_AgentType_enum, truthy_enum.
    rewrite (proj2 (related_iff_score message c Hne) Hkw).
    destruct c; [congruence | discriminate ..].
Qed.

(** The early return of [route] is taken exactly when the agent type of
    the context is ORDER, BILLING or SUPPORT and the lower-cased message
    contains at least one keyword of that category; a match at a word
    boundary plays no part in it. *)
Theorem continuity_iff_keyword message ctx :
  continuity message (Some ctx) <> None <->
  exists c,
    In c categories
    /\ ConversationContext.agentType ctx = enum c
    /\ exists kw, In kw (keywords_of c)
                  /\ includes (toLowerCase message) kw = true.
Proof. exact (continuity_spec message ctx). Qed.

(** A context whose agent type is the meta category, or no member of
    the enum at all, counts for nothing: the decision is the one taken
    without any context. *)
Theorem route_meta_context message ctx :
  match as_AgentType (ConversationContext.agentType ctx) with
  | Some ROUTER | None => True
  | Some _ => False
  end ->
  route message (Some ctx) = route message None.
Proof.
  intros H.
  assert (continuity message (Some ctx) = None) as Hcont.
  { unfold continuity, isRelatedToAgent.
    destruct (as_AgentType (ConversationContext.agentType ctx)) as [[| | |] |];
      try contradiction; now rewrite ?andb_false_r. }
  rewrite (route_classifies message (Some ctx) Hcont).
  rewrite (route_classifies message None eq_refl). reflexivity.
Qed.

Lemma route_meta_context_witness :
  route "track my order" (Some (fresh_context None)) =
  route "track my order" None.
Proof. apply (route_meta_context "track my order" (fresh_context None)). exact I. Defined.

(** ** The range of the decision *)

Lemma classify_ok_all :
  forallb (fun so =>
    forallb (fun sb =>
      forallb (fun ss => classify_ok so sb ss) support_scores)
      billing_scores)
    order_scores = true.
Proof. vm_compute. reflexivity. Qed.

Lemma classify_ok_scores message :
  classify_ok (category_score message ORDER) (category_score message BILLING)
              (category_score message SUPPORT) = true.
Proof.
  pose proof classify_ok_all as H.
  rewrite forallb_forall in H.
  specialize (H _ (order_score_possible message)).
  rewrite forallb_forall in H.
  specialize (H _ (billing_score_possible message)).
  rewrite forallb_forall in H.
  exact (H _ (support_score_possible message)).
Qed.

Lemma in_range_spec (d : RouteDecision.t) :
  in_range d = true ->
  exists c x,
    In c categories
    /\ agentType d = enum c
    /\ confidence d = JNumber x
    /\ leb lit_0_2 x = true /\ leb x lit_0_95 = true.
Proof.
  unfold in_range. intros H. apply andb_true_iff in H. destruct H as [Ht Hc].
  destruct (as_AgentType (agentType d)) as [c |] eqn:Hty; [| discriminate Ht].
  apply as_AgentType_Some in Hty.
  destruct (confidence d) as [| | | x | | |]; try discriminate Hc.
  apply andb_true_iff in Hc. destruct Hc as [Hlo Hhi].
  exists c, x. repeat split; try assumption.
  destruct c; [discriminate Ht | simpl; auto ..].
Qed.

Lemma classify_ok_spec so sb ss :
  classify_ok so sb ss = true ->
  in_range (classify so sb ss) = true
  /\ (classify so sb ss = low_confidence ->
      so = zero /\ sb = zero /\ ss = zero).
Proof.
  unfold classify_ok. intros H. apply andb_true_iff in H.
  destruct H as [Hr Hiff]. split; [assumption |].
  generalize dependent (classify so sb ss). intros d _ Hiff Hd. subst d.
  cbn [is_low_confidence low_confidence reasoning] in Hiff.
  rewrite String.eqb_refl in Hiff.
  apply Bool.eqb_prop in Hiff. symmetry in Hiff.
  apply andb_true_iff in Hiff. destruct Hiff as [Hiff Hs].
  apply andb_true_iff in Hiff. destruct Hiff as [Ho Hb].
  apply number_eqb_zero in Ho, Hb, Hs. auto.
Qed.

Lemma in_range_continues c :
  In c categories ->
  in_range
    {| agentType := enum c;
       confidence := JNumber lit_0_9;
       reasoning :=
         JString "Continuing with same agent based on conversation context" |}
    = true.
Proof. intros [<- | [<- | [<- | []]]]; vm_compute; reflexivity. Qed.

(** Whatever the message and the context, the keyword router names
    ORDER, BILLING or SUPPORT, never the meta category, and its
    confidence is a number between 0.2 and 0.95. *)
Theorem route_in_range message context :
  exists c x,
    In c categories
    /\ agentType (route message context) = enum c
    /\ confidence (route message context) = JNumber x
    /\ leb lit_0_2 x = true /\ leb x lit_0_95 = true.
Proof.
  apply in_range_spec.
  destruct (continuity message context) as [t |] eqn:Hcont.
  - rewrite (route_continues _ _ _ Hcont).
    destruct context as [ctx |]; [| discriminate Hcont].
    assert (continuity message (Some ctx) <> None) as Hne by congruence.
    apply continuity_spec in Hne.
    destruct Hne as [c [Hc [Ht _]]].
    assert (t = enum c) as ->.
    { unfold continuity in Hcont. rewrite Ht in Hcont.
      destruct (_ && _)%bool in Hcont; congruence. }
    now apply in_range_continues.
  - rewrite (route_classifies _ _ Hcont).
    apply (classify_ok_spec _ _ _ (classify_ok_scores message)).
Qed.

(** The low-confidence fallback is taken exactly when the lower-cased
    message contains no keyword of any category, whatever the context. *)
Theorem fallback_iff_no_keyword message context :
  route message context = low_confidence <->
  forall c kw, In c categories -> In kw (keywords_of c) ->
    includes (toLowerCase message) kw = false.
Proof.
  split.
  - intros Hlow.
    destruct (continuity message context) as [t |] eqn:Hcont.
    + rewrite (route_continues _ _ _ Hcont) in Hlow. discriminate Hlow.
    + rewrite (route_classifies _ _ Hcont) in Hlow.
      destruct (classify_ok_spec _ _ _ (classify_ok_scores message))
        as [_ Hzero].
      destruct (Hzero Hlow) as [Ho [Hb Hs]].
      intros c kw [<- | [<- | [<- | []]]] Hkw.
      * exact (proj1 (score_zero_spec _ _) Ho kw Hkw).
      * exact (proj1 (score_zero_spec _ _) Hb kw Hkw).
      * exact (proj1 (score_zero_spec _ _) Hs kw Hkw).
  - intros Hnone.
    assert (forall c, In c categories -> category_score message c = zero)
      as Hzero.
    { intros c Hc. apply calculateScore_no_keyword.
      intros kw Hkw. now apply (Hnone c kw). }
    assert (continuity message context = None) as Hcont.
    { destruct context as [ctx |]; [| reflexivity].
      pose proof (Hzero ORDER (or_introl eq_refl)) as Ho.
      pose proof (Hzero BILLING (or_intror (or_introl eq_refl))) as Hb.
      pose proof (Hzero SUPPORT (or_intror (or_intror (or_introl eq_refl))))
        as Hs.
      cbn [keywords_of] in Ho, Hb, Hs.
      unfold continuity, isRelatedToAgent.
      destruct (as_AgentType (ConversationContext.agentType ctx))
        as [[| | |] |];
        rewrite ?Ho, ?Hb, ?Hs, ?andb_false_r; reflexivity. }
    rewrite (route_classifies _ _ Hcont).
    rewrite !Hzero by (simpl; auto). vm_compute. reflexivity.
Qed.

End RouterFacts.

(* ===================================================================== *)
(** * Further properties of the responders and the dispatcher *)
(* ===================================================================== *)

Module AgentFacts.
Import Spec AgentProperties.

(** ** The order responder *)

Lemma order_writes_spec env message context c :
  In c (calls env (OrderAgentImpl.handle message context)) ->
  is_write c = true ->
  let m := toLowerCase message in
  OrderAgentImpl.isTrackingRequest m = false
  /\ OrderAgentImpl.isStatusRequest m = false
  /\ ((exists n,
        c = Called (cancelOrder n
                      (OrderAgentImpl.extractCancellationReason message))
        /\ n <> EmptyString
        /\ OrderAgentImpl.isCancellationRequest m = true)
      \/ (exists n,
           c = Called (modifyOrder n
                         (OrderAgentImpl.parseModifications message))
           /\ n <> EmptyString
           /\ OrderAgentImpl.isCancellationRequest m = false
           /\ OrderAgentImpl.isModificationRequest m = true
           /\ OrderModification.keys_length
                (OrderAgentImpl.parseModifications message) <> O)).
Proof.
  unfold calls, OrderAgentImpl.handle. cbv zeta.
  set (orderNumber :=
         match String_match message OrderAgentImpl.orderNumberPattern with
         | Some m => Some m
         | None => _
         end).
  assert (truthy_string orderNumber = true ->
          OrderAgentImpl.narrowed orderNumber <> EmptyString) as Hn.
  { destruct orderNumber as [n |]; [| discriminate]. cbn.
    destruct (String.eqb_spec n EmptyString); [discriminate | auto]. }
  destruct (OrderAgentImpl.isTrackingRequest (toLowerCase message)).
  { destruct (truthy_string orderNumber); cbn [negb]; run_step;
      [repeat (branch; run_step) |];
      intros Hin; cbn in Hin; intuition (subst; discriminate). }
  destruct (OrderAgentImpl.isStatusRequest (toLowerCase message)).
  { destruct (truthy_string orderNumber); cbn [negb]; run_step;
      [repeat (branch; run_step) |];
      intros Hin; cbn in Hin; intuition (subst; discriminate). }
  destruct (OrderAgentImpl.isCancellationRequest (toLowerCase message)).
  { destruct (truthy_string orderNumber) eqn:Ht; cbn [negb]; run_step;
      intros Hin Hw; cbn in Hin; [| contradiction].
    destruct Hin as [<- | []]. repeat split. left. eexists. eauto. }
  destruct (OrderAgentImpl.isModificationRequest (toLowerCase message)).
  { destruct (truthy_string orderNumber) eqn:Ht; cbn [negb]; run_step;
      [| intros Hin; cbn in Hin; contradiction].
    destruct (Nat.eqb_spec
                (OrderModification.keys_length
                   (OrderAgentImpl.parseModifications message)) 0);
      run_step; intros Hin Hw; cbn in Hin; [contradiction |].
    destruct Hin as [<- | []]. repeat split. right. eexists.
    repeat split; auto. }
  run_step. branch; run_step;
    intros Hin; cbn in Hin; intuition (subst; discriminate).
Qed.

(** A write to the store is guarded by the order of the tests: the order
    responder calls [cancelOrder] only for a message that is no tracking
    and no status request and is a cancellation request, and
    [modifyOrder] only for one that is none of these three and is a
    modification request with something to modify; each time with an
    order number that is not empty. *)
Theorem order_writes_guarded env message context c :
  In c (calls env (OrderAgentImpl.handle message context)) ->
  is_write c = true ->
  let m := toLowerCase message in
  OrderAgentImpl.isTrackingRequest m = false
  /\ OrderAgentImpl.isStatusRequest m = false
  /\ ((exists n,
        c = Called (cancelOrder n
                      (OrderAgentImpl.extractCancellationReason message))
        /\ n <> EmptyString
        /\ OrderAgentImpl.isCancellationRequest m = true)
      \/ (exists n,
           c = Called (modifyOrder n
                         (OrderAgentImpl.parseModifications message))
           /\ n <> EmptyString
           /\ OrderAgentImpl.isCancellationRequest m = false
           /\ OrderAgentImpl.isModificationRequest m = true
           /\ OrderModification.keys_length
                (OrderAgentImpl.parseModifications message) <> O)).
Proof. exact (order_writes_spec env message context c). Qed.

Lemma order_writes_guarded_witness :
  OrderAgentImpl.isTrackingRequest (toLowerCase "please cancel ORD-001") = false
  /\ OrderAgentImpl.isStatusRequest (toLowerCase "please cancel ORD-001") = false.
Proof.
  pose proof (order_writes_guarded unavailable "please cancel ORD-001"
                (fresh_context None)
                (Called (cancelOrder "ORD-001" "Customer requested cancellation"))
                (or_introl eq_refl) eq_refl) as H.
  cbv zeta in H. destruct H as [H1 [H2 _]]. split; assumption.
Defined.

(** An order number in the message is all the order responder looks at:
    for a message with a sub-intent that needs one, the calls and the
    reply are the same for every context, whoever the user is and
    whatever order the conversation remembers. *)
Theorem order_number_in_message_decides env message context1 context2 i n :
  order_intent_of (toLowerCase message) = Some i ->
  String_match message OrderAgentImpl.orderNumberPattern = Some n ->
  run env (OrderAgentImpl.handle message context1) =
  run env (OrderAgentImpl.handle message context2).
Proof.
  intros Hi Hn. unfold order_intent_of in Hi.
  unfold OrderAgentImpl.handle. cbv zeta. rewrite Hn.
  destruct (OrderAgentImpl.isTrackingRequest (toLowerCase message));
    [reflexivity |].
  destruct (OrderAgentImpl.isStatusRequest (toLowerCase message));
    [reflexivity |].
  destruct (OrderAgentImpl.isCancellationRequest (toLowerCase message));
    [reflexivity |].
  destruct (OrderAgentImpl.isModificationRequest (toLowerCase message));
    [reflexivity | discriminate Hi].
Qed.

Lemma order_number_in_message_decides_witness :
  run unavailable
    (OrderAgentImpl.handle "track ORD-001" (fresh_context None)) =
  run unavailable
    (OrderAgentImpl.handle "track ORD-001"
       (fresh_context (Some {[ "lastOrderNumber" := "ORD-007" ]}))).
Proof.
  apply (order_number_in_message_decides unavailable "track ORD-001" _ _
           Tracking "ORD-001"); reflexivity.
Defined.

(** ** The billing responder *)

(** A refund or an invoice the store finds by the identifier in the
    message is reported to whoever asks: the calls and the reply are the
    same for every context. *)
Theorem billing_lookup_ignores_context (env : environment) message
        context1 context2 ident :
  (BillingAgentImpl.isRefundRequest (toLowerCase message) = true
   /\ String_match message BillingAgentImpl.refundIdPattern = Some ident
   /\ ident <> EmptyString
   /\ RefundResult.success (env _ (checkRefundStatus ident)) = true
   /\ RefundResult.data (env _ (checkRefundStatus ident)) <> None)
  \/ (BillingAgentImpl.isRefundRequest (toLowerCase message) = false
      /\ BillingAgentImpl.isInvoiceRequest (toLowerCase message) = true
      /\ String_match message BillingAgentImpl.invoiceIdPattern = Some ident
      /\ ident <> EmptyString
      /\ InvoiceResult.success (env _ (getInvoiceDetails ident)) = true
      /\ InvoiceResult.data (env _ (getInvoiceDetails ident)) <> None) ->
  run env (BillingAgentImpl.handle message context1) =
  run env (BillingAgentImpl.handle message context2)
  /\ (List.length (calls env (BillingAgentImpl.handle message context1)) = 1)%nat.
Proof.
  unfold calls, BillingAgentImpl.handle. cbv zeta.
  intros [[Hr [Hm [Hid [Hs Hd]]]] | [Hr [Hi [Hm [Hid [Hs Hd]]]]]];
    rewrite Hr, ?Hi, Hm;
    change (default EmptyString (Some ident)) with ident;
    cbn [truthy_string];
    destruct (String.eqb_spec ident EmptyString) as [| _]; try contradiction;
    cbn [negb]; rewrite !run_invoke; cbv beta; rewrite Hs.
  - destruct (RefundResult.data (env _ (checkRefundStatus ident)));
      [split; reflexivity | contradiction].
  - destruct (InvoiceResult.data (env _ (getInvoiceDetails ident)));
      [split; reflexivity | contradiction].
Qed.

Lemma billing_lookup_ignores_context_witness :
  run refund_known
    (BillingAgentImpl.handle "refund status REF-12" (fresh_context None)) =
  run refund_known
    (BillingAgentImpl.handle "refund status REF-12"
       (with_agentType (fresh_context None) (enum BILLING))).
Proof.
  apply (billing_lookup_ignores_context refund_known "refund status REF-12"
           _ _ "REF-12").
  left. repeat split; discriminate.
Defined.

End AgentFacts.

(* ===================================================================== *)
(** * Further properties of the LLM router *)
(* ===================================================================== *)

Module LLMRouterFacts.
Import Spec AgentProperties.

(** ** The matcher, one step at a time *)

Lemma rmatch_seq ic r1 r2 prev s k :
  rmatch ic (RSeq r1 r2) prev s k =
    rmatch ic r1 prev s (fun p s' => rmatch ic r2 p s' k).
Proof. reflexivity. Qed.

Lemma rmatch_alt ic r1 r2 prev s k :
  rmatch ic (RAlt r1 r2) prev s k =
    match rmatch ic r1 prev s k with
    | Some rest => Some rest
    | None => rmatch ic r2 prev s k
    end.
Proof. reflexivity. Qed.

Lemma rmatch_empty ic prev s k : rmatch ic REmpty prev s k = k prev s.
Proof. reflexivity. Qed.

Lemma rmatch_literal_nil ic c l prev k :
  rmatch ic (literal (String c l)) prev EmptyString k = None.
Proof. reflexivity. Qed.

Lemma rmatch_literal_cons ic c l prev d s k :
  rmatch ic (literal (String c l)) prev (String d s) k =
    if atom_matches ic (AChar c) d then rmatch ic (literal l) (Some d) s k
    else None.
Proof. reflexivity. Qed.

Lemma not_backtick c :
  Ascii.eqb c backtick = false -> atom_matches false (AChar backtick) c = false.
Proof. intros H. unfold atom_matches. now rewrite Ascii.eqb_sym. Qed.

(** A pattern that starts with a backtick fails on a text that has
    none, also after some of that text and a line feed. *)
Lemma backtick_fails l prev s t k :
  no_backtick s = true ->
  rmatch false (literal (String backtick l)) prev (s ++ LF ++ t) k = None.
Proof.
  intros H. destruct s as [| c s].
  - change (EmptyString ++ LF ++ t) with (String (ascii_of_N 10) t).
    rewrite rmatch_literal_cons. reflexivity.
  - change (String c s ++ LF ++ t) with (String c (s ++ LF ++ t)).
    rewrite rmatch_literal_cons.
    cbn [no_backtick] in H. apply andb_true_iff in H. destruct H as [Hc _].
    apply negb_true_iff in Hc. now rewrite (not_backtick c Hc).
Qed.

Lemma backtick_fails_plain l prev s k :
  no_backtick s = true ->
  rmatch false (literal (String backtick l)) prev s k = None.
Proof.
  intros H. destruct s as [| c s]; [reflexivity |].
  rewrite rmatch_literal_cons.
  cbn [no_backtick] in H. apply andb_true_iff in H. destruct H as [Hc _].
  apply negb_true_iff in Hc. now rewrite (not_backtick c Hc).
Qed.

Definition fence_source : regex := source LLMRouterAgentImpl.fences.

Lemma fence_source_eq :
  fence_source =
    RAlt (RSeq (literal "```json") (opt (literal LF)))
         (RSeq (opt (literal LF)) (literal "```")).
Proof. reflexivity. Qed.

(** The fence pattern at a position where no backtick follows. *)
Lemma fence_fails_plain prev s :
  no_backtick s = true -> rmatch false fence_source prev s accept = None.
Proof.
  intros H. rewrite fence_source_eq, rmatch_alt, rmatch_seq.
  change "```json" with (String backtick "``json").
  rewrite (backtick_fails_plain _ _ _ _ H).
  rewrite rmatch_seq. unfold opt. rewrite rmatch_alt.
  change "```" with (String backtick "``").
  rewrite rmatch_empty, (backtick_fails_plain _ _ _ _ H).
  destruct s as [| c s]; [reflexivity |].
  change (literal LF) with (RSeq (RAtom (AChar (ascii_of_N 10))) REmpty).
  rewrite rmatch_seq. cbn [rmatch].
  cbn [no_backtick] in H. apply andb_true_iff in H. destruct H as [_ Hs].
  rewrite (backtick_fails_plain _ _ _ _ Hs).
  now destruct (atom_matches false (AChar (ascii_of_N 10)) c).
Qed.

Lemma fence_fails_inside prev c s t :
  no_backtick (String c s) = true ->
  rmatch false fence_source prev (String c s ++ LF ++ t) accept = None.
Proof.
  intros H. rewrite fence_source_eq, rmatch_alt, rmatch_seq.
  change "```json" with (String backtick "``json").
  rewrite (backtick_fails _ _ _ _ _ H).
  rewrite rmatch_seq. unfold opt. rewrite rmatch_alt.
  change "```" with (String backtick "``").
  rewrite rmatch_empty, (backtick_fails _ _ _ _ _ H).
  change (String c s ++ LF ++ t) with (String c (s ++ LF ++ t)).
  change (literal LF) with (RSeq (RAtom (AChar (ascii_of_N 10))) REmpty).
  rewrite rmatch_seq. cbn [rmatch].
  cbn [no_backtick] in H. apply andb_true_iff in H. destruct H as [_ Hs].
  rewrite (backtick_fails _ _ _ _ _ Hs).
  now destruct (atom_matches false (AChar (ascii_of_N 10)) c).
Qed.

(** ** Cleaning a reply *)

Lemma replace_from_S fuel re replacement prev s :
  replace_from (S fuel) re replacement prev s =
    match rmatch (ignoreCaseFlag re) (source re) prev s accept with
    | Some rest =>
        match (String.length s - String.length rest)%nat with
        | O =>
            replacement ++
            match s with
            | String c s' =>
                String c (replace_from fuel re replacement (Some c) s')
            | EmptyString => EmptyString
            end
        | S n =>
            replacement ++
            replace_from fuel re replacement
              (last_unit prev
                 (take (String.length s - String.length rest) s)) rest
        end
    | None =>
        match s with
        | String c s' =>
            String c (replace_from fuel re replacement (Some c) s')
        | EmptyString => EmptyString
        end
    end.
Proof. reflexivity. Qed.

Lemma replace_plain s : forall fuel prev,
  no_backtick s = true ->
  replace_from fuel LLMRouterAgentImpl.fences EmptyString prev s = s.
Proof.
  induction s as [| c s IH]; intros [| fuel] prev H; try reflexivity.
  rewrite replace_from_S.
  change (rmatch _ _ prev (String c s) accept)
    with (rmatch false fence_source prev (String c s) accept).
  rewrite (fence_fails_plain _ _ H).
  cbn [no_backtick] in H. apply andb_true_iff in H. destruct H as [_ Hs].
  now rewrite IH.
Qed.

(** A reply without a backtick is parsed as it is. *)
Lemma clean_plain s :
  no_backtick s = true ->
  String_replace s LLMRouterAgentImpl.fences EmptyString = s.
Proof. intros H. unfold String_replace. now apply replace_plain. Qed.

Lemma replace_tail body : forall fuel prev,
  no_backtick body = true ->
  (String.length body + 2 <= fuel)%nat ->
  replace_from fuel LLMRouterAgentImpl.fences EmptyString prev
    (body ++ LF ++ "```") = body.
Proof.
  induction body as [| c body IH]; intros fuel prev H Hfuel.
  - destruct fuel as [| [| fuel]]; [simpl in Hfuel; lia .. |]. reflexivity.
  - destruct fuel as [| fuel]; [simpl in Hfuel; lia |].
    rewrite replace_from_S.
    change (rmatch _ _ prev (String c body ++ LF ++ "```") accept)
      with (rmatch false fence_source prev (String c body ++ LF ++ "```")
              accept).
    rewrite (fence_fails_inside _ _ _ _ H).
    change (String c body ++ LF ++ "```")
      with (String c (body ++ LF ++ "```")).
    cbn [no_backtick] in H. apply andb_true_iff in H. destruct H as [_ Hb].
    rewrite IH; [reflexivity | assumption | simpl in Hfuel; lia].
Qed.

Lemma length_append s t :
  String.length (s ++ t) = (String.length s + String.length t)%nat.
Proof. induction s as [| c s IH]; simpl; [reflexivity | now rewrite IH]. Qed.

(** A reply in a code fence is parsed as its body. *)
Lemma clean_fenced body :
  no_backtick body = true ->
  String_replace (fenced body) LLMRouterAgentImpl.fences EmptyString = body.
Proof.
  intros H. unfold String_replace, fenced.
  rewrite replace_from_S.
  change (rmatch _ _ None ("```json" ++ LF ++ body ++ LF ++ "```") accept)
    with (Some (body ++ LF ++ "```")).
  cbv beta iota.
  change (String.length ("```json" ++ LF ++ body ++ LF ++ "```"))
    with (8 + String.length (body ++ LF ++ "```"))%nat.
  replace (8 + String.length (body ++ LF ++ "```")
           - String.length (body ++ LF ++ "```"))%nat with 8%nat by lia.
  cbv beta iota.
  match goal with
  | |- EmptyString ++ ?x = _ => change (x = body)
  end.
  apply replace_tail; [assumption |].
  rewrite length_append. simpl. lia.
Qed.

Lemma trimEnd_keeps s : trimEnd (s ++ "```") = s ++ "```".
Proof.
  induction s as [| c s IH]; [reflexivity |].
  change (trimEnd (String c s ++ "```"))
    with (let rest := trimEnd (s ++ "```") in
          if (is_white_space c && String.eqb rest EmptyString)%bool
          then EmptyString else String c rest).
  cbv zeta. rewrite IH.
  assert (String.eqb (s ++ "```") EmptyString = false) as ->
    by (destruct s; reflexivity).
  now rewrite andb_false_r.
Qed.

Lemma append_assoc (a b c : string) : (a ++ b) ++ c = a ++ b ++ c.
Proof.
  induction a as [| x a IH]; [reflexivity |].
  change (String x ((a ++ b) ++ c) = String x (a ++ b ++ c)). now f_equal.
Qed.

Lemma trim_fenced body : trim (fenced body) = fenced body.
Proof.
  unfold trim. change (trimStart (fenced body)) with (fenced body).
  unfold fenced.
  rewrite <- (append_assoc body LF "```").
  rewrite <- (append_assoc LF (body ++ LF) "```").
  rewrite <- (append_assoc "```json" (LF ++ body ++ LF) "```").
  apply trimEnd_keeps.
Qed.

Lemma no_backtick_trimStart s :
  no_backtick s = true -> no_backtick (trimStart s) = true.
Proof.
  induction s as [| c s IH]; intros H; [reflexivity |].
  cbn [trimStart]. destruct (is_white_space c); [| assumption].
  apply IH. cbn [no_backtick] in H. now apply andb_true_iff in H.
Qed.

Lemma no_backtick_trimEnd s :
  no_backtick s = true -> no_backtick (trimEnd s) = true.
Proof.
  induction s as [| c s IH]; intros H; [reflexivity |].
  cbn [no_backtick] in H. apply andb_true_iff in H. destruct H as [Hc Hs].
  cbn [trimEnd].
  destruct (is_white_space c && String.eqb (trimEnd s) EmptyString)%bool;
    [reflexivity |].
  cbn [no_backtick]. now rewrite Hc, IH.
Qed.

Lemma no_backtick_trim s : no_backtick s = true -> no_backtick (trim s) = true.
Proof.
  intros H. unfold trim. now apply no_backtick_trimEnd, no_backtick_trimStart.
Qed.

(** ** What [route] makes of a reply *)

Lemma route_run JSON_parse env message :
  run env (LLMRouterAgentImpl.route JSON_parse message) =
    (match env _ (generateText (request_of message)) with
     | Fulfilled text =>
         decision_of
           (JSON_parse
              (String_replace (trim text) LLMRouterAgentImpl.fences
                 EmptyString))
     | Rejected _ => LLMRouterAgentImpl.fallback
     end,
     [Called (generateText (request_of message))]).
Proof.
  unfold LLMRouterAgentImpl.route. cbv zeta.
  rewrite run_invoke. fold (request_of message).
  destruct (env _ (generateText (request_of message))) as [text | error];
    [| reflexivity].
  destruct (JSON_parse _) as [[| | | | | |] |]; reflexivity.
Qed.

(** A reply of the service without any backtick is trimmed and parsed
    as it is, and a reply in a code fence is parsed as its body. The
    decision holds the fields [agentType], [confidence] and [reasoning]
    of the parsed object, [undefined] for a field that is missing or
    when the value is no object; a reply that does not parse, or parses
    to [null], gives the fallback decision. *)
Theorem llm_reply_decision JSON_parse (env : environment) message text :
  env _ (generateText (request_of message)) = Fulfilled text ->
  (no_backtick text = true ->
   outcome env (LLMRouterAgentImpl.route JSON_parse message) =
     decision_of (JSON_parse (trim text)))
  /\ (forall body,
       text = fenced body -> no_backtick body = true ->
       outcome env (LLMRouterAgentImpl.route JSON_parse message) =
         decision_of (JSON_parse body)).
Proof.
  intros Henv. unfold outcome. rewrite route_run, Henv. cbn [fst]. split.
  - intros H. now rewrite clean_plain by now apply no_backtick_trim.
  - intros body -> H. now rewrite trim_fenced, clean_fenced.
Qed.

Lemma llm_reply_decision_witness :
  outcome (replies_with (fenced "null"))
    (LLMRouterAgentImpl.route parse_null "hello") =
  decision_of (parse_null "null").
Proof.
  apply (proj2 (llm_reply_decision parse_null (replies_with (fenced "null"))
                  "hello" (fenced "null") eq_refl) "null");
    reflexivity.
Defined.

End LLMRouterFacts.

(* ===================================================================== *)
(** * Further properties of the dispatcher *)
(* ===================================================================== *)

Module DispatcherFacts.
Import Spec AgentProperties LLMRouterFacts.

Lemma processMessage_run this env message context :
  let d := outcome env (AgentCoordinator.router this message context) in
  let context' := with_agentType context (RouteDecision.agentType d) in
  run env (AgentCoordinator.processMessage this message context) =
    (AgentResponse.set_reasoning
       (outcome env (target this d message context'))
       (RouteDecision.reasoning d),
     (calls env (AgentCoordinator.router this message context)
      ++ calls env (target this d message context'))%list).
Proof.
  cbv zeta. unfold AgentCoordinator.processMessage.
  rewrite run_bind. cbv zeta.
  fold (outcome env (AgentCoordinator.router this message context)).
  fold (calls env (AgentCoordinator.router this message context)).
  set (d := outcome env (AgentCoordinator.router this message context)).
  rewrite run_bind. cbn [run fst snd]. rewrite app_nil_r.
  unfold target, with_agentType, outcome, calls.
  destruct (as_AgentType (RouteDecision.agentType d)) as [[| | |] |];
    reflexivity.
Qed.

(** [processMessage] is the router followed by the responder the
    decision selects: the responder gets the message and the context
    with the decided agent type in place of the old one and nothing else
    changed; the calls are those of the router followed by those of the
    responder, and the response is the responder's with the reasoning of
    the decision. *)
Theorem processMessage_composes this env message context :
  let d := outcome env (AgentCoordinator.router this message context) in
  let context' := with_agentType context (RouteDecision.agentType d) in
  run env (AgentCoordinator.processMessage this message context) =
    (AgentResponse.set_reasoning
       (outcome env (target this d message context'))
       (RouteDecision.reasoning d),
     (calls env (AgentCoordinator.router this message context)
      ++ calls env (target this d message context'))%list).
Proof. exact (processMessage_run this env message context). Qed.

Lemma keyword_router_calls env message context :
  calls env (AgentCoordinator.routerAgent message context) = [].
Proof. reflexivity. Qed.

Lemma llm_router_calls JSON_parse env message context :
  calls env (AgentCoordinator.llmRouter JSON_parse message context) =
    [Called (generateText (request_of message))].
Proof.
  unfold calls, AgentCoordinator.llmRouter. now rewrite route_run.
Qed.

Lemma standard_new JSON_parse useLLMRouter :
  standard (AgentCoordinator.new JSON_parse useLLMRouter).
Proof. repeat split. Qed.

Lemma target_calls this env d message context :
  standard this ->
  let cs := calls env (target this d message context) in
  (List.length cs <= 2)%nat
  /\ forallb is_data_tool cs = true
  /\ (forall c, In c cs -> is_write c = true ->
        as_AgentType (RouteDecision.agentType d) = Some ORDER).
Proof.
  intros [Ho [Hb Hs]]. cbv zeta. unfold target, calls.
  destruct (as_AgentType (RouteDecision.agentType d)) as [[| | |] |];
    rewrite ?Ho, ?Hb, ?Hs.
  - destruct (support_handle_run env message context) as [_ [Hl Hr]].
    rewrite forallb_forall in Hr. repeat split; [assumption | |].
    + apply forallb_forall. intros c Hc. specialize (Hr c Hc).
      now apply andb_true_iff in Hr.
    + intros c Hc Hw. specialize (Hr c Hc). rewrite Hw in Hr.
      now rewrite andb_false_r in Hr.
  - destruct (support_handle_run env message context) as [_ [Hl Hr]].
    rewrite forallb_forall in Hr. repeat split; [assumption | |].
    + apply forallb_forall. intros c Hc. specialize (Hr c Hc).
      now apply andb_true_iff in Hr.
    + intros c Hc Hw. specialize (Hr c Hc). rewrite Hw in Hr.
      now rewrite andb_false_r in Hr.
  - destruct (order_handle_run env message context) as [_ [Hl Hr]].
    repeat split; [lia | assumption].
  - destruct (billing_handle_run env message context) as [_ [Hl Hr]].
    rewrite forallb_forall in Hr. repeat split; [assumption | |].
    + apply forallb_forall. intros c Hc. specialize (Hr c Hc).
      now apply andb_true_iff in Hr.
    + intros c Hc Hw. specialize (Hr c Hc). rewrite Hw in Hr.
      now rewrite andb_false_r in Hr.
  - destruct (support_handle_run env message context) as [_ [Hl Hr]].
    rewrite forallb_forall in Hr. repeat split; [assumption | |].
    + apply forallb_forall. intros c Hc. specialize (Hr c Hc).
      now apply andb_true_iff in Hr.
    + intros c Hc Hw. specialize (Hr c Hc). rewrite Hw in Hr.
      now rewrite andb_false_r in Hr.
Qed.

(** The calls of one [processMessage] of the exported coordinators: with
    the LLM router, the one request to the text-generation service
    first; then at most two data-tool calls. A write among them means
    the decision was ORDER. *)
Theorem processMessage_calls JSON_parse useLLMRouter env message context :
  let this := AgentCoordinator.new JSON_parse useLLMRouter in
  exists data_calls,
    calls env (AgentCoordinator.processMessage this message context) =
      ((if useLLMRouter then [Called (generateText (request_of message))]
        else []) ++ data_calls)%list
    /\ (List.length data_calls <= 2)%nat
    /\ forallb is_data_tool data_calls = true
    /\ (forall c, In c data_calls -> is_write c = true ->
          as_AgentType
            (RouteDecision.agentType
               (outcome env (AgentCoordinator.router this message context)))
          = Some ORDER).
Proof.
  cbv zeta.
  pose proof (processMessage_run
                (AgentCoordinator.new JSON_parse useLLMRouter)
                env message context) as Hrun.
  cbv zeta in Hrun. unfold calls at 1. rewrite Hrun. cbn [snd].
  eexists. split.
  - f_equal. destruct useLLMRouter.
    + apply llm_router_calls.
    + reflexivity.
  - apply target_calls. apply standard_new.
Qed.

End DispatcherFacts.

(* ===================================================================== *)
(** * The FAQ search *)
(* ===================================================================== *)

Module FaqFacts.
Import Notions Spec AgentProperties.

(** ** Relevance *)

Lemma includes_empty text : includes text EmptyString = true.
Proof. destruct text; reflexivity. Qed.

Lemma relevance_step_big text score w :
  at_least_one score = true ->
  at_least_one (supportTools.relevance_step text score w) = true.
Proof.
  intros H. unfold supportTools.relevance_step.
  assert (at_least_one (add score lit_1) = true) as H1.
  { apply (NumberFacts.add_big score lit_1 4503599627370496 (-52)%Z);
      try reflexivity; [assumption | lia]. }
  destruct (includes text w); [| assumption].
  destruct (startsWith text w); [| assumption].
  apply (NumberFacts.add_big _ lit_0_5 4503599627370496 (-53)%Z);
    try reflexivity; [assumption | lia].
Qed.

Lemma relevance_fold_big text ws : forall score,
  at_least_one score = true ->
  at_least_one (fold_left (supportTools.relevance_step text) ws score) = true.
Proof.
  induction ws as [| w ws IH]; intros score H; simpl; [assumption |].
  apply IH. now apply relevance_step_big.
Qed.

Lemma relevance_step_first text w :
  includes text w = true ->
  at_least_one (supportTools.relevance_step text zero w) = true.
Proof.
  intros H. unfold supportTools.relevance_step. rewrite H.
  destruct (startsWith text w); reflexivity.
Qed.

Lemma relevance_step_miss text score w :
  includes text w = false -> supportTools.relevance_step text score w = score.
Proof. intros H. unfold supportTools.relevance_step. now rewrite H. Qed.

Lemma relevance_fold text ws :
  if existsb (includes text) ws
  then at_least_one (fold_left (supportTools.relevance_step text) ws zero) = true
  else fold_left (supportTools.relevance_step text) ws zero = zero.
Proof.
  induction ws as [| w ws IH]; simpl; [reflexivity |].
  destruct (includes text w) eqn:Hw; simpl.
  - apply relevance_fold_big. now apply relevance_step_first.
  - rewrite relevance_step_miss by assumption. exact IH.
Qed.

Lemma at_least_one_positive x : at_least_one x = true -> gtb x zero = true.
Proof.
  destruct x as [| [|] | | [|] m e]; try discriminate; reflexivity.
Qed.

Lemma relevance_positive query faq :
  gtb (FAQResult.relevance (result_of query faq)) zero = faq_matches query faq.
Proof.
  unfold result_of, faq_matches, words, supportTools.calculateRelevance.
  cbn [FAQResult.relevance].
  pose proof (relevance_fold (supportTools.faq_text faq)
                (supportTools.split_white_space (toLowerCase query))) as H.
  destruct (existsb _ _).
  - now apply at_least_one_positive.
  - rewrite H. reflexivity.
Qed.

(** ** Sorting keeps the entries *)

Lemma sort_insert_length {A : Type} (compare : A -> A -> number) x l :
  List.length (RouterAgentImpl.sort_insert compare x l) = S (List.length l).
Proof.
  induction l as [| y l IH]; [reflexivity |].
  cbn [RouterAgentImpl.sort_insert].
  destruct (ltb (compare x y) zero); cbn [List.length]; [| rewrite IH];
    reflexivity.
Qed.

Lemma sort_insert_In {A : Type} (compare : A -> A -> number) x l z :
  In z (RouterAgentImpl.sort_insert compare x l) <-> z = x \/ In z l.
Proof.
  induction l as [| y l IH]; cbn [RouterAgentImpl.sort_insert].
  - simpl. intuition.
  - destruct (ltb (compare x y) zero).
    + simpl. intuition.
    + cbn [In]. rewrite IH. intuition.
Qed.

Lemma sort_fold {A : Type} (compare : A -> A -> number) l : forall acc,
  let r := fold_left
             (fun sorted x => RouterAgentImpl.sort_insert compare x sorted)
             l acc in
  List.length r = (List.length l + List.length acc)%nat
  /\ forall z, In z r <-> In z l \/ In z acc.
Proof.
  induction l as [| x l IH]; intros acc; cbn zeta.
  - simpl. intuition.
  - cbn [fold_left]. destruct (IH (RouterAgentImpl.sort_insert compare x acc))
      as [Hl Hi]. cbn zeta in Hl, Hi. split.
    + rewrite Hl, sort_insert_length. simpl. lia.
    + intros z. rewrite Hi, sort_insert_In. simpl. intuition.
Qed.

Lemma sort_length {A : Type} (compare : A -> A -> number) l :
  List.length (RouterAgentImpl.sort compare l) = List.length l.
Proof.
  unfold RouterAgentImpl.sort.
  destruct (sort_fold compare l []) as [H _]. cbn zeta in H.
  rewrite H. simpl. lia.
Qed.

Lemma sort_In {A : Type} (compare : A -> A -> number) l z :
  In z (RouterAgentImpl.sort compare l) <-> In z l.
Proof.
  unfold RouterAgentImpl.sort.
  destruct (sort_fold compare l []) as [_ H]. cbn zeta in H.
  rewrite H. simpl. intuition.
Qed.

(** ** The search *)

Lemma searchFAQs_eq query :
  supportTools.searchFAQs query =
    firstn 5
      (RouterAgentImpl.sort
         (fun a b => sub (FAQResult.relevance b) (FAQResult.relevance a))
         (List.filter (fun result => gtb (FAQResult.relevance result) zero)
            (List.map (result_of query) supportTools.faqData))).
Proof. reflexivity. Qed.

Lemma firstn_In {A : Type} (n : nat) (l : list A) z :
  In z (firstn n l) -> In z l.
Proof.
  revert l. induction n as [| n IH]; intros [| x l]; simpl; try tauto.
  intros [-> | H]; auto.
Qed.

Lemma matching_In query z :
  In z (List.filter (fun result => gtb (FAQResult.relevance result) zero)
          (List.map (result_of query) supportTools.faqData)) <->
  exists faq, In faq supportTools.faqData /\ z = result_of query faq
              /\ faq_matches query faq = true.
Proof.
  rewrite filter_In, in_map_iff. split.
  - intros [[faq [<- Hin]] Hpos]. exists faq.
    rewrite relevance_positive in Hpos. auto.
  - intros [faq [Hin [-> Hm]]]. split; [now exists faq |].
    now rewrite relevance_positive.
Qed.

Lemma searchFAQs_spec query :
  (List.length (supportTools.searchFAQs query) <= 5)%nat
  /\ (forall r, In r (supportTools.searchFAQs query) ->
        exists faq, In faq supportTools.faqData /\ r = result_of query faq
                    /\ faq_matches query faq = true)
  /\ (supportTools.searchFAQs query = [] <->
      forall faq, In faq supportTools.faqData -> faq_matches query faq = false).
Proof.
  rewrite searchFAQs_eq.
  set (compare := fun a b : FAQResult.t => _).
  set (found := List.filter _ _).
  split; [| split].
  - rewrite length_firstn. lia.
  - intros r Hr. apply firstn_In, sort_In in Hr. now apply matching_In.
  - split.
    + intros Hnil faq Hin.
      destruct (faq_matches query faq) eqn:Hm; [| reflexivity].
      assert (In (result_of query faq) found) as Hf.
      { apply matching_In. now exists faq. }
      assert (List.length (RouterAgentImpl.sort compare found) = O) as Hl.
      { destruct (RouterAgentImpl.sort compare found); [reflexivity |].
        discriminate Hnil. }
      rewrite sort_length in Hl. destruct found; [destruct Hf | discriminate].
    + intros Hnone.
      assert (found = []) as ->; [| reflexivity].
      destruct found as [| z l] eqn:Hf; [reflexivity |].
      assert (In z found) as Hz by (rewrite Hf; now left).
      apply matching_In in Hz. destruct Hz as [faq [Hin [_ Hm]]].
      rewrite (Hnone faq Hin) in Hm. discriminate.
Qed.

(** The search returns at most five entries, each built from an FAQ of
    the table in whose text some word of the lower-cased query occurs;
    and it returns none exactly when no word of the query occurs in the
    text of any FAQ. *)
Theorem searchFAQs_matches query :
  (List.length (supportTools.searchFAQs query) <= 5)%nat
  /\ (forall r, In r (supportTools.searchFAQs query) ->
        exists faq, In faq supportTools.faqData /\ r = result_of query faq
                    /\ faq_matches query faq = true)
  /\ (supportTools.searchFAQs query = [] <->
      forall faq, In faq supportTools.faqData -> faq_matches query faq = false).
Proof. exact (searchFAQs_spec query). Qed.

(** ** Blank ends *)

Lemma lower_char_white_space c :
  is_white_space (lower_char c) = is_white_space c.
Proof. destruct c as [[] [] [] [] [] [] [] []]; vm_compute; reflexivity. Qed.

Lemma toLowerCase_app s t :
  toLowerCase (s ++ t) = toLowerCase s ++ toLowerCase t.
Proof.
  induction s as [| c s IH]; [reflexivity |].
  change (String c s ++ t) with (String c (s ++ t)).
  cbn [toLowerCase]. rewrite IH. reflexivity.
Qed.

Lemma split_from_blank_end c : forall s piece in_run,
  is_white_space c = true ->
  (in_run = true -> piece = EmptyString) ->
  In EmptyString (supportTools.split_from (s ++ String c EmptyString) piece in_run).
Proof.
  intros s piece in_run Hc. revert piece in_run.
  induction s as [| d s IH]; intros piece in_run Hp.
  - change (EmptyString ++ String c EmptyString) with (String c EmptyString).
    cbn [supportTools.split_from]. rewrite Hc.
    destruct in_run; [rewrite Hp by reflexivity; now left |].
    right. now left.
  - change (String d s ++ String c EmptyString)
      with (String d (s ++ String c EmptyString)).
    cbn [supportTools.split_from]. destruct (is_white_space d).
    + destruct in_run.
      * now apply IH.
      * right. apply IH. reflexivity.
    + apply IH. discriminate.
Qed.

Lemma blank_word query :
  query = EmptyString \/ starts_blank query \/ ends_blank query ->
  In EmptyString (words query).
Proof.
  unfold words, supportTools.split_white_space.
  intros [-> | [[c [rest [-> Hc]]] | [front [c [-> Hc]]]]].
  - now left.
  - cbn [toLowerCase supportTools.split_from]. rewrite lower_char_white_space, Hc.
    now left.
  - rewrite toLowerCase_app. cbn [toLowerCase].
    apply split_from_blank_end; [| discriminate].
    now rewrite lower_char_white_space.
Qed.

(** A query that is empty, or that starts or ends with white space,
    matches every FAQ: the empty word [split] leaves there occurs in
    every text, so the search returns five entries whatever else the
    query says. *)
Theorem blank_query_matches_all query :
  query = EmptyString \/ starts_blank query \/ ends_blank query ->
  (forall faq, faq_matches query faq = true)
  /\ List.length (supportTools.searchFAQs query) = 5%nat.
Proof.
  intros H. apply blank_word in H.
  assert (forall faq, faq_matches query faq = true) as Hall.
  { intros faq. unfold faq_matches. apply existsb_exists.
    exists EmptyString. split; [assumption | apply includes_empty]. }
  split; [assumption |].
  rewrite searchFAQs_eq, length_firstn, sort_length.
  rewrite forallb_filter_id.
  - reflexivity.
  - apply forallb_forall. intros z Hz. apply in_map_iff in Hz.
    destruct Hz as [faq [<- _]]. rewrite relevance_positive. apply Hall.
Qed.

Lemma blank_query_matches_all_witness :
  (forall faq, faq_matches "refund " faq = true)
  /\ List.length (supportTools.searchFAQs "refund ") = 5%nat.
Proof.
  apply (blank_query_matches_all "refund ").
  right. right. exists "refund", " "%char. split; reflexivity.
Defined.

(** ** The support responder over the FAQ search *)

(** With the FAQ search of [supportTools] behind it, the support
    responder answers a message that is no greeting from the FAQ table
    as soon as one word of the message occurs in the text of an FAQ, and
    asks for nothing else; only a message none of whose words occurs in
    any FAQ text reaches the conversation history and the replies about
    returns, accounts, contact and products. *)
Theorem support_faq_first env message context :
  SupportAgentImpl.isGreeting (toLowerCase message) = false ->
  let r := run (with_faq_search env)
             (SupportAgentImpl.handle message context) in
  (existsb (faq_matches message) supportTools.faqData = true ->
     exists bestMatch,
       AgentResponse.content (fst r) = FAQAnswer bestMatch
       /\ In bestMatch (supportTools.searchFAQs message)
       /\ snd r = [Called (searchFAQs message)])
  /\ (existsb (faq_matches message) supportTools.faqData = false ->
      (forall bestMatch,
         AgentResponse.content (fst r) <> FAQAnswer bestMatch)
      /\ snd r =
           [Called (searchFAQs message);
            Called (queryConversationHistory
                      (ConversationContext.userId context) (of_pos 5))]).
Proof.
  intros Hg. cbv zeta.
  unfold SupportAgentImpl.handle. cbv zeta.
  rewrite run_invoke. cbv beta. rewrite Hg.
  change (with_faq_search env _ (searchFAQs message))
    with (supportTools.searchFAQs message).
  destruct (searchFAQs_spec message) as [_ [_ Hnil]].
  split; intros Hm.
  - destruct (supportTools.searchFAQs message) as [| bestMatch rest] eqn:Hs.
    + assert (existsb (faq_matches message) supportTools.faqData = false) as Hf.
      { apply not_true_is_false. intros Hex. apply existsb_exists in Hex.
        destruct Hex as [faq [Hin Hfm]].
        rewrite (proj1 Hnil eq_refl faq Hin) in Hfm. discriminate. }
      rewrite Hf in Hm. discriminate.
    + exists bestMatch. cbn [run fst snd]. repeat split. now left.
  - assert (supportTools.searchFAQs message = []) as ->.
    { apply Hnil. intros faq Hin.
      destruct (faq_matches message faq) eqn:Hfm; [| reflexivity].
      assert (existsb (faq_matches message) supportTools.faqData = true) as Hex.
      { apply existsb_exists. now exists faq. }
      rewrite Hex in Hm. discriminate. }
    rewrite run_invoke. cbv beta.
    repeat (branch; run_step); split; try reflexivity;
      intros bestMatch; cbn; discriminate.
Qed.

Lemma support_faq_first_witness :
  exists bestMatch,
    AgentResponse.content
      (fst (run (with_faq_search unavailable)
              (SupportAgentImpl.handle "I want to return my item"
                 (fresh_context None)))) = FAQAnswer bestMatch.
Proof.
  destruct (support_faq_first unavailable "I want to return my item"
              (fresh_context None) eq_refl) as [H _].
  destruct (H eq_refl) as [bestMatch [Hc _]].
  exists bestMatch. exact Hc.
Defined.

End FaqFacts.

(* ===================================================================== *)
(** * Identifiers and tools *)
(* ===================================================================== *)

Module IdentifierFacts.
Import Notions Spec ScorerProperties AgentProperties.

(** ** What a match is made of *)

Lemma suffix_of_refl s : suffix_of s s.
Proof. now exists EmptyString. Qed.

Lemma suffix_of_String c rest s : suffix_of rest s -> suffix_of rest (String c s).
Proof. intros [taken ->]. now exists (String c taken). Qed.

Lemma star_match_suffix ic a k :
  (forall p s' rest', k p s' = Some rest' -> suffix_of rest' s') ->
  forall s prev rest,
    star_match ic a prev s k = Some rest -> suffix_of rest s.
Proof.
  intros Hk. induction s as [| c s IH]; intros prev rest H.
  - now apply (Hk prev).
  - cbn [star_match] in H. destruct (atom_matches ic a c).
    + destruct (star_match ic a (Some c) s k) as [rest' |] eqn:Hs.
      * injection H as <-. apply suffix_of_String. now apply (IH (Some c)).
      * now apply (Hk prev).
    + now apply (Hk prev).
Qed.

Lemma rmatch_suffix ic r : forall k,
  (forall p s' rest', k p s' = Some rest' -> suffix_of rest' s') ->
  forall prev s rest, rmatch ic r prev s k = Some rest -> suffix_of rest s.
Proof.
  induction r as [| a | a | | | r1 IH1 r2 IH2 | r1 IH1 r2 IH2];
    intros k Hk prev s rest H; cbn [rmatch] in H.
  - now apply (Hk prev).
  - destruct s as [| c s]; [discriminate |].
    destruct (atom_matches ic a c); [| discriminate].
    apply suffix_of_String. now apply (Hk (Some c)).
  - now apply (star_match_suffix ic a k Hk s prev).
  - destruct prev; [discriminate |]. now apply (Hk None).
  - destruct (xorb _ _); [| discriminate]. now apply (Hk prev).
  - apply (IH1 (fun p s' => rmatch ic r2 p s' k)) with (prev := prev);
      [| exact H].
    intros p s' rest' H'. now apply (IH2 k Hk p).
  - destruct (rmatch ic r1 prev s k) as [rest' |] eqn:H1.
    + injection H as <-. now apply (IH1 k Hk prev).
    + now apply (IH2 k Hk prev).
Qed.

Lemma take_app taken rest :
  take (String.length (taken ++ rest) - String.length rest) (taken ++ rest)
  = taken.
Proof.
  rewrite LLMRouterFacts.length_append.
  replace (String.length taken + String.length rest - String.length rest)%nat
    with (String.length taken) by lia.
  induction taken as [| c taken IH]; [now destruct rest |].
  change (String c taken ++ rest) with (String c (taken ++ rest)).
  cbn [String.length take]. now rewrite IH.
Qed.

Lemma span_contains ic r prev s rest :
  rmatch ic r prev s accept = Some rest ->
  contains s (take (String.length s - String.length rest) s).
Proof.
  intros Hr. apply (rmatch_suffix ic r accept) in Hr;
    [| intros p s' rest' [= <-]; apply suffix_of_refl].
  destruct Hr as [taken ->]. rewrite take_app.
  now exists EmptyString, rest.
Qed.

(** The text a search returns stands in the text searched. *)
Lemma exec_from_contains ic r m : forall s prev,
  exec_from ic r prev s = Some m -> contains s m.
Proof.
  induction s as [| c s IH]; intros prev H; rewrite exec_from_eq in H.
  - destruct (rmatch ic r prev EmptyString accept) as [rest |] eqn:Hr;
      [| discriminate].
    injection H as <-. apply span_contains in Hr. exact Hr.
  - destruct (rmatch ic r prev (String c s) accept) as [rest |] eqn:Hr.
    + injection H as <-. apply span_contains in Hr. exact Hr.
    + destruct (IH (Some c) H) as [before [after ->]].
      now exists (String c before), after.
Qed.

Lemma String_match_contains s re m :
  String_match s re = Some m -> contains s m.
Proof. apply exec_from_contains. Qed.

Lemma rmatch_width ic r : forall w k prev s rest,
  width r = Some w ->
  rmatch ic r prev s k = Some rest ->
  exists taken s' p,
    s = taken ++ s' /\ String.length taken = w /\ k p s' = Some rest.
Proof.
  induction r as [| a | a | | | r1 IH1 r2 IH2 | r1 IH1 r2 IH2];
    intros w k prev s rest Hw H; cbn [width] in Hw; cbn [rmatch] in H.
  - injection Hw as <-. now exists EmptyString, s, prev.
  - injection Hw as <-. destruct s as [| c s]; [discriminate |].
    destruct (atom_matches ic a c); [| discriminate].
    now exists (String c EmptyString), s, (Some c).
  - discriminate.
  - injection Hw as <-. destruct prev; [discriminate |].
    now exists EmptyString, s, None.
  - injection Hw as <-. destruct (xorb _ _); [| discriminate].
    now exists EmptyString, s, prev.
  - destruct (width r1) as [w1 |]; [| discriminate].
    destruct (width r2) as [w2 |]; [| discriminate].
    injection Hw as <-.
    destruct (IH1 w1 _ prev s rest eq_refl H)
      as [t1 [s1 [p1 [-> [Hl1 H1]]]]].
    destruct (IH2 w2 k p1 s1 rest eq_refl H1)
      as [t2 [s2 [p2 [-> [Hl2 H2]]]]].
    exists (t1 ++ t2), s2, p2. repeat split.
    + now rewrite LLMRouterFacts.append_assoc.
    + rewrite LLMRouterFacts.length_append. lia.
    + exact H2.
  - destruct (width r1) as [w1 |]; [| discriminate].
    destruct (width r2) as [w2 |]; [| discriminate].
    destruct (Nat.eqb_spec w1 w2) as [<- |]; [| discriminate].
    injection Hw as <-.
    destruct (rmatch ic r1 prev s k) as [rest' |] eqn:H1.
    + injection H as <-. now apply (IH1 w1 k prev s rest').
    + now apply (IH2 w1 k prev s rest).
Qed.

Lemma exec_from_width ic r w m :
  width r = Some w ->
  forall s prev, exec_from ic r prev s = Some m -> String.length m = w.
Proof.
  intros Hw.
  assert (forall s prev rest,
            rmatch ic r prev s accept = Some rest ->
            String.length
              (take (String.length s - String.length rest) s) = w) as Hspan.
  { intros s prev rest Hr.
    destruct (rmatch_width ic r w accept prev s rest Hw Hr)
      as [taken [s' [p [-> [Hl [= <-]]]]]].
    now rewrite take_app. }
  induction s as [| c s IH]; intros prev H; rewrite exec_from_eq in H.
  - destruct (rmatch ic r prev EmptyString accept) as [rest |] eqn:Hr;
      [| discriminate].
    injection H as <-. apply Hspan in Hr. exact Hr.
  - destruct (rmatch ic r prev (String c s) accept) as [rest |] eqn:Hr.
    + injection H as <-. apply Hspan in Hr. exact Hr.
    + now apply (IH (Some c)).
Qed.

(** ** The order number *)

(** The order number the responder finds in a message is a piece of the
    message, seven code units long, and every call that carries an order
    number carries that one, as the message spells it. *)
Theorem order_number_as_written env message context n :
  String_match message OrderAgentImpl.orderNumberPattern = Some n ->
  contains message n
  /\ String.length n = 7%nat
  /\ forall c n', In c (calls env (OrderAgentImpl.handle message context)) ->
       order_number_of c = Some n' -> n' = n.
Proof.
  intros Hn. split; [| split].
  - now apply String_match_contains in Hn.
  - apply (exec_from_width true
             (source OrderAgentImpl.orderNumberPattern) 7 n eq_refl
             message None).
    exact Hn.
  - intros c n'. unfold calls, OrderAgentImpl.handle. cbv zeta.
    rewrite Hn.
    change (OrderAgentImpl.narrowed (Some n)) with n.
    repeat (branch; run_step); intros Hin; cbn in Hin;
      repeat match goal with
             | H : _ \/ _ |- _ => destruct H as [<- | H]
             | H : False |- _ => destruct H
             end;
      cbn; congruence.
Qed.

Lemma order_number_as_written_witness :
  contains "Track ord-123 please" "ord-123"
  /\ String.length "ord-123" = 7%nat.
Proof.
  destruct (order_number_as_written unavailable "Track ord-123 please"
              (fresh_context None) "ord-123" eq_refl) as [H1 [H2 _]].
  split; assumption.
Defined.

(** Only a change of address reaches the store: whatever the message
    asks to modify, a call of [modifyOrder] carries the note that an
    address change was requested and no items to add or remove. *)
Theorem modify_carries_address_note env message context c modifications :
  In c (calls env (OrderAgentImpl.handle message context)) ->
  modifications_of c = Some modifications ->
  modifications = address_note.
Proof.
  unfold calls, OrderAgentImpl.handle. cbv zeta.
  set (orderNumber :=
         match String_match message OrderAgentImpl.orderNumberPattern with
         | Some m => Some m
         | None => _
         end).
  destruct (OrderAgentImpl.isTrackingRequest (toLowerCase message)).
  { repeat (branch; run_step); intros Hin; cbn in Hin;
      intuition (subst; discriminate). }
  destruct (OrderAgentImpl.isStatusRequest (toLowerCase message)).
  { repeat (branch; run_step); intros Hin; cbn in Hin;
      intuition (subst; discriminate). }
  destruct (OrderAgentImpl.isCancellationRequest (toLowerCase message)).
  { repeat (branch; run_step); intros Hin; cbn in Hin;
      intuition (subst; discriminate). }
  destruct (OrderAgentImpl.isModificationRequest (toLowerCase message)).
  { destruct (truthy_string orderNumber); cbn [negb]; run_step;
      [| intros Hin; cbn in Hin; contradiction].
    unfold OrderAgentImpl.parseModifications. cbv zeta.
    destruct (test _ message).
    - cbn [OrderModification.keys_length OrderModification.shippingAddress
           OrderModification.addItems OrderModification.removeItems
           OrderModification.empty Nat.add Nat.eqb].
      run_step. intros Hin Hm. cbn in Hin. destruct Hin as [<- | []].
      cbn in Hm. injection Hm as <-. reflexivity.
    - cbn [OrderModification.keys_length OrderModification.shippingAddress
           OrderModification.addItems OrderModification.removeItems
           OrderModification.empty Nat.add Nat.eqb].
      run_step. intros Hin. cbn in Hin. contradiction. }
  run_step. repeat (branch; run_step); intros Hin; cbn in Hin;
    intuition (subst; discriminate).
Qed.

Lemma modify_carries_address_note_witness :
  OrderAgentImpl.parseModifications "change the address of ORD-001" =
  address_note.
Proof.
  apply (modify_carries_address_note unavailable
           "change the address of ORD-001" (fresh_context None)
           (Called (modifyOrder "ORD-001"
                      (OrderAgentImpl.parseModifications
                         "change the address of ORD-001")))).
  - left. reflexivity.
  - reflexivity.
Defined.

(** ** Refund and invoice identifiers *)

(** The billing responder looks up no identifier but one the message
    spells out: the identifier of every refund or invoice lookup is a
    piece of the message. *)
Theorem billing_ids_from_message env message context c ident :
  In c (calls env (BillingAgentImpl.handle message context)) ->
  billing_id_of c = Some ident ->
  contains message ident.
Proof.
  unfold calls, BillingAgentImpl.handle. cbv zeta.
  destruct (String_match message BillingAgentImpl.refundIdPattern)
    as [r |] eqn:Hr;
    destruct (String_match message BillingAgentImpl.invoiceIdPattern)
      as [i |] eqn:Hi;
    try apply String_match_contains in Hr;
    try apply String_match_contains in Hi;
    repeat (branch; run_step); intros Hin; cbn in Hin;
    repeat match goal with
           | H : _ \/ _ |- _ => destruct H as [<- | H]
           | H : False |- _ => destruct H
           end;
    cbn; intros [= <-]; try assumption;
    match goal with H : truthy_string None = true |- _ => discriminate H end.
Qed.

Lemma billing_ids_from_message_witness :
  contains "refund status REF-12" "REF-12".
Proof.
  apply (billing_ids_from_message refund_known "refund status REF-12"
           (fresh_context None) (Called (checkRefundStatus "REF-12"))).
  - left. reflexivity.
  - reflexivity.
Defined.

(** ** The directory *)

(** The responders call nothing the directory does not list: the
    function behind every call of a responder is among the tools
    [getAgentCapabilities] names for its agent type. *)
Theorem responders_call_advertised_tools env message context :
  forallb (advertised ORDER)
    (calls env (OrderAgentImpl.handle message context)) = true
  /\ forallb (advertised BILLING)
       (calls env (BillingAgentImpl.handle message context)) = true
  /\ forallb (advertised SUPPORT)
       (calls env (SupportAgentImpl.handle message context)) = true.
Proof.
  unfold calls. repeat split.
  - unfold OrderAgentImpl.handle. cbv zeta.
    repeat (branch; run_step); reflexivity.
  - unfold BillingAgentImpl.handle. cbv zeta.
    repeat (branch; run_step); reflexivity.
  - unfold SupportAgentImpl.handle. cbv zeta.
    repeat (branch; run_step); reflexivity.
Qed.

End IdentifierFacts.

(* ===================================================================== *)
(** * The order tools over the database *)
(* ===================================================================== *)

Module ToolFacts.
Import Notions Spec AgentProperties AgentFacts.

(** ** What each tool sends *)

Lemma cancelOrder_sent nts db n reason :
  snd (orderTools.cancelOrder nts db n reason) =
    match db _ (find_with_payments n) with
    | Fulfilled (Some order) =>
        if orderTools.cancellable (OrderRow.status order)
        then [Sent (find_with_payments n);
              Sent (order_update (OrderKey.orderNumber n) cancel_data)]
        else [Sent (find_with_payments n)]
    | _ => [Sent (find_with_payments n)]
    end.
Proof.
  unfold orderTools.cancelOrder, try_catch. cbn [execute].
  fold (find_with_payments n).
  destruct (db _ (find_with_payments n)) as [[order |] | error];
    try reflexivity.
  destruct (orderTools.cancellable (OrderRow.status order)); cbn [negb];
    [| reflexivity].
  cbn [execute]. fold cancel_data.
  destruct (db _ (order_update (OrderKey.orderNumber n) cancel_data));
    reflexivity.
Qed.

Lemma cancelOrder_success nts db n reason :
  CancellationResult.success (fst (orderTools.cancelOrder nts db n reason)) =
    match db _ (find_with_payments n) with
    | Fulfilled (Some order) =>
        (orderTools.cancellable (OrderRow.status order)
         && if db _ (order_update (OrderKey.orderNumber n) cancel_data)
               is Fulfilled _ then true else false)%bool
    | _ => false
    end.
Proof.
  unfold orderTools.cancelOrder, try_catch. cbn [execute].
  fold (find_with_payments n).
  destruct (db _ (find_with_payments n)) as [[order |] | error];
    try reflexivity.
  destruct (orderTools.cancellable (OrderRow.status order)); cbn [negb];
    [| reflexivity].
  cbn [execute]. fold cancel_data.
  destruct (db _ (order_update (OrderKey.orderNumber n) cancel_data));
    reflexivity.
Qed.

Lemma cancellable_spec status :
  orderTools.cancellable status = true <->
  status = OrderStatus.PENDING \/ status = OrderStatus.CONFIRMED.
Proof.
  destruct status; vm_compute; split; intros H;
    try discriminate; auto; destruct H; discriminate.
Qed.

(** [cancelOrder] looks the order up and changes nothing unless it finds
    it PENDING or CONFIRMED; then it sends one update, which sets the
    status to CANCELLED and no other column. It reports success exactly
    when that update was sent and the database accepted it. *)
Theorem cancel_only_open_orders nts db n reason :
  let r := orderTools.cancelOrder nts db n reason in
  let find := Sent (find_with_payments n) in
  let update := Sent (order_update (OrderKey.orderNumber n) cancel_data) in
  (snd r = [find] \/ snd r = [find; update])
  /\ (snd r = [find; update] <->
      exists order,
        db _ (find_with_payments n) = Fulfilled (Some order)
        /\ (OrderRow.status order = OrderStatus.PENDING
            \/ OrderRow.status order = OrderStatus.CONFIRMED))
  /\ (CancellationResult.success (fst r) = true <->
      snd r = [find; update]
      /\ exists updatedOrder,
           db _ (order_update (OrderKey.orderNumber n) cancel_data) =
             Fulfilled updatedOrder).
Proof.
  cbv zeta. rewrite cancelOrder_sent, cancelOrder_success.
  destruct (db _ (find_with_payments n)) as [[order |] | error].
  - pose proof (cancellable_spec (OrderRow.status order)) as Hc.
    destruct (orderTools.cancellable (OrderRow.status order)).
    + split; [now right |]. split.
      * split; [| reflexivity]. intros _. exists order.
        split; [reflexivity | now apply Hc].
      * cbn [andb].
        destruct (db _ (order_update (OrderKey.orderNumber n) cancel_data))
          as [updatedOrder | error].
        -- split; [| reflexivity]. intros _. split; [reflexivity |].
           now exists updatedOrder.
        -- split; [discriminate |]. intros [_ [updatedOrder H]].
           discriminate H.
    + split; [now left |]. split.
      * split; [discriminate |]. intros [order' [[= <-] Hs]].
        apply Hc in Hs. discriminate Hs.
      * split; [discriminate |]. intros [H _]. discriminate H.
  - split; [now left |]. split.
    + split; [discriminate |]. intros [order [H _]]. discriminate H.
    + split; [discriminate |]. intros [H _]. discriminate H.
  - split; [now left |]. split.
    + split; [discriminate |]. intros [order [H _]]. discriminate H.
    + split; [discriminate |]. intros [H _]. discriminate H.
Qed.

(** ** Modifying an order *)

Lemma modifyOrder_sent (db : database) n modifications order :
  db _ (find_plain n) = Fulfilled (Some order) ->
  let data :=
    {| OrderUpdate.status := None;
       OrderUpdate.shippingAddress :=
         OrderModification.shippingAddress modifications;
       OrderUpdate.items :=
         match OrderModification.addItems modifications with
         | Some (item :: items) =>
             Some (OrderRow.items order ++ item :: items)%list
         | _ => None
         end |} in
  snd (orderTools.modifyOrder db n modifications) =
    match OrderUpdate.keys data with
    | [] => [Sent (find_plain n)]
    | _ => [Sent (find_plain n);
            Sent (order_update (OrderKey.orderNumber n) data)]
    end.
Proof.
  intros Hfind. cbv zeta.
  unfold orderTools.modifyOrder, try_catch. cbn [execute].
  fold (find_plain n). rewrite Hfind.
  destruct modifications as [[address |] [[| item items] |] removeItems];
    cbn [OrderModification.shippingAddress OrderModification.addItems
         List.length Nat.ltb Nat.leb OrderUpdate.empty OrderUpdate.status
         OrderUpdate.shippingAddress OrderUpdate.items OrderUpdate.keys
         app Nat.eqb execute];
    try reflexivity;
    match goal with
    | |- context [db _ (order_update ?k ?d)] =>
        destruct (db _ (order_update k d)); reflexivity
    end.
Qed.

(** [modifyOrder] does not look at the status of the order, nor at whose
    order it is: whenever the order exists and the modifications hold a
    shipping address or items to add, the update is sent, with that
    address and the items appended to those of the order, and the status
    left alone. Items to remove play no part: the same modifications
    without them give the same result and the same statements. *)
Theorem modify_ignores_status (db : database) n modifications order :
  db _ (find_plain n) = Fulfilled (Some order) ->
  (OrderModification.shippingAddress modifications <> None
   \/ exists item items,
        OrderModification.addItems modifications = Some (item :: items)) ->
  (exists data,
     snd (orderTools.modifyOrder db n modifications) =
       [Sent (find_plain n);
        Sent (order_update (OrderKey.orderNumber n) data)]
     /\ OrderUpdate.status data = None
     /\ OrderUpdate.shippingAddress data =
          OrderModification.shippingAddress modifications
     /\ (forall item items,
           OrderModification.addItems modifications = Some (item :: items) ->
           OrderUpdate.items data =
             Some (OrderRow.items order ++ item :: items)%list))
  /\ orderTools.modifyOrder db n modifications =
       orderTools.modifyOrder db n
         {| OrderModification.shippingAddress :=
              OrderModification.shippingAddress modifications;
            OrderModification.addItems :=
              OrderModification.addItems modifications;
            OrderModification.removeItems := None |}.
Proof.
  intros Hfind Hsome. split; [| reflexivity].
  rewrite (modifyOrder_sent db n modifications order Hfind).
  exists {| OrderUpdate.status := None;
            OrderUpdate.shippingAddress :=
              OrderModification.shippingAddress modifications;
            OrderUpdate.items :=
              match OrderModification.addItems modifications with
              | Some (item :: items) =>
                  Some (OrderRow.items order ++ item :: items)%list
              | _ => None
              end |}.
  split; [| split; [reflexivity | split; [reflexivity |]]].
  - destruct modifications as [[address |] [[| item items] |] removeItems];
      cbn [OrderModification.shippingAddress OrderModification.addItems
           OrderUpdate.keys OrderUpdate.status OrderUpdate.shippingAddress
           OrderUpdate.items app] in *;
      try reflexivity;
      destruct Hsome as [H | [item' [items' H]]];
      try discriminate H; now contradiction H.
  - intros item items ->. reflexivity.
Qed.

Lemma modify_ignores_status_witness :
  exists data,
    snd (orderTools.modifyOrder (holding delivered_order) "ORD-003"
           address_note) =
      [Sent (find_plain "ORD-003");
       Sent (order_update (OrderKey.orderNumber "ORD-003") data)].
Proof.
  destruct (modify_ignores_status (holding delivered_order) "ORD-003"
              address_note delivered_order eq_refl)
    as [[data [H _]] _].
  - left. discriminate.
  - exists data. exact H.
Defined.

(** ** Refunds *)

Lemma processRefund_sent nts db orderId amount reason :
  snd (billingTools.processRefund nts db orderId amount reason) =
    match db _ (find_by_id orderId) with
    | Fulfilled (Some order) =>
        match completed_payment order with
        | Some payment =>
            if gtb amount (billingTools.maxRefundAmount payment order)
            then [Sent (find_by_id orderId)]
            else
              Sent (find_by_id orderId)
              :: Sent (refund_create (refund_of orderId amount reason order))
              :: match db _ (refund_create
                               (refund_of orderId amount reason order)) with
                 | Fulfilled _ =>
                     if strict_equal amount
                          (billingTools.maxRefundAmount payment order)
                     then [Sent (order_update (OrderKey.id orderId)
                                   refunded_data)]
                     else []
                 | Rejected _ => []
                 end
        | None => [Sent (find_by_id orderId)]
        end
    | _ => [Sent (find_by_id orderId)]
    end.
Proof.
  unfold billingTools.processRefund, try_catch. cbn [execute].
  fold (find_by_id orderId).
  destruct (db _ (find_by_id orderId)) as [[order |] | error];
    try reflexivity.
  fold (completed_payment order).
  destruct (completed_payment order) as [payment |]; [| reflexivity].
  cbv zeta.
  destruct (gtb amount (billingTools.maxRefundAmount payment order));
    [reflexivity |].
  cbn [execute]. fold (refund_of orderId amount reason order).
  destruct (db _ (refund_create (refund_of orderId amount reason order)))
    as [refund | error]; [| reflexivity].
  destruct (strict_equal amount (billingTools.maxRefundAmount payment order));
    [| reflexivity].
  cbn [execute]. fold refunded_data.
  destruct (db _ (order_update (OrderKey.id orderId) refunded_data));
    reflexivity.
Qed.

(** [processRefund] asks the database for a refund exactly when it finds
    the order, the order has a completed payment, and the amount is not
    above what is left of that payment after the refunds made; this is
    the only test of the amount. The refund is for the amount asked, in
    the currency of the order, and PENDING; the order is marked REFUNDED
    exactly when the refund was created and the amount equals what was
    left. *)
Theorem refund_within_payment nts db orderId amount reason :
  let sent := snd (billingTools.processRefund nts db orderId amount reason) in
  ((exists data, In (Sent (refund_create data)) sent) <->
   exists order payment,
     db _ (find_by_id orderId) = Fulfilled (Some order)
     /\ completed_payment order = Some payment
     /\ gtb amount (billingTools.maxRefundAmount payment order) = false)
  /\ (forall order,
        db _ (find_by_id orderId) = Fulfilled (Some order) ->
        forall s, In s sent -> is_change s = true ->
          s = Sent (refund_create (refund_of orderId amount reason order))
          \/ (s = Sent (order_update (OrderKey.id orderId) refunded_data)
              /\ exists payment refund,
                   completed_payment order = Some payment
                   /\ db _ (refund_create
                              (refund_of orderId amount reason order)) =
                        Fulfilled refund
                   /\ strict_equal amount
                        (billingTools.maxRefundAmount payment order) = true)).
Proof.
  cbv zeta. rewrite processRefund_sent. split.
  - split.
    + intros [data Hin].
      destruct (db _ (find_by_id orderId)) as [[order |] | error] eqn:Hfind;
        try (destruct Hin as [H | []]; apply (f_equal is_change) in H;
             discriminate H).
      destruct (completed_payment order) as [payment |] eqn:Hpay;
        try (destruct Hin as [H | []]; apply (f_equal is_change) in H;
             discriminate H).
      destruct (gtb amount (billingTools.maxRefundAmount payment order))
        eqn:Hgt;
        try (destruct Hin as [H | []]; apply (f_equal is_change) in H;
             discriminate H).
      exists order, payment. repeat split; assumption.
    + intros [order [payment [-> [-> ->]]]].
      exists (refund_of orderId amount reason order). right. now left.
  - intros order -> s Hin Hs.
    destruct (completed_payment order) as [payment |];
      [| cbn in Hin; destruct Hin as [<- | []]; discriminate Hs].
    destruct (gtb amount (billingTools.maxRefundAmount payment order));
      [cbn in Hin; destruct Hin as [<- | []]; discriminate Hs |].
    destruct Hin as [<- | [<- | Hin]]; [discriminate Hs | now left |].
    destruct (db _ (refund_create (refund_of orderId amount reason order)))
      as [refund | error]; [| destruct Hin].
    destruct (strict_equal amount
                (billingTools.maxRefundAmount payment order)) eqn:Heq;
      [| destruct Hin].
    destruct Hin as [<- | []]. right. split; [reflexivity |].
    now exists payment, refund.
Qed.

(** An amount that is no number passes the test of [processRefund]: for
    an order with a completed payment the refund is asked of the
    database, as it is for any amount that is not above the bound. *)
Theorem refund_amount_unchecked nts (db : database) orderId amount reason
        order payment :
  db _ (find_by_id orderId) = Fulfilled (Some order) ->
  completed_payment order = Some payment ->
  is_nan amount = true ->
  In (Sent (refund_create (refund_of orderId amount reason order)))
     (snd (billingTools.processRefund nts db orderId amount reason))
  /\ ~ In (Sent (order_update (OrderKey.id orderId) refunded_data))
       (snd (billingTools.processRefund nts db orderId amount reason)).
Proof.
  intros Hfind Hpay Hnan.
  rewrite processRefund_sent, Hfind, Hpay.
  destruct amount; try discriminate Hnan.
  assert (forall x, gtb S754_nan x = false) as Hgt by (now destruct x).
  assert (forall x, strict_equal S754_nan x = false) as Heq by reflexivity.
  rewrite Hgt, Heq. split; [right; now left |].
  intros [H | [H | H]]; try discriminate H.
  destruct (db _ (refund_create _)); destruct H.
Qed.

Lemma refund_amount_unchecked_witness :
  In (Sent (refund_create
              (refund_of "order-3" S754_nan "Customer request"
                 delivered_order)))
     (snd (billingTools.processRefund no_text (holding delivered_order)
             "order-3" S754_nan "Customer request")).
Proof.
  apply (refund_amount_unchecked no_text (holding delivered_order) "order-3"
           S754_nan "Customer request" delivered_order
           {| PaymentRow.id := "payment-3";
              PaymentRow.amount := of_pos 599;
              PaymentRow.status := PaymentStatus.COMPLETED |});
    reflexivity.
Defined.

(** ** The order responder over the database *)

Lemma read_statements nts (db : database) c s :
  is_write c = false -> In s (statements nts db c) -> is_change s = false.
Proof.
  destruct c as [X t]. destruct t; cbn [is_write statements];
    try discriminate; intros _; try (intros []).
  - unfold orderTools.getOrderDetails, try_catch. cbn [execute].
    destruct (db _ _) as [[order |] | error]; cbn;
      intros [<- | []]; reflexivity.
  - unfold orderTools.getUserOrders, try_catch. cbn [execute].
    destruct (db _ _) as [orders | error]; cbn;
      intros [<- | []]; reflexivity.
  - unfold orderTools.trackOrder, try_catch. cbn [execute].
    destruct (db _ _) as [[order |] | error]; cbn [execute];
      [destruct (negb _) | |]; cbn; intros [<- | []]; reflexivity.
Qed.

Lemma parseModifications_cases message :
  OrderModification.keys_length (OrderAgentImpl.parseModifications message)
    <> O ->
  OrderAgentImpl.parseModifications message = address_note.
Proof.
  unfold OrderAgentImpl.parseModifications. cbv zeta.
  destruct (test _ message); [reflexivity |].
  intros H. now contradiction H.
Qed.

Lemma modifyOrder_note_sent (db : database) n s :
  In s (snd (orderTools.modifyOrder db n address_note)) ->
  is_change s = true ->
  s = Sent (order_update (OrderKey.orderNumber n) note_data)
  /\ exists order, db _ (find_plain n) = Fulfilled (Some order).
Proof.
  destruct (db _ (find_plain n)) as [[order |] | error] eqn:Hfind.
  - rewrite (modifyOrder_sent db n address_note order Hfind).
    cbn [address_note OrderModification.shippingAddress
         OrderModification.addItems OrderUpdate.keys OrderUpdate.status
         OrderUpdate.shippingAddress OrderUpdate.items app].
    intros [<- | [<- | []]] Hs; [discriminate Hs |].
    split; [reflexivity | now exists order].
  - unfold orderTools.modifyOrder, try_catch. cbn [execute].
    fold (find_plain n). rewrite Hfind. cbn.
    intros [<- | []] Hs. discriminate Hs.
  - unfold orderTools.modifyOrder, try_catch. cbn [execute].
    fold (find_plain n). rewrite Hfind. cbn.
    intros [<- | []] Hs. discriminate Hs.
Qed.

(** With the order tools of the source between the order responder and
    the database, a message changes the store in two ways at most: a
    cancellation request sets the status of an order that is PENDING or
    CONFIRMED to CANCELLED, and a modification request puts the note
    that an address change was requested in the place of the shipping
    address of an order, whatever its status. No other statement that
    changes the store is sent. *)
Theorem order_responder_changes nts (db : database) env message context s :
  In s (flat_map (statements nts db)
          (calls (over_database nts db env)
             (OrderAgentImpl.handle message context))) ->
  is_change s = true ->
  exists n,
    n <> EmptyString
    /\ ((s = Sent (order_update (OrderKey.orderNumber n) cancel_data)
         /\ OrderAgentImpl.isCancellationRequest (toLowerCase message) = true
         /\ exists order,
              db _ (find_with_payments n) = Fulfilled (Some order)
              /\ (OrderRow.status order = OrderStatus.PENDING
                  \/ OrderRow.status order = OrderStatus.CONFIRMED))
        \/ (s = Sent (order_update (OrderKey.orderNumber n) note_data)
            /\ OrderAgentImpl.isModificationRequest (toLowerCase message)
               = true
            /\ exists order, db _ (find_plain n) = Fulfilled (Some order))).
Proof.
  intros Hin Hs. apply in_flat_map in Hin. destruct Hin as [c [Hc Hsent]].
  destruct (is_write c) eqn:Hw;
    [| rewrite (read_statements nts db c s Hw Hsent) in Hs; discriminate Hs].
  destruct (order_writes_spec _ message context c Hc Hw)
    as [_ [_ [[n [-> [Hn Hreq]]] | [n [-> [Hn [_ [Hreq Hkeys]]]]]]]].
  - exists n. split; [assumption |]. left.
    cbn [statements] in Hsent. rewrite cancelOrder_sent in Hsent.
    destruct (db _ (find_with_payments n)) as [[order |] | error] eqn:Hfind;
      try (destruct Hsent as [<- | []]; discriminate Hs).
    destruct (orderTools.cancellable (OrderRow.status order)) eqn:Hcan;
      [| destruct Hsent as [<- | []]; discriminate Hs].
    destruct Hsent as [<- | [<- | []]]; [discriminate Hs |].
    repeat split; [assumption |]. exists order.
    split; [reflexivity | now apply cancellable_spec].
  - exists n. split; [assumption |]. right.
    cbn [statements] in Hsent.
    rewrite (parseModifications_cases message Hkeys) in Hsent.
    destruct (modifyOrder_note_sent db n s Hsent Hs) as [-> Horder].
    repeat split; assumption.
Qed.

Lemma order_responder_changes_witness :
  exists n,
    n <> EmptyString
    /\ ((Sent (order_update (OrderKey.orderNumber "ORD-003") note_data) =
         Sent (order_update (OrderKey.orderNumber n) cancel_data)
         /\ OrderAgentImpl.isCancellationRequest
              (toLowerCase "change the address of ORD-003") = true
         /\ exists order,
              holding delivered_order _ (find_with_payments n) =
                Fulfilled (Some order)
              /\ (OrderRow.status order = OrderStatus.PENDING
                  \/ OrderRow.status order = OrderStatus.CONFIRMED))
        \/ (Sent (order_update (OrderKey.orderNumber "ORD-003") note_data) =
            Sent (order_update (OrderKey.orderNumber n) note_data)
            /\ OrderAgentImpl.isModificationRequest
                 (toLowerCase "change the address of ORD-003") = true
            /\ exists order,
                 holding delivered_order _ (find_plain n) =
                   Fulfilled (Some order))).
Proof.
  apply (order_responder_changes no_text (holding delivered_order)
           unavailable "change the address of ORD-003"
           (fresh_context None)
           (Sent (order_update (OrderKey.orderNumber "ORD-003") note_data))).
  - right. left. reflexivity.
  - reflexivity.
Defined.

End ToolFacts.
